(** * VARO REBILLING: the dashboard code of [app.js], embedded and verified

    The development follows the layout of the JavaScript source:

    - [Js]: the fragment of the language runtime the code relies on
      (values, truthiness, numbers, strings, [Array.prototype.sort]);
    - [XLSX]: the part of the SheetJS workbook interface the code reads;
    - [ExcelProcessor]: [validateFile], [validateSheetColumns],
      [calculateDashboardMetrics], [refreshMetricsFromRecords],
      [getRecordsByPreset], [normalize], [parseDate];
    - [DealComparisonDashboard]: [getFilteredDeals], the selection of
      [renderVarianceChart], [aggregateUnregistered];
    - [Backend]: the server side, which is not part of the JavaScript
      sources and is modelled from the written specification.

    Definitions come first, the theorems about them follow. *)

From Stdlib Require Import Ascii QArith Qround Qabs Qminmax.
From stdpp Require Import gmap strings list fin_maps pretty sorting.
Close Scope Q_scope.

(* ===================================================================== *)
(** * The JavaScript runtime fragment *)
(* ===================================================================== *)

Module Js.

(** ** Numbers

    A JavaScript number is [NaN], an infinity or a finite value.  Finite
    values are kept as exact rationals: the rounding of IEEE doubles is
    outside the model, [-0] is identified with [0]. *)
Inductive number :=
| NaN
| Infinity (negative : bool)
| Fin (q : Q).

(** [ToBoolean] on numbers: [0] and [NaN] are falsy. *)
Definition num_truthy (n : number) : bool :=
  match n with
  | NaN => false
  | Infinity _ => true
  | Fin q => negb (Qeq_bool q 0)
  end.

Definition Qsign_neg (q : Q) : bool := (Qnum q <? 0)%Z.

(** [x + y] *)
Definition num_add (x y : number) : number :=
  match x, y with
  | NaN, _ | _, NaN => NaN
  | Infinity a, Infinity b => if Bool.eqb a b then Infinity a else NaN
  | Infinity a, Fin _ | Fin _, Infinity a => Infinity a
  | Fin p, Fin q => Fin (p + q)
  end.

(** [-x] *)
Definition num_neg (x : number) : number :=
  match x with
  | NaN => NaN
  | Infinity a => Infinity (negb a)
  | Fin q => Fin (- q)
  end.

(** [x - y] *)
Definition num_sub (x y : number) : number := num_add x (num_neg y).

(** [x * y] *)
Definition num_mul (x y : number) : number :=
  match x, y with
  | NaN, _ | _, NaN => NaN
  | Infinity a, Infinity b => Infinity (xorb a b)
  | Infinity a, Fin q | Fin q, Infinity a =>
      if Qeq_bool q 0 then NaN else Infinity (xorb a (Qsign_neg q))
  | Fin p, Fin q => Fin (p * q)
  end.

(** [x / d] for a positive literal divisor [d]. *)
Definition num_div_pos (x : number) (d : positive) : number :=
  match x with
  | NaN => NaN
  | Infinity a => Infinity a
  | Fin q => Fin (q / (Zpos d # 1))
  end.

(** [Math.floor(x)] *)
Definition Math_floor (x : number) : number :=
  match x with
  | Fin q => Fin (inject_Z (Qfloor q))
  | _ => x
  end.

(** [x === y] on numbers: [NaN] differs from everything, itself included. *)
Definition num_strict_eq (x y : number) : bool :=
  match x, y with
  | Fin p, Fin q => Qeq_bool p q
  | Infinity a, Infinity b => Bool.eqb a b
  | _, _ => false
  end.

(** ** Dates

    A [Date] object is represented by the observations the code makes of
    it; an invalid date answers [NaN] to each of them. *)
Record Date := {
  getTime : number;
  getFullYear : number;
  getMonth : number
}.

(** ** Values held by spreadsheet cells *)
Inductive value :=
| VUndefined
| VNull
| VBool (b : bool)
| VNum (n : number)
| VStr (s : string)
| VDate (d : Date).

(** [ToBoolean]: what [value ? _ : _], [!value] and [a || b] test. *)
Definition truthy (v : value) : bool :=
  match v with
  | VUndefined | VNull => false
  | VBool b => b
  | VNum n => num_truthy n
  | VStr s => negb (String.eqb s "")
  | VDate _ => true
  end.

(** [a || b] *)
Definition or_else (a b : value) : value := if truthy a then a else b.

(** [a || b] for a number [a] *)
Definition num_or_else (a b : number) : number := if num_truthy a then a else b.

(** [a || b] for a string [a] *)
Definition str_or_else (a b : string) : string :=
  if String.eqb a "" then b else a.

(** ** Strings

    Strings are sequences of ASCII characters.  The white space removed by
    [trim] is tab, line feed, vertical tab, form feed, carriage return and
    space; [toUpperCase] maps [a]..[z] to [A]..[Z]. *)
Definition isWhiteSpace (c : ascii) : bool :=
  let n := nat_of_ascii c in
  ((9 <=? n) && (n <=? 13)) || (n =? 32).

Fixpoint trimStart (s : string) : string :=
  match s with
  | EmptyString => EmptyString
  | String c s' => if isWhiteSpace c then trimStart s' else s
  end.

Fixpoint trimEnd (s : string) : string :=
  match s with
  | EmptyString => EmptyString
  | String c s' =>
      match trimEnd s' with
      | EmptyString => if isWhiteSpace c then EmptyString else String c EmptyString
      | t => String c t
      end
  end.

Definition trim (s : string) : string := trimEnd (trimStart s).

Definition isLower (c : ascii) : bool :=
  let n := nat_of_ascii c in (97 <=? n) && (n <=? 122).

Definition upper_char (c : ascii) : ascii :=
  if isLower c then ascii_of_nat (nat_of_ascii c - 32) else c.

Fixpoint toUpperCase (s : string) : string :=
  match s with
  | EmptyString => EmptyString
  | String c s' => String (upper_char c) (toUpperCase s')
  end.

Fixpoint all_chars (p : ascii → bool) (s : string) : bool :=
  match s with
  | EmptyString => true
  | String c s' => p c && all_chars p s'
  end.

(** First and last character of a string, when it has one. *)
Definition first_char (s : string) : option ascii :=
  match s with
  | EmptyString => None
  | String c _ => Some c
  end.

Fixpoint last_char (s : string) : option ascii :=
  match s with
  | EmptyString => None
  | String c EmptyString => Some c
  | String _ s' => last_char s'
  end.

(** ** What the host environment provides

    [Number::toString], [Date.prototype.toString] and the [Date]
    constructor are left to the host: the results below hold for every
    host. *)
Class Host := {
  Number_toString : number → string;
  Date_toString : Date → string;
  new_Date : value → Date
}.

(** [String(value)] *)
Definition ToString `{Host} (v : value) : string :=
  match v with
  | VUndefined => "undefined"
  | VNull => "null"
  | VBool true => "true"
  | VBool false => "false"
  | VNum n => Number_toString n
  | VStr s => s
  | VDate d => Date_toString d
  end.

(** ** [parseFloat]

    The longest prefix of the trimmed text that is a decimal literal:
    sign, [Infinity] or digits with an optional fraction and exponent. *)
Definition digit_of (c : ascii) : option Z :=
  let n := nat_of_ascii c in
  if (48 <=? n) && (n <=? 57) then Some (Z.of_nat (n - 48)) else None.

(** Reads decimal digits: accumulated value, digits read, remaining text. *)
Fixpoint read_digits (s : string) (acc : Z) (count : nat) : Z * nat * string :=
  match s with
  | EmptyString => (acc, count, s)
  | String c s' =>
      match digit_of c with
      | Some d => read_digits s' (10 * acc + d)%Z (S count)
      | None => (acc, count, s)
      end
  end.

(** [m * 10 ^ k] as a rational. *)
Definition scale10 (m k : Z) : Q :=
  if (0 <=? k)%Z then inject_Z (m * 10 ^ k)
  else Qmake m (Z.to_pos (10 ^ (- k))).

(** The exponent part [e], [e+] or [e-] followed by digits; [0] when the
    text has no complete exponent part. *)
Definition read_exponent (s : string) : Z :=
  match s with
  | String c s' =>
      if (Ascii.eqb c "e" || Ascii.eqb c "E")%char then
        let '(neg, s'') :=
          match s' with
          | String "-"%char t => (true, t)
          | String "+"%char t => (false, t)
          | _ => (false, s')
          end in
        let '(ex, n, _) := read_digits s'' 0%Z 0 in
        if n =? 0 then 0%Z else if neg then (- ex)%Z else ex
      else 0%Z
  | EmptyString => 0%Z
  end.

Definition parse_unsigned (s : string) : option Q :=
  let '(ip, ni, s1) := read_digits s 0%Z 0 in
  let '(m, nf, s2) :=
    match s1 with
    | String "."%char t => read_digits t ip 0
    | _ => (ip, 0, s1)
    end in
  if (ni + nf =? 0) then None
  else Some (scale10 m (read_exponent s2 - Z.of_nat nf)).

Definition parseFloat_string (s : string) : number :=
  let t := trimStart s in
  let '(neg, u) :=
    match t with
    | String "-"%char u => (true, u)
    | String "+"%char u => (false, u)
    | _ => (false, t)
    end in
  if String.prefix "Infinity" u then Infinity neg
  else match parse_unsigned u with
       | Some q => Fin (if neg then - q else q)%Q
       | None => NaN
       end.

(** [parseFloat(value)] parses [String(value)].  A number prints to a
    literal that reads back as itself; [undefined], [null], booleans and
    dates print to text that does not start a literal. *)
Definition parseFloat (v : value) : number :=
  match v with
  | VNum n => n
  | VStr s => parseFloat_string s
  | _ => NaN
  end.

(** ** [Array.prototype.sort]

    The sort is stable.  [gt a b] is the sign test [compareFn(a, b) > 0]:
    [b] has to come before [a].  Elements are inserted from the right, each
    in front of the first element it does not have to follow; for a
    comparator that is a consistent order this is the stable sort. *)
Section Sort.
Context {A : Type} (gt : A → A → bool).

Fixpoint sort_insert (x : A) (l : list A) : list A :=
  match l with
  | [] => [x]
  | y :: l' => if gt x y then y :: sort_insert x l' else x :: l
  end.

Definition sort (l : list A) : list A := foldr sort_insert [] l.

End Sort.

(** The comparator [(a, b) => key(b) - key(a)], which sorts by descending
    key, and the order it produces. *)
Definition desc {A} (key : A → Q) (a b : A) : bool :=
  negb (Qle_bool (key b - key a) 0).

Definition desc_order {A} (key : A → Q) (a b : A) : Prop :=
  (key b <= key a)%Q.

End Js.

(* ===================================================================== *)
(** * The SheetJS workbook interface *)
(* ===================================================================== *)

Module XLSX.

(** A decoded cell address: zero-based column [c] and row [r]. *)
Record cell_address := { c : Z; r : Z }.

(** A decoded range: start cell [s], end cell [e]. *)
Record range := { s : cell_address; e : cell_address }.

(** A worksheet, seen through the two calls the code makes on it:
    [ref] is [XLSX.utils.decode_range(sheet['!ref'])], absent when the
    sheet has no ['!ref'] (a sheet without any cell); [aoa] is the array
    of row arrays of [XLSX.utils.sheet_to_json(sheet, {header: 1})]. *)
Record WorkSheet := {
  ref : option range;
  aoa : list (list Js.value)
}.

(** A workbook: the ordered [SheetNames] and the [Sheets] dictionary. *)
Record WorkBook := {
  SheetNames : list string;
  Sheets : gmap string WorkSheet
}.

(** [XLSX.utils.decode_col]: ["A"] is column 0, ["Z"] 25, ["AA"] 26. *)
Fixpoint decode_col_from (d : Z) (colstr : string) : Z :=
  match colstr with
  | EmptyString => d
  | String ch rest =>
      decode_col_from (26 * d + Z.of_nat (nat_of_ascii ch) - 64) rest
  end.

Definition decode_col (colstr : string) : Z := decode_col_from 0 colstr - 1.

(** [XLSX.utils.sheet_to_json(sheet, {header: 1})]; the empty array for a
    missing sheet and for a sheet without ['!ref']. *)
Definition sheet_to_json (sheet : option WorkSheet) : list (list Js.value) :=
  match sheet with
  | Some sh => match ref sh with Some _ => aoa sh | None => [] end
  | None => []
  end.

(** [SheetNames[i]] used as a property key or inside a template literal:
    past the end of the array the value is [undefined], which both uses
    turn into the text ["undefined"]. *)
Definition name_at (names : list string) (i : nat) : string :=
  default "undefined" (names !! i).

(** Every listed sheet has its entry in [Sheets], as in each workbook
    returned by [XLSX.read]. *)
Definition well_formed (wb : WorkBook) : Prop :=
  ∀ name, name ∈ SheetNames wb → is_Some (Sheets wb !! name).

End XLSX.

(* ===================================================================== *)
(** * class ExcelProcessor *)
(* ===================================================================== *)

Module ExcelProcessor.
Import Js.

(** [getSettings()]: the text of the five settings inputs; an input left
    blank reads as the empty string. *)
Record Settings := {
  outputSheetName : string;
  rawSheet1Name : string;
  rawSheet2Name : string;
  rawSheet3Name : string;
  dealColumnName : string
}.

(** The exceptions of [validateFile].  The first three are the [Error]s
    the code throws, named by their kind; [TypeError] is what
    [decode_range] raises on a sheet without ['!ref']. *)
Inductive Error :=
| MissingSheet (n : nat) (name : string)
| MissingColumn (col : string) (sheetName : string)
| InsufficientRows
| TypeError.

Definition quote : string := String (ascii_of_nat 34) EmptyString.

(** [error.message] *)
Definition message (err : Error) : string :=
  match err with
  | MissingSheet n name =>
      "Raw Sheet " +:+ pretty n +:+ " " +:+ quote +:+ name +:+ quote
        +:+ " not found"
  | MissingColumn col sheetName =>
      "Required column " +:+ col +:+ " not found in sheet " +:+ sheetName
  | InsufficientRows => "Raw Sheet 1 must have at least one data row"
  | TypeError => "Cannot read properties of undefined"
  end.

(** Code that may throw: the exception or the value. *)
Definition result : Type → Type := sum Error.

#[global] Instance result_ret : MRet result := λ A x, inr x.
#[global] Instance result_bind : MBind result :=
  λ A B f m, match m with inl err => inl err | inr x => f x end.

Definition throw {A} (err : Error) : result A := inl err.

(** [if (cond) throw err;] *)
Definition throw_if (cond : bool) (err : Error) : result unit :=
  if cond then throw err else mret ().

Definition fails {A} (m : result A) : Prop := ∃ err, m = inl err.

(** The mandatory columns of the three raw sheets. *)
Definition requiredColumns1 : list string :=
  ["B"; "AA"; "M"; "L"; "Q"; "AB"; "AD"; "AL"; "X"; "BZ"].
Definition requiredColumns2 : list string := ["N"; "AQ"; "AV"].
Definition requiredColumns3 : list string := ["M"; "BR"; "CN"].

(** The loop of [validateSheetColumns] over the required columns, for a
    range ending in column [last]. *)
Fixpoint for_requiredColumns (last : Z) (sheetName : string)
    (requiredColumns : list string) : result unit :=
  match requiredColumns with
  | [] => mret ()
  | col :: rest =>
      let colIndex := XLSX.decode_col col in
      throw_if (last <? colIndex)%Z (MissingColumn col sheetName) ;;
      for_requiredColumns last sheetName rest
  end.

Definition validateSheetColumns (workbook : XLSX.WorkBook)
    (sheetName : string) (requiredColumns : list string) : result unit :=
  match XLSX.Sheets workbook !! sheetName with
  | None => throw TypeError
  | Some sheet =>
      match XLSX.ref sheet with
      | None => throw TypeError
      | Some range =>
          for_requiredColumns (XLSX.c (XLSX.e range)) sheetName requiredColumns
      end
  end.

(** [!this.workbook.Sheets[name]], on the entries of the workbook itself:
    a name that [Sheets] only inherits from [Object.prototype] (such as
    ["constructor"]) is a missing sheet here, where the code goes on to
    fail in [decode_range]. *)
Definition no_sheet (workbook : XLSX.WorkBook) (name : string) : bool :=
  bool_decide (XLSX.Sheets workbook !! name = None).

Definition validateFile (workbook : XLSX.WorkBook) (settings : Settings)
    : result unit :=
  let sheetNames := XLSX.SheetNames workbook in
  let rawSheet1 := str_or_else (rawSheet1Name settings) (XLSX.name_at sheetNames 0) in
  let rawSheet2 := str_or_else (rawSheet2Name settings) (XLSX.name_at sheetNames 1) in
  let rawSheet3 := str_or_else (rawSheet3Name settings) (XLSX.name_at sheetNames 2) in
  throw_if (no_sheet workbook rawSheet1) (MissingSheet 1 rawSheet1) ;;
  throw_if (no_sheet workbook rawSheet2) (MissingSheet 2 rawSheet2) ;;
  throw_if (no_sheet workbook rawSheet3) (MissingSheet 3 rawSheet3) ;;
  validateSheetColumns workbook rawSheet1 requiredColumns1 ;;
  validateSheetColumns workbook rawSheet2 requiredColumns2 ;;
  validateSheetColumns workbook rawSheet3 requiredColumns3 ;;
  let sheet1Data := XLSX.sheet_to_json (XLSX.Sheets workbook !! rawSheet1) in
  throw_if (length sheet1Data <? 2) InsufficientRows.

(** ** The conditions of the specification, stated on the workbook *)

(** The names of the three required sheets: the override when one is
    given, the sheet at that position otherwise. *)
Definition required_name (workbook : XLSX.WorkBook) (settings : Settings)
    (i : nat) : string :=
  let override :=
    match i with
    | 0 => rawSheet1Name settings
    | 1 => rawSheet2Name settings
    | _ => rawSheet3Name settings
    end in
  if decide (override = "") then XLSX.name_at (XLSX.SheetNames workbook) i
  else override.

Definition mandatory_columns (i : nat) : list string :=
  match i with
  | 0 => ["B"; "AA"; "M"; "L"; "Q"; "AB"; "AD"; "AL"; "X"; "BZ"]
  | 1 => ["N"; "AQ"; "AV"]
  | _ => ["M"; "BR"; "CN"]
  end.

(** One of the three required sheets is absent from the workbook. *)
Definition sheet_absent (workbook : XLSX.WorkBook) (settings : Settings) : Prop :=
  ∃ i, i < 3 ∧ XLSX.Sheets workbook !! required_name workbook settings i = None.

(** Column [col] lies beyond the populated column range of [sheet]: the
    sheet has no populated range at all, or the range ends before it. *)
Definition beyond_range (sheet : XLSX.WorkSheet) (col : string) : Prop :=
  match XLSX.ref sheet with
  | None => True
  | Some range => (XLSX.c (XLSX.e range) < XLSX.decode_col col)%Z
  end.

(** A mandatory column of a required sheet lies beyond its range. *)
Definition column_absent (workbook : XLSX.WorkBook) (settings : Settings) : Prop :=
  ∃ i sheet col,
    i < 3 ∧
    XLSX.Sheets workbook !! required_name workbook settings i = Some sheet ∧
    col ∈ mandatory_columns i ∧
    beyond_range sheet col.

(** The primary sheet has fewer than two rows. *)
Definition too_few_rows (workbook : XLSX.WorkBook) (settings : Settings) : Prop :=
  ∃ sheet,
    XLSX.Sheets workbook !! required_name workbook settings 0 = Some sheet ∧
    length (XLSX.sheet_to_json (Some sheet)) < 2.

(** No sheet-name override is given. *)
Definition no_override (settings : Settings) : Prop :=
  rawSheet1Name settings = "" ∧ rawSheet2Name settings = "" ∧
  rawSheet3Name settings = "".

(** An explicit override names a sheet that the workbook does not have. *)
Definition override_absent (workbook : XLSX.WorkBook) (settings : Settings) : Prop :=
  ∃ name,
    name ∈ [rawSheet1Name settings; rawSheet2Name settings; rawSheet3Name settings] ∧
    name ≠ "" ∧ XLSX.Sheets workbook !! name = None.

(** ** [normalize] and [parseDate] *)

Definition normalize `{Host} (value : Js.value) : string :=
  if truthy value then toUpperCase (trim (ToString value)) else "".

(** [isNaN(date.getTime())] *)
Definition invalid_date (d : Date) : bool :=
  match getTime d with NaN => true | _ => false end.

(** [null] is [None]. *)
Definition parseDate `{Host} (value : Js.value) : option Date :=
  if negb (truthy value) then None
  else match value with
       | VNum n =>
           Some (new_Date (VNum (num_mul (num_mul (num_sub n (Fin 25569))
                                                  (Fin 86400)) (Fin 1000))))
       | _ =>
           let date := new_Date value in
           if invalid_date date then None else Some date
       end.

(** ** Dashboard metrics *)

(** An element of [this.rawRecords]. *)
Record RawRecord := {
  deal : string;
  product : string;
  volume : number;
  date : option Date;
  location : string
}.

Record Metrics := {
  totalDeals : nat;
  totalVolume : number;
  productDistribution : gmap string number
}.

(** The fields of the processor that the metrics code reads and writes.
    [rawRecords] and [datePreset] are [None] while they are undefined. *)
Record Processor := {
  workbook : XLSX.WorkBook;
  rawRecords : option (list RawRecord);
  datePreset : option string;
  filteredRecords : list RawRecord;
  summaryMetrics : Metrics
}.

(** [row[i]]: [undefined] past the end of the row. *)
Definition cell (row : list Js.value) (i : nat) : Js.value :=
  default VUndefined (row !! i).

Definition getQuarter (date : Date) : number :=
  num_add (Math_floor (num_div_pos (getMonth date) 3)) (Fin 1).

(** [r.date && p(r.date)] as a filter condition *)
Definition date_and (d : option Date) (p : Date → bool) : bool :=
  match d with
  | None => false
  | Some d => p d
  end.

(** [!preset]: undefined, null or the empty string. *)
Definition no_preset (preset : option string) : bool :=
  match preset with
  | None => true
  | Some s => String.eqb s ""
  end.

(** [now] is the value of [new Date()] at the call. *)
Definition getRecordsByPreset (now : Date) (this : Processor)
    (preset : option string) : list RawRecord :=
  let all := default [] (rawRecords this) in
  if no_preset preset || bool_decide (preset = Some "ALL") then all else
  let y := getFullYear now in
  let m := getMonth now in
  if bool_decide (preset = Some "MTD") then
    filter (λ r, date_and (date r) (λ d,
      num_strict_eq (getFullYear d) y && num_strict_eq (getMonth d) m)) all
  else if bool_decide (preset = Some "YTD") then
    filter (λ r, date_and (date r) (λ d, num_strict_eq (getFullYear d) y)) all
  else if bool_decide (preset = Some "QTD") then
    let q := getQuarter now in
    filter (λ r, date_and (date r) (λ d,
      num_strict_eq (getFullYear d) y && num_strict_eq (getQuarter d) q)) all
  else all.

(** The accumulators of the [forEach] of [refreshMetricsFromRecords]. *)
Record Totals := {
  uniqueDeals : gset string;
  sumVolume : number;
  distribution : gmap string number
}.

Definition add_record (acc : Totals) (r : RawRecord) : Totals :=
  {| uniqueDeals :=
       if String.eqb (deal r) "" then uniqueDeals acc
       else {[ deal r ]} ∪ uniqueDeals acc;
     sumVolume := num_add (sumVolume acc) (volume r);
     distribution :=
       <[ product r :=
            num_add (match distribution acc !! product r with
                     | Some n => num_or_else n (Fin 0)
                     | None => Fin 0
                     end)
                    (volume r) ]> (distribution acc) |}.

Definition refreshMetricsFromRecords (now : Date) (this : Processor) : Processor :=
  let records := getRecordsByPreset now this (datePreset this) in
  let acc := foldl add_record
               {| uniqueDeals := ∅; sumVolume := Fin 0; distribution := ∅ |}
               records in
  {| workbook := workbook this;
     rawRecords := rawRecords this;
     datePreset := datePreset this;
     filteredRecords := records;
     summaryMetrics :=
       {| totalDeals := size (uniqueDeals acc);
          totalVolume := sumVolume acc;
          productDistribution := distribution acc |} |}.

(** The object built for one data row. *)
Definition record_of_row `{Host} (row : list Js.value) : RawRecord :=
  {| deal := normalize (or_else (cell row 5) (VStr ""));
     product := normalize (or_else (cell row 12) (VStr ""));
     volume := num_or_else (parseFloat (cell row 16)) (Fin 0);
     date := parseDate (cell row 38);
     location := normalize (or_else (cell row 29) (VStr "")) |}.

(** [r.product && r.volume] *)
Definition has_product_and_volume (r : RawRecord) : bool :=
  negb (String.eqb (product r) "") && num_truthy (volume r).

Definition calculateDashboardMetrics `{Host} (now : Date) (settings : Settings)
    (this : Processor) : Processor :=
  let rawSheet1Name :=
    str_or_else (rawSheet1Name settings)
                (XLSX.name_at (XLSX.SheetNames (workbook this)) 0) in
  let rawSheet1 := XLSX.Sheets (workbook this) !! rawSheet1Name in
  let rawData := XLSX.sheet_to_json rawSheet1 in
  let dataRows := filter (λ row, 0 <? length row) (drop 1 rawData) in
  let records := filter has_product_and_volume (map record_of_row dataRows) in
  refreshMetricsFromRecords now
    {| workbook := workbook this;
       rawRecords := Some records;
       datePreset := if no_preset (datePreset this) then Some "ALL"
                     else datePreset this;
       filteredRecords := filteredRecords this;
       summaryMetrics := summaryMetrics this |}.

(** ** The rows that count, stated on the sheet *)

(** The product (column M) and the quantity (column Q) of a data row. *)
Definition row_product `{Host} (row : list Js.value) : string :=
  normalize (or_else (cell row 12) (VStr "")).

Definition row_quantity (row : list Js.value) : number :=
  parseFloat (cell row 16).

(** A data row counts when it is not an empty array, its product is not
    empty and its quantity is a number other than [0] and [NaN]. *)
Definition included `{Host} (row : list Js.value) : bool :=
  (0 <? length row) && negb (String.eqb (row_product row) "")
  && num_truthy (row_quantity row).

(** The data rows of the primary sheet: all rows but the first. *)
Definition data_rows (settings : Settings) (workbook : XLSX.WorkBook)
    : list (list Js.value) :=
  drop 1 (XLSX.sheet_to_json
            (XLSX.Sheets workbook !! required_name workbook settings 0)).

(** The date preset shows all records. *)
Definition shows_all (preset : option string) : Prop :=
  preset = None ∨ preset = Some "" ∨ preset = Some "ALL".

(** The distinct non-empty deal numbers of a list of records. *)
Definition deals_of (records : list RawRecord) : gset string :=
  list_to_set (filter (λ d, d ≠ "") (map deal records)).

End ExcelProcessor.

(* ===================================================================== *)
(** * class DealComparisonDashboard *)
(* ===================================================================== *)

Module DealComparisonDashboard.
Import Js.

(** The reconciliation result arrives as JSON.  A numeric field is a
    rational, or [None] when it is [null]; [num] is its value as an
    operand of [-] and of [x || 0]. *)
Definition num (x : option Q) : Q := default 0%Q x.

(** An element of [deal.costs]. *)
Module Cost.
Record t := {
  cost_type : string;
  formatted : option Q;
  comparison : option Q;
  difference : option Q;
  status : string
}.
End Cost.

(** An element of [analysisData.deals]; [costs] is [None] when absent. *)
Module Deal.
Record t := {
  deal_id : string;
  formatted_quantity : option Q;
  comparison_quantity : option Q;
  difference : option Q;
  costs : option (list Cost.t)
}.
End Deal.

Record AnalysisData := {
  deals : option (list Deal.t);
  token : option string
}.

(** [this.filters] *)
Record Filters := {
  filter_deals : gset string;
  filter_costTypes : gset string
}.

(** [{ ...deal, costs: costs }] *)
Definition with_costs (deal : Deal.t) (costs : list Cost.t) : Deal.t :=
  {| Deal.deal_id := Deal.deal_id deal;
     Deal.formatted_quantity := Deal.formatted_quantity deal;
     Deal.comparison_quantity := Deal.comparison_quantity deal;
     Deal.difference := Deal.difference deal;
     Deal.costs := Some costs |}.

(** [(deal.difference || 0) > 0] *)
Definition positive_difference (deal : Deal.t) : bool :=
  negb (Qle_bool (num (Deal.difference deal)) 0).

Definition getFilteredDeals (analysisData : option AnalysisData)
    (filters : Filters) : list Deal.t :=
  match analysisData ≫= deals with
  | None => []
  | Some all =>
      let deals := map (λ deal, with_costs deal (default [] (Deal.costs deal))) all in
      let positiveDeals := filter positive_difference deals in
      let filtered :=
        if bool_decide (size (filter_deals filters) ≠ 0) then
          filter (λ deal, Deal.deal_id deal ∈ filter_deals filters) positiveDeals
        else positiveDeals in
      if bool_decide (size (filter_costTypes filters) ≠ 0) then
        filter (λ deal, 0 <? length (default [] (Deal.costs deal)))
          (map (λ deal,
                  with_costs deal
                    (filter (λ cost, Cost.cost_type cost ∈ filter_costTypes filters)
                            (default [] (Deal.costs deal))))
               filtered)
      else filtered
  end.

(** [(a, b) => b.difference - a.difference] is positive. *)
Definition by_difference_desc (a b : Deal.t) : bool :=
  negb (Qle_bool (num (Deal.difference b) - num (Deal.difference a)) 0).

(** A deal of the filtered list stems from a deal of the result, which
    has the same id and the same, positive, difference. *)
Definition selected_from (all : list Deal.t) (deal : Deal.t) : Prop :=
  (0 < num (Deal.difference deal))%Q ∧
  ∃ deal0, deal0 ∈ all ∧
    Deal.deal_id deal = Deal.deal_id deal0 ∧
    Deal.difference deal = Deal.difference deal0.

(** [topDeals] of [renderVarianceChart]. *)
Definition topDeals (filteredDeals : list Deal.t) : list Deal.t :=
  take 20 (Js.sort by_difference_desc filteredDeals).

(** The series handed to the bar chart. *)
Record VarianceChart := {
  labels : list string;
  formatted_series : list Q;
  comparison_series : list Q;
  difference_series : list Q
}.

(** [None] is the empty state shown when no deal qualifies. *)
Definition renderVarianceChart (filteredDeals : list Deal.t) : option VarianceChart :=
  if bool_decide (length filteredDeals = 0) then None else
  let top := topDeals filteredDeals in
  Some {| labels := map Deal.deal_id top;
          formatted_series := map (λ deal, num (Deal.formatted_quantity deal)) top;
          comparison_series := map (λ deal, num (Deal.comparison_quantity deal)) top;
          difference_series :=
            map (λ deal, Qmax (num (Deal.difference deal)) 0) top |}.

(** An entry of the registry of [aggregateUnregistered], and of its
    result; the [Set] of deal ids is kept in insertion order. *)
Record Unregistered := {
  u_cost_type : string;
  impact : Q;
  deal_count : nat;
  u_deals : list string
}.

(** [Set.prototype.add] *)
Definition set_add (x : string) (set : list string) : list string :=
  if bool_decide (x ∈ set) then set else set ++ [x].

(** [Map.prototype.get] and [Map.prototype.set] on a map kept as the list
    of its entries in insertion order. *)
Fixpoint map_get {V} (key : string) (m : list (string * V)) : option V :=
  match m with
  | [] => None
  | (k, v) :: m' => if String.eqb k key then Some v else map_get key m'
  end.

Fixpoint map_set {V} (key : string) (v : V) (m : list (string * V))
    : list (string * V) :=
  match m with
  | [] => [(key, v)]
  | (k, v') :: m' =>
      if String.eqb k key then (k, v) :: m' else (k, v') :: map_set key v m'
  end.

(** The body of the inner [forEach]. *)
Definition register_cost (deal_id : string) (registry : list (string * Unregistered))
    (cost : Cost.t) : list (string * Unregistered) :=
  if String.eqb (Cost.status cost) "Unregistered" then
    let current :=
      default {| u_cost_type := Cost.cost_type cost; impact := 0%Q;
                 deal_count := 0; u_deals := [] |}
              (map_get (Cost.cost_type cost) registry) in
    let deals := set_add deal_id (u_deals current) in
    map_set (Cost.cost_type cost)
      {| u_cost_type := u_cost_type current;
         impact := (impact current + Qabs (num (Cost.difference cost)))%Q;
         deal_count := length deals;
         u_deals := deals |}
      registry
  else registry.

(** The body of the outer [forEach]. *)
Definition register_deal (registry : list (string * Unregistered)) (deal : Deal.t)
    : list (string * Unregistered) :=
  foldl (register_cost (Deal.deal_id deal)) registry (default [] (Deal.costs deal)).

(** [(a, b) => b.impact - a.impact] is positive. *)
Definition by_impact_desc (a b : Unregistered) : bool :=
  negb (Qle_bool (impact b - impact a) 0).

Definition aggregateUnregistered (deals : list Deal.t) : list Unregistered :=
  let registry := foldl register_deal [] deals in
  Js.sort by_impact_desc (map snd registry).

(** ** The statement of the aggregation, on the list of deals *)

(** The Unregistered comparisons of the deals, each with the id of its
    deal, in the order the loops visit them. *)
Definition unregistered_costs (deals : list Deal.t) : list (string * Cost.t) :=
  deal ← deals;
  cost ← filter (λ cost, Cost.status cost = "Unregistered")
                (default [] (Deal.costs deal));
  [(Deal.deal_id deal, cost)].

(** Those of one cost type. *)
Definition unregistered_of (cost_type : string) (deals : list Deal.t)
    : list (string * Cost.t) :=
  filter (λ dc, Cost.cost_type dc.2 = cost_type) (unregistered_costs deals).

(** The sum of the absolute differences of a list of comparisons. *)
Definition total_impact (costs : list (string * Cost.t)) : Q :=
  foldl (λ acc dc, (acc + Qabs (num (Cost.difference dc.2)))%Q) 0%Q costs.

(** The distinct deal ids of a list of comparisons, in order of first
    occurrence. *)
Definition distinct_ids (costs : list (string * Cost.t)) : list string :=
  foldl (λ set dc, set_add dc.1 set) [] costs.

(** The entry that the comparisons [costs] of one cost type amount to. *)
Definition entry_of (cost_type : string) (costs : list (string * Cost.t))
    : Unregistered :=
  {| u_cost_type := cost_type;
     impact := total_impact costs;
     deal_count := length (distinct_ids costs);
     u_deals := distinct_ids costs |}.

(** One step of the two nested loops, on a comparison and its deal id. *)
Definition register_pair (registry : list (string * Unregistered))
    (dc : string * Cost.t) : list (string * Unregistered) :=
  register_cost dc.1 registry dc.2.

End DealComparisonDashboard.

(* ===================================================================== *)
(** * A host and a workbook to run the code on *)
(* ===================================================================== *)

Module Fixture.
Import Js.

(** ** A host

    A small host that stands in for the browser in the examples; the
    theorems hold for every host.  Numbers print as decimals without
    exponent, which is how ECMAScript prints them between 1e-6 and 1e21;
    dates are read and printed in the form [YYYY-MM-DD], in universal
    time. *)
Definition digit_char (d : Z) : ascii := ascii_of_nat (48 + Z.to_nat d).

Fixpoint frac_digits (fuel : nat) (n d : Z) : string :=
  match fuel with
  | 0 => ""
  | S fuel' =>
      if (n =? 0)%Z then ""
      else String (digit_char (10 * n / d)) (frac_digits fuel' ((10 * n) mod d) d)
  end.

Definition number_toString (n : number) : string :=
  match n with
  | NaN => "NaN"
  | Infinity false => "Infinity"
  | Infinity true => "-Infinity"
  | Fin q =>
      let a := Z.abs (Qnum q) in
      let d := Zpos (Qden q) in
      (if (Qnum q <? 0)%Z then "-" else "") +:+ pretty (a / d)%Z +:+
      (if (a mod d =? 0)%Z then "" else "." +:+ frac_digits 20 (a mod d) d)
  end.

(** Days since 1970-01-01 of a civil date, and back. *)
Definition days_from_civil (y m d : Z) : Z :=
  let y := if (m <=? 2)%Z then (y - 1)%Z else y in
  let era := (y / 400)%Z in
  let yoe := (y - era * 400)%Z in
  let doy := ((153 * (if (2 <? m)%Z then m - 3 else m + 9) + 2) / 5 + d - 1)%Z in
  let doe := (yoe * 365 + yoe / 4 - yoe / 100 + doy)%Z in
  (era * 146097 + doe - 719468)%Z.

Definition civil_from_days (z : Z) : Z * Z * Z :=
  let z := (z + 719468)%Z in
  let era := (z / 146097)%Z in
  let doe := (z - era * 146097)%Z in
  let yoe := ((doe - doe / 1460 + doe / 36524 - doe / 146096) / 365)%Z in
  let doy := (doe - (365 * yoe + yoe / 4 - yoe / 100))%Z in
  let mp := ((5 * doy + 2) / 153)%Z in
  let d := (doy - (153 * mp + 2) / 5 + 1)%Z in
  let m := if (mp <? 10)%Z then (mp + 3)%Z else (mp - 9)%Z in
  let y := (yoe + era * 400)%Z in
  (if (m <=? 2)%Z then (y + 1)%Z else y, m, d).

Definition invalid : Date := {| getTime := NaN; getFullYear := NaN; getMonth := NaN |}.

(** The date at [ms] milliseconds since the epoch. *)
Definition date_of_ms (ms : Z) : Date :=
  let '(y, m, _) := civil_from_days (ms / 86400000) in
  {| getTime := Fin (inject_Z ms);
     getFullYear := Fin (inject_Z y);
     getMonth := Fin (inject_Z (m - 1)) |}.

Definition parse_iso_date (s : string) : option Z :=
  let '(y, ny, s1) := read_digits s 0%Z 0 in
  match s1 with
  | String "-"%char s2 =>
      let '(m, nm, s3) := read_digits s2 0%Z 0 in
      match s3 with
      | String "-"%char s4 =>
          let '(d, nd, s5) := read_digits s4 0%Z 0 in
          if (ny =? 4) && (nm =? 2) && (nd =? 2) && String.eqb s5 ""
             && (1 <=? m)%Z && (m <=? 12)%Z && (1 <=? d)%Z && (d <=? 31)%Z
          then Some (days_from_civil y m d * 86400000)%Z
          else None
      | _ => None
      end
  | _ => None
  end.

Definition date_of (v : value) : Date :=
  match v with
  | VDate d => d
  | VNum (Fin q) => date_of_ms (if (Qnum q <? 0)%Z then Qceiling q else Qfloor q)
  | VStr s => match parse_iso_date s with Some ms => date_of_ms ms | None => invalid end
  | VNull => date_of_ms 0
  | VBool b => date_of_ms (if b then 1 else 0)
  | _ => invalid
  end.

Definition date_toString (d : Date) : string :=
  match getTime d with
  | Fin q =>
      let '(y, m, dd) := civil_from_days (Qfloor q / 86400000) in
      let two (n : Z) := (if (n <? 10)%Z then "0" else "") +:+ pretty n in
      pretty y +:+ "-" +:+ two m +:+ "-" +:+ two dd
  | _ => "Invalid Date"
  end.

#[export] Instance host : Host := {|
  Number_toString := number_toString;
  Date_toString := date_toString;
  new_Date := date_of
|}.

(** ** The workbook of [create_test_excel.js] *)

(** A row of [width] empty strings with the given cells filled in. *)
Definition row_with (width : nat) (cells : list (nat * value)) : list value :=
  foldr (λ '(i, v) row, <[ i := v ]> row) (replicate width (VStr "")) cells.

(** The title row, whose texts the code never reads. *)
Definition header (width : nat) : list value := replicate width (VStr "H").

Definition deal_row (deal hedge product qty vessel inco location risk date : string)
    (whb : string) : list value :=
  row_with 78
    [(5, VStr deal); (11, VStr hedge); (12, VStr product); (16, VStr qty);
     (26, VStr vessel); (27, VStr inco); (29, VStr location); (37, VStr risk);
     (38, VStr date); (77, VStr whb)].

Definition cost_row (deal cost_type : string) (amount : Z) : list value :=
  row_with 49
    [(13, VStr deal); (42, VStr cost_type); (48, VNum (Fin (inject_Z amount)))].

Definition hedge_row (hedge comment info : string) : list value :=
  row_with 100 [(12, VStr hedge); (69, VStr comment); (91, VStr info)].

(** The range of a sheet built from [rows] rows of [cols] columns. *)
Definition range_of (rows cols : Z) : XLSX.range :=
  {| XLSX.s := {| XLSX.c := 0; XLSX.r := 0 |};
     XLSX.e := {| XLSX.c := cols - 1; XLSX.r := rows - 1 |} |}.

Definition sheet1 : XLSX.WorkSheet :=
  {| XLSX.ref := Some (range_of 4 78);
     XLSX.aoa :=
       [ header 78;
         deal_row "DEAL001" "HEDGE001" "PROD001" "100" "VESSEL1" "FOB"
                  "SINGAPORE" "OIL" "2024-01-15" "WHB";
         deal_row "DEAL002" "HEDGE002" "MIDLANDS" "200" "VESSEL2" "CIF"
                  "ROTTERDAM" "GAS" "2024-01-20" "WHB";
         deal_row "DEAL003" "HEDGE003" "PROD003" "150" "VESSEL3" "FOB"
                  "HOUSTON" "CRUDE" "2024-02-10" "" ] |}.

Definition sheet2 : XLSX.WorkSheet :=
  {| XLSX.ref := Some (range_of 10 49);
     XLSX.aoa :=
       [ header 49;
         cost_row "DEAL001" "BOT" 1500; cost_row "DEAL001" "BLC" 800;
         cost_row "DEAL001" "CIN" 300; cost_row "DEAL001" "INS" 450;
         cost_row "DEAL001" "INQ" 200; cost_row "DEAL002" "CLI" 400;
         cost_row "DEAL002" "INA" 350; cost_row "DEAL003" "BOT" 2000;
         cost_row "DEAL003" "CIN" 250 ] |}.

Definition sheet3 : XLSX.WorkSheet :=
  {| XLSX.ref := Some (range_of 4 100);
     XLSX.aoa :=
       [ header 100;
         hedge_row "HEDGE001" "VSA Comment 1" "Additional Info 1";
         hedge_row "HEDGE002" "VSA Comment 2" "Additional Info 2";
         hedge_row "HEDGE003" "VSA Comment 3" "Additional Info 3" ] |}.

Definition test_data : XLSX.WorkBook :=
  {| XLSX.SheetNames :=
       ["position_list1039861856"; "RPT_ALL_COSTS_V2_GVA"; "RPT_POSITION_LIST"];
     XLSX.Sheets :=
       <[ "position_list1039861856" := sheet1 ]>
         (<[ "RPT_ALL_COSTS_V2_GVA" := sheet2 ]>
            (<[ "RPT_POSITION_LIST" := sheet3 ]> ∅)) |}.

(** The same workbook without its third sheet, and with a primary sheet
    that ends one column early, in column BY. *)
Definition two_sheets : XLSX.WorkBook :=
  {| XLSX.SheetNames := ["position_list1039861856"; "RPT_ALL_COSTS_V2_GVA"];
     XLSX.Sheets := delete "RPT_POSITION_LIST" (XLSX.Sheets test_data) |}.

Definition narrow_sheet : XLSX.WorkBook :=
  {| XLSX.SheetNames := XLSX.SheetNames test_data;
     XLSX.Sheets :=
       <[ "position_list1039861856" :=
            {| XLSX.ref := Some (range_of 4 77); XLSX.aoa := XLSX.aoa sheet1 |} ]>
         (XLSX.Sheets test_data) |}.

(** The settings form with nothing typed into the sheet-name inputs. *)
Definition default_settings : ExcelProcessor.Settings :=
  {| ExcelProcessor.outputSheetName := "Q1-Q2-Q3-Q4-2024";
     ExcelProcessor.rawSheet1Name := "";
     ExcelProcessor.rawSheet2Name := "";
     ExcelProcessor.rawSheet3Name := "";
     ExcelProcessor.dealColumnName := "N" |}.

(** A processor that has just read [workbook]. *)
Definition loaded (workbook : XLSX.WorkBook) : ExcelProcessor.Processor :=
  {| ExcelProcessor.workbook := workbook;
     ExcelProcessor.rawRecords := None;
     ExcelProcessor.datePreset := None;
     ExcelProcessor.filteredRecords := [];
     ExcelProcessor.summaryMetrics :=
       {| ExcelProcessor.totalDeals := 0;
          ExcelProcessor.totalVolume := Fin 0;
          ExcelProcessor.productDistribution := ∅ |} |}.

(** A workbook whose primary sheet has a row of quantity zero and a row
    of negative quantity. *)
Definition zero_row : list value :=
  deal_row "DEAL004" "HEDGE004" "PROD004" "0" "VESSEL4" "FOB" "ANTWERP" "OIL"
           "2024-03-01" "".

Definition negative_row : list value :=
  deal_row "DEAL005" "HEDGE005" "PROD005" "-5" "VESSEL5" "FOB" "GENOA" "OIL"
           "2024-03-02" "".

Definition zero_and_negative : XLSX.WorkBook :=
  {| XLSX.SheetNames := XLSX.SheetNames test_data;
     XLSX.Sheets :=
       <[ "position_list1039861856" :=
            {| XLSX.ref := Some (range_of 3 78);
               XLSX.aoa := [header 78; zero_row; negative_row] |} ]>
         (XLSX.Sheets test_data) |}.

(** A row whose deal cell holds the number 0. *)
Definition zero_deal_row : list value :=
  <[ 5 := VNum (Fin 0) ]>
    (deal_row "" "HEDGE006" "PROD006" "60" "VESSEL6" "FOB" "HAMBURG" "OIL"
              "2024-03-03" "").

(** Noon of 3 March 2024, universal time. *)
Definition a_day : Date := date_of_ms 1709467200000.

(** The processor after [calculateDashboardMetrics] on that workbook. *)
Definition after_zero_and_negative : ExcelProcessor.Processor :=
  ExcelProcessor.calculateDashboardMetrics a_day default_settings
    (loaded zero_and_negative).

(** ** A reconciliation result *)

Definition a_cost (cost_type : string) (difference : Q) (status : string)
    : DealComparisonDashboard.Cost.t :=
  {| DealComparisonDashboard.Cost.cost_type := cost_type;
     DealComparisonDashboard.Cost.formatted := Some 0%Q;
     DealComparisonDashboard.Cost.comparison := Some (- difference)%Q;
     DealComparisonDashboard.Cost.difference := Some difference;
     DealComparisonDashboard.Cost.status := status |}.

Definition a_deal (deal_id : string) (formatted comparison : Q)
    (costs : list DealComparisonDashboard.Cost.t)
    : DealComparisonDashboard.Deal.t :=
  {| DealComparisonDashboard.Deal.deal_id := deal_id;
     DealComparisonDashboard.Deal.formatted_quantity := Some formatted;
     DealComparisonDashboard.Deal.comparison_quantity := Some comparison;
     DealComparisonDashboard.Deal.difference := Some (formatted - comparison)%Q;
     DealComparisonDashboard.Deal.costs := Some costs |}.

Definition analysis : DealComparisonDashboard.AnalysisData :=
  {| DealComparisonDashboard.deals :=
       Some [ a_deal "D1" 1000 800
                [a_cost "INS" (-450) "Unregistered"; a_cost "BLC" 0 "Registered"];
              a_deal "D2" 500 500 [a_cost "INS" (-30) "Unregistered"];
              a_deal "D3" 900 400
                [a_cost "INA" (-350) "Unregistered"; a_cost "CIN" 50 "Partial"];
              a_deal "D4" 100 300 [];
              a_deal "D1" 700 500 [a_cost "INS" (-10) "Unregistered"] ];
     DealComparisonDashboard.token := Some "t1" |}.

Definition no_filters : DealComparisonDashboard.Filters :=
  {| DealComparisonDashboard.filter_deals := ∅;
     DealComparisonDashboard.filter_costTypes := ∅ |}.

End Fixture.


(* ===================================================================== *)
(** * The HTTP exchange with the server, as the client code sees it *)
(* ===================================================================== *)

Module Http.

(** The body of a response: a JSON object, of which the code reads the
    [error] field ([None] when the object has none), or binary content. *)
Inductive Body :=
| Json (error : option string)
| Blob (content : list Byte.byte).

Record Response := {
  status : Z;
  body : Body
}.

(** [response.ok] *)
Definition ok (response : Response) : bool :=
  (200 <=? status response)%Z && (status response <=? 299)%Z.

(** What [downloadFile] does once the response is in: it throws an
    [Error] with a message, fails to read the body as JSON, or offers the
    body for download. *)
Inductive Outcome :=
| Throws (message : string)
| NotJson
| Downloads (content : Body).

Definition downloadFile (response : Response) : Outcome :=
  if negb (ok response) then
    match body response with
    | Json errorData =>
        Throws (Js.str_or_else (default "" errorData) "Server processing failed")
    | Blob _ => NotJson
    end
  else Downloads (body response).

(** The three assertions of [runTest] on the response to a bad upload:
    the response is not OK, its status is 400, its body has an [error]
    message. *)
Definition runTest (response : Response) : bool :=
  negb (ok response) && (status response =? 400)%Z &&
  match body response with
  | Json (Some error) => negb (String.eqb error "")
  | _ => false
  end.

End Http.

(* ===================================================================== *)
(** * The server side, modelled from the specification *)
(* ===================================================================== *)

Module Backend.
Import Js.

(** ** Error responses (specification, sections 6 and 7) *)

(** Modelled from the spec: the error kinds of the server, whose code
    ([server.py]) is not among the sources. *)
Inductive ErrorKind :=
| MissingSheet
| MissingColumn
| InsufficientRows
| InvalidFileFormat
| UnknownToken
| InternalProcessingError.

(** Modelled from the spec: the validation errors are the first four
    kinds. *)
Definition is_validation (kind : ErrorKind) : bool :=
  match kind with
  | MissingSheet | MissingColumn | InsufficientRows | InvalidFileFormat => true
  | UnknownToken | InternalProcessingError => false
  end.

(** Modelled from the spec: an error response carries the status of its
    kind and the object [{error: message}]; [status_of] is the server's
    choice of status for each kind. *)
Definition error_response (status_of : ErrorKind → Z) (kind : ErrorKind)
    (message : string) : Http.Response :=
  {| Http.status := status_of kind; Http.body := Http.Json (Some message) |}.

(** Modelled from the spec: what the specification fixes of the status
    codes: 4xx for validation errors, 400 for an invalid file (the status
    [runTest] expects), a 404 for an unknown token, 5xx for internal
    failures. *)
Definition status_as_specified (status_of : ErrorKind → Z) : Prop :=
  (∀ kind, is_validation kind = true → 400 ≤ status_of kind < 500)%Z ∧
  status_of InvalidFileFormat = 400%Z ∧
  status_of UnknownToken = 404%Z ∧
  (500 ≤ status_of InternalProcessingError < 600)%Z.

(** Modelled from the spec: a choice of status codes that meets it. *)
Definition plain_status (kind : ErrorKind) : Z :=
  match kind with
  | UnknownToken => 404
  | InternalProcessingError => 500
  | _ => 400
  end.

(** ** RuleEngine (specification, section 4.3) *)

(** Modelled from the spec: the numeric output columns E to K, the ones
    that rules may lock. *)
Inductive column := colE | colF | colG | colH | colI | colJ | colK.

#[global] Instance column_eq_dec : EqDecision column.
Proof. solve_decision. Defined.

Definition columns_E_to_K : list column :=
  [colE; colF; colG; colH; colI; colJ; colK].

(** Modelled from the spec: a row of the primary sheet (section 3). *)
Record RawDealRecord := {
  dealNumber : string;
  vessel : string;
  product : string;
  hedgeNumber : string;
  quantityBbl : Q;
  inco : string;
  contractualLocation : string;
  risk : string;
  date : string;
  isWhbCifDeal : bool
}.

(** Modelled from the spec: the entry of the hedge index (section 3). *)
Record HedgeRecord := {
  vsaComment : string;
  additionalInfo : string
}.

(** Modelled from the spec: the two lookup indexes (section 3): summed
    amounts by deal number and cost type, hedge records by hedge number. *)
Record Indexes := {
  costIndex : gmap (string * string) Q;
  hedgeIndex : gmap string HedgeRecord
}.

(** Modelled from the spec: the computed part of an output row: the
    cells E to K (blank while [None]) with their locks, the total L and
    the two hedge columns U and V. *)
Record OutputRow := {
  cells : column → option Q;
  locked : column → bool;
  total : Q;
  vsaComments : string;
  additionalInformation : string
}.

(** Modelled from the spec: the row as assembled before any rule runs. *)
Definition blank_row : OutputRow :=
  {| cells := λ _, None; locked := λ _, false; total := 0%Q;
     vsaComments := ""; additionalInformation := "" |}.

(** Modelled from the spec: assignment to a cell; a locked cell is
    excluded from it. *)
Definition assign (c : column) (v : option Q) (row : OutputRow) : OutputRow :=
  if locked row c then row else
  {| cells := λ c', if decide (c' = c) then v else cells row c';
     locked := locked row; total := total row;
     vsaComments := vsaComments row;
     additionalInformation := additionalInformation row |}.

(** Modelled from the spec: marking a cell locked. *)
Definition lock (c : column) (row : OutputRow) : OutputRow :=
  {| cells := cells row;
     locked := λ c', if decide (c' = c) then true else locked row c';
     total := total row;
     vsaComments := vsaComments row;
     additionalInformation := additionalInformation row |}.

(** Modelled from the spec: setting cells to 0 and locking them. *)
Definition zero_and_lock (cs : list column) (row : OutputRow) : OutputRow :=
  foldl (λ row c, lock c (assign c (Some 0%Q) row)) row cs.

(** Modelled from the spec: the sum of the cells E to K, a blank cell
    counting for 0. *)
Definition sum_E_to_K (row : OutputRow) : Q :=
  foldl (λ acc c, (acc + default 0 (cells row c))%Q) 0%Q columns_E_to_K.

(** Modelled from the spec: case normalization (trim and upper case) of
    the text a rule compares. *)
Definition normalized (text : string) : string := toUpperCase (trim text).

(** Modelled from the spec: the eight rules, in their fixed order. *)
Definition rule1 (raw : RawDealRecord) (idx : Indexes) (row : OutputRow) : OutputRow :=
  if String.eqb (normalized (product raw)) "MIDLANDS"
  then zero_and_lock columns_E_to_K row else row.

Definition rule2 (raw : RawDealRecord) (idx : Indexes) (row : OutputRow) : OutputRow :=
  if isWhbCifDeal raw then zero_and_lock [colI; colJ] row else row.

Definition rule3 (raw : RawDealRecord) (idx : Indexes) (row : OutputRow) : OutputRow :=
  assign colE (costIndex idx !! (dealNumber raw, "BLC")) row.

Definition rule4 (raw : RawDealRecord) (idx : Indexes) (row : OutputRow) : OutputRow :=
  assign colI (costIndex idx !! (dealNumber raw, "CIN")) row.

Definition rule5 (raw : RawDealRecord) (idx : Indexes) (row : OutputRow) : OutputRow :=
  assign colJ (costIndex idx !! (dealNumber raw, "CLI")) row.

Definition rule6 (raw : RawDealRecord) (idx : Indexes) (row : OutputRow) : OutputRow :=
  {| cells := cells row; locked := locked row; total := sum_E_to_K row;
     vsaComments := vsaComments row;
     additionalInformation := additionalInformation row |}.

Definition rule7 (raw : RawDealRecord) (idx : Indexes) (row : OutputRow) : OutputRow :=
  {| cells := cells row; locked := locked row; total := total row;
     vsaComments :=
       default "" (vsaComment <$> hedgeIndex idx !! hedgeNumber raw);
     additionalInformation := additionalInformation row |}.

Definition rule8 (raw : RawDealRecord) (idx : Indexes) (row : OutputRow) : OutputRow :=
  {| cells := cells row; locked := locked row; total := total row;
     vsaComments := vsaComments row;
     additionalInformation :=
       default "" (additionalInfo <$> hedgeIndex idx !! hedgeNumber raw) |}.

Definition rules : list (RawDealRecord → Indexes → OutputRow → OutputRow) :=
  [rule1; rule2; rule3; rule4; rule5; rule6; rule7; rule8].

(** Modelled from the spec: the rule engine threads the row through the
    rules. *)
Definition apply_rules (raw : RawDealRecord) (idx : Indexes) (row : OutputRow)
    : OutputRow :=
  foldl (λ row rule, rule raw idx row) row rules.

(** Modelled from the spec: the computed columns of the output row of a
    raw deal record. *)
Definition enrich (raw : RawDealRecord) (idx : Indexes) : OutputRow :=
  apply_rules raw idx blank_row.

(** Modelled from the spec: the state in which rule 1 leaves the cells
    E to K of a MIDLANDS row: all 0, all locked. *)
Definition zeroed (row : OutputRow) : Prop :=
  ∀ c, cells row c = Some 0%Q ∧ locked row c = true.

(** Modelled from the spec: the MIDLANDS deal of the test workbook and
    the cost index of its sheet 2, with costs of every kind added for
    that deal. *)
Definition midlands_deal : RawDealRecord :=
  {| dealNumber := "DEAL002"; vessel := "VESSEL2"; product := " Midlands ";
     hedgeNumber := "HEDGE002"; quantityBbl := 200; inco := "CIF";
     contractualLocation := "ROTTERDAM"; risk := "GAS"; date := "2024-01-20";
     isWhbCifDeal := true |}.

Definition midlands_indexes : Indexes :=
  {| costIndex :=
       <[ ("DEAL002", "BLC") := 800%Q ]>
         (<[ ("DEAL002", "CIN") := 300%Q ]>
            (<[ ("DEAL002", "CLI") := 400%Q ]> ∅));
     hedgeIndex :=
       <[ "HEDGE002" := {| vsaComment := "VSA Comment 2";
                            additionalInfo := "Additional Info 2" |} ]> ∅ |}.

(** ** AnalysisTokenStore (specification, sections 4.6 and 6) *)

(** Modelled from the spec: the three export formats. *)
Inductive Format := Spreadsheet | DelimitedText | PrintableSummary.

(** Modelled from the spec: the requests that reach the token store.
    Publishing stores a result under a new token, exporting reads the
    result of a token, eviction forgets a token. *)
Inductive Request (Result : Type) :=
| Publish (result : Result)
| Export (format : Format) (token : string)
| Evict (token : string).
Arguments Publish {Result} result.
Arguments Export {Result} format token.
Arguments Evict {Result} token.

(** Modelled from the spec: the replies: the new token, the bytes of an
    export, the unknown-token error, an acknowledgement. *)
Inductive Reply :=
| NewToken (token : string)
| Exported (content : list Byte.byte)
| UnknownTokenError
| Evicted.

Section TokenStore.
Context {Result : Type}.

(** The renderer of an export format, an external collaborator of the
    store. *)
Variable render : Format → Result → list Byte.byte.

(** Modelled from the spec: the store maps tokens to results; a request
    is served against the store and leaves the next store. *)
Definition serve (store : gmap string Result) (request : Request Result)
    : gmap string Result * Reply :=
  match request with
  | Publish result =>
      let token := fresh (dom store) in
      (<[ token := result ]> store, NewToken token)
  | Export format token =>
      (store,
       match store !! token with
       | Some result => Exported (render format result)
       | None => UnknownTokenError
       end)
  | Evict token => (delete token store, Evicted)
  end.

(** Modelled from the spec: the store after a sequence of requests. *)
Definition serve_all (store : gmap string Result)
    (requests : list (Request Result)) : gmap string Result :=
  foldl (λ store request, (serve store request).1) store requests.

End TokenStore.

(** Modelled from the spec: a store holding one result under the token
    [t1], and a renderer, to run the store on. *)
Definition one_result : gmap string nat := {[ "t1" := 7 ]}.

Definition zeros (format : Format) (result : nat) : list Byte.byte :=
  replicate result Byte.x00.

Definition other_requests : list (Request nat) :=
  [Publish 8; Export Spreadsheet "t1"; Evict "t2"].

End Backend.


(* ===================================================================== *)
(** * class ExcelProcessor: the other methods *)
(* ===================================================================== *)

Module ExcelProcessorRest.
Import Js ExcelProcessor.

(** ** Finite numbers and their sums, to state totals *)

Definition is_finite (n : number) : Prop := ∃ q, n = Fin q.

(** The value of a finite number; [0] for the others. *)
Definition finite (n : number) : Q :=
  match n with
  | Fin q => q
  | _ => 0%Q
  end.

Definition sum_of (l : list Q) : Q := foldr Qplus 0%Q l.

(** The sum of the values of a product distribution. *)
Definition distribution_total (distribution : gmap string number) : Q :=
  sum_of (map (λ kv, finite kv.2) (map_to_list distribution)).

(** ** Processing the chosen file: [processFile] *)

(** What the methods set on the page: the [style.display] of the process
    button, of the spinner, of the error section and of the results
    section, whether the button is disabled, and the text of the error. *)
Record Screen := {
  processButton_display : string;
  processButton_disabled : bool;
  loadingSpinner_display : string;
  errorSection_display : string;
  errorMessage : string;
  resultsSection_display : string
}.

Definition showLoading (screen : Screen) : Screen :=
  {| processButton_display := "none";
     processButton_disabled := processButton_disabled screen;
     loadingSpinner_display := "flex";
     errorSection_display := errorSection_display screen;
     errorMessage := errorMessage screen;
     resultsSection_display := resultsSection_display screen |}.

Definition hideLoading (screen : Screen) : Screen :=
  {| processButton_display := "inline-block";
     processButton_disabled := processButton_disabled screen;
     loadingSpinner_display := "none";
     errorSection_display := errorSection_display screen;
     errorMessage := errorMessage screen;
     resultsSection_display := resultsSection_display screen |}.

Definition showError (message : string) (screen : Screen) : Screen :=
  {| processButton_display := processButton_display screen;
     processButton_disabled := processButton_disabled screen;
     loadingSpinner_display := loadingSpinner_display screen;
     errorSection_display := "block";
     errorMessage := message;
     resultsSection_display := resultsSection_display screen |}.

Definition hideError (screen : Screen) : Screen :=
  {| processButton_display := processButton_display screen;
     processButton_disabled := processButton_disabled screen;
     loadingSpinner_display := loadingSpinner_display screen;
     errorSection_display := "none";
     errorMessage := errorMessage screen;
     resultsSection_display := resultsSection_display screen |}.

(** [showResults]; the cards and the chart that [displayMetrics] fills are
    not part of [Screen], and the DOM and the chart library are taken to
    work, so that it does not throw. *)
Definition showResults (screen : Screen) : Screen :=
  {| processButton_display := processButton_display screen;
     processButton_disabled := processButton_disabled screen;
     loadingSpinner_display := loadingSpinner_display screen;
     errorSection_display := errorSection_display screen;
     errorMessage := errorMessage screen;
     resultsSection_display := "block" |}.

Definition hideResults (screen : Screen) : Screen :=
  {| processButton_display := processButton_display screen;
     processButton_disabled := processButton_disabled screen;
     loadingSpinner_display := loadingSpinner_display screen;
     errorSection_display := errorSection_display screen;
     errorMessage := errorMessage screen;
     resultsSection_display := "none" |}.

(** The processor with the fields outside [Processor] that [processFile]
    touches: the flag [processedData] ([null] is [false]) and the page. *)
Record App := {
  processor : Processor;
  processedData : bool;
  screen : Screen
}.

(** A chosen file: its name and what [XLSX.read] makes of its content,
    the message of the error it throws or the workbook. *)
Record File := {
  file_name : string;
  XLSX_read : string + XLSX.WorkBook
}.

(** [s.endsWith(suffix)] *)
Fixpoint endsWith (s suffix : string) : bool :=
  String.eqb s suffix
  || match s with
     | EmptyString => false
     | String _ s' => endsWith s' suffix
     end.

(** [name.match(/\.(xlsx|xls)$/i)] finds the extension. *)
Definition isExcelName (name : string) : bool :=
  let upper := toUpperCase name in
  endsWith upper ".XLSX" || endsWith upper ".XLS".

(** [this.workbook = workbook] *)
Definition set_workbook (workbook : XLSX.WorkBook) (this : Processor)
    : Processor :=
  {| workbook := workbook;
     rawRecords := rawRecords this;
     datePreset := datePreset this;
     filteredRecords := filteredRecords this;
     summaryMetrics := summaryMetrics this |}.

(** The [try] block of [processFile]: the message of the error thrown, if
    any, and the state reached.  [file] is [fileInput.files[0]];
    [settings] is the form as [validateFile] reads it and
    [settings_later] as [calculateDashboardMetrics] reads it, a tenth of
    a second later. *)
Definition processFile_try `{Host} (now : Date)
    (settings settings_later : Settings) (file : option File) (this : App)
    : option string * App :=
  match file with
  | None => (Some "No file selected", this)
  | Some file =>
      if negb (isExcelName (file_name file))
      then (Some "Please select a valid Excel file (.xlsx or .xls)", this)
      else
        match XLSX_read file with
        | inl thrown => (Some thrown, this)
        | inr workbook =>
            let this :=
              {| processor := set_workbook workbook (processor this);
                 processedData := processedData this;
                 screen := screen this |} in
            match validateFile workbook settings with
            | inl error => (Some (message error), this)
            | inr _ =>
                (None,
                 {| processor :=
                      calculateDashboardMetrics now settings_later
                        (processor this);
                    processedData := true;
                    screen := showResults (screen this) |})
            end
        end
  end.

(** [processFile], run without another handler in between its steps. *)
Definition processFile `{Host} (now : Date)
    (settings settings_later : Settings) (file : option File) (this : App)
    : App :=
  let this :=
    {| processor := processor this;
       processedData := processedData this;
       screen := hideResults (hideError (showLoading (screen this))) |} in
  let '(thrown, this) := processFile_try now settings settings_later file this in
  let this :=
    match thrown with
    | Some message =>
        {| processor := processor this;
           processedData := processedData this;
           screen := showError message (screen this) |}
    | None => this
    end in
  {| processor := processor this;
     processedData := processedData this;
     screen := hideLoading (screen this) |}.

(** ** Choosing a file: [handleFileSelect] and [clearFile] *)

(** [type === 'raw'], or not. *)
Inductive FileType := raw | formatted.

(** The processor with the two file inputs, of which [files[0]] is kept,
    and the two file cards of the page.  The elements of the page are
    taken to exist. *)
Record Form := {
  app : App;
  rawFileInput : option File;
  formattedFileInput : option File;
  rawFileInfo_display : string;
  formattedFileInfo_display : string;
  rawFileName : string;
  formattedFileName : string
}.

(** [fileInput.value = ''] and the browser's update of [files] before the
    [change] event. *)
Definition set_files (type : FileType) (file : option File) (this : Form)
    : Form :=
  {| app := app this;
     rawFileInput := if type is raw then file else rawFileInput this;
     formattedFileInput :=
       if type is raw then formattedFileInput this else file;
     rawFileInfo_display := rawFileInfo_display this;
     formattedFileInfo_display := formattedFileInfo_display this;
     rawFileName := rawFileName this;
     formattedFileName := formattedFileName this |}.

(** [fileInfo.style.display = display] *)
Definition set_fileInfo (type : FileType) (display : string) (this : Form)
    : Form :=
  {| app := app this;
     rawFileInput := rawFileInput this;
     formattedFileInput := formattedFileInput this;
     rawFileInfo_display :=
       if type is raw then display else rawFileInfo_display this;
     formattedFileInfo_display :=
       if type is raw then formattedFileInfo_display this else display;
     rawFileName := rawFileName this;
     formattedFileName := formattedFileName this |}.

(** [fileName.textContent = name] *)
Definition set_fileName (type : FileType) (name : string) (this : Form)
    : Form :=
  {| app := app this;
     rawFileInput := rawFileInput this;
     formattedFileInput := formattedFileInput this;
     rawFileInfo_display := rawFileInfo_display this;
     formattedFileInfo_display := formattedFileInfo_display this;
     rawFileName := if type is raw then name else rawFileName this;
     formattedFileName :=
       if type is raw then formattedFileName this else name |}.

Definition set_app (app : App) (this : Form) : Form :=
  {| app := app;
     rawFileInput := rawFileInput this;
     formattedFileInput := formattedFileInput this;
     rawFileInfo_display := rawFileInfo_display this;
     formattedFileInfo_display := formattedFileInfo_display this;
     rawFileName := rawFileName this;
     formattedFileName := formattedFileName this |}.

(** [processButton.disabled = disabled] *)
Definition set_disabled (disabled : bool) (screen : Screen) : Screen :=
  {| processButton_display := processButton_display screen;
     processButton_disabled := disabled;
     loadingSpinner_display := loadingSpinner_display screen;
     errorSection_display := errorSection_display screen;
     errorMessage := errorMessage screen;
     resultsSection_display := resultsSection_display screen |}.

Definition clearFile (type : FileType) (this : Form) : Form :=
  let this := set_fileInfo type "none" (set_files type None this) in
  match type with
  | raw =>
      set_app
        {| processor := processor (app this);
           processedData := false;
           screen :=
             hideResults (hideError (set_disabled true (screen (app this)))) |}
        this
  | formatted => this
  end.

(** [handleFileSelect] on the [change] event of the input of [type], of
    which [file] is the new [files[0]]. *)
Definition handleFileSelect (file : option File) (type : FileType)
    (this : Form) : Form :=
  let this := set_files type file this in
  match file with
  | None => clearFile type this
  | Some chosen =>
      if negb (isExcelName (file_name chosen)) then
        let this :=
          set_app
            {| processor := processor (app this);
               processedData := processedData (app this);
               screen :=
                 showError "Please select a valid Excel file (.xlsx or .xls)"
                           (screen (app this)) |}
            this in
        clearFile type (set_files type None this)
      else
        let this :=
          set_fileInfo type "flex" (set_fileName type (file_name chosen) this) in
        match type with
        | raw =>
            set_app
              {| processor := processor (app this);
                 processedData := processedData (app this);
                 screen :=
                   hideResults
                     (hideError (set_disabled false (screen (app this)))) |}
              this
        | formatted => this
        end
  end.

(** ** The rows of the product chart: [displayProductDistribution] and
       [copyChartCsv] *)

(** [x > 0] *)
Definition num_positive (x : number) : bool :=
  match x with
  | NaN => false
  | Infinity negative => negb negative
  | Fin q => negb (Qle_bool q 0)
  end.

(** [([,a],[,b]) => b - a] is positive. *)
Definition by_value_desc (a b : string * number) : bool :=
  num_positive (num_sub b.2 a.2).

(** [grouped], from [Object.entries(products)]: the six largest products
    and, when the others add up to more than nothing, a row for them. *)
Definition grouped (entries : list (string * number))
    : list (string * number) :=
  let sorted := Js.sort by_value_desc entries in
  let top := take 6 sorted in
  let rest := drop 6 sorted in
  let otherSum := foldl (λ sum kv, num_add sum kv.2) (Fin 0) rest in
  if num_positive otherSum then top ++ [("Other", otherSum)] else top.

(** ** The address of the API: [getDefaultApiBaseUrl],
       [buildApiBaseCandidates], [detectApiBaseUrl] *)

(** [window.location] *)
Record Location := {
  protocol : string;
  hostname : string;
  port : string;
  origin : string
}.

(** What [buildApiBaseCandidates] reads of the page: the location, the
    global [window.API_BASE_URL] ([undefined] when not set), the values
    that [URLSearchParams.get] returns for the three parameters of
    [location.search] ([null] when absent) and the content of the
    [api-base-url] meta tag ([None] without such a tag). *)
Record Page := {
  location : Location;
  API_BASE_URL : Js.value;
  param_api : Js.value;
  param_apiBase : Js.value;
  param_api_base : Js.value;
  metaTag : option string
}.

(** [list.includes(x)] *)
Definition includes (l : list string) (x : string) : bool := bool_decide (x ∈ l).

(** [protocol === 'https:' ? 'https:' : 'http:'] *)
Definition normalizedProtocol (location : Location) : string :=
  if String.eqb (protocol location) "https:" then "https:" else "http:".

Definition getDefaultApiBaseUrl (location : Location) : string :=
  if String.eqb (protocol location) "file:" || String.eqb (hostname location) ""
  then "http://127.0.0.1:8000"
  else if includes ["localhost"; "127.0.0.1"; "::1"] (hostname location)
  then normalizedProtocol location +:+ "//" +:+ hostname location +:+ ":8000"
  else if negb (String.eqb (port location) "")
          && negb (includes ["80"; "443"; "8000"; ""] (port location))
  then normalizedProtocol location +:+ "//" +:+ hostname location +:+ ":8000"
  else if negb (String.eqb (origin location) "")
          && negb (String.eqb (origin location) "null")
  then origin location
  else normalizedProtocol location +:+ "//" +:+ hostname location +:+
       (if String.eqb (port location) "" then "" else ":" +:+ port location).

(** [pushCandidate]: only a non-empty string that is not all white space
    is pushed, trimmed. *)
Definition pushCandidate (candidates : list string) (value : Js.value)
    : list string :=
  match value with
  | VStr s =>
      if String.eqb s "" then candidates
      else let trimmed := trim s in
           if String.eqb trimmed "" then candidates else candidates ++ [trimmed]
  | _ => candidates
  end.

(** [c.replace(/\/+$/, '')]: the text without its trailing slashes. *)
Fixpoint stripSlashes (s : string) : string :=
  match s with
  | EmptyString => EmptyString
  | String ch s' =>
      match stripSlashes s' with
      | EmptyString => if Ascii.eqb ch "/" then EmptyString else String ch EmptyString
      | t => String ch t
      end
  end.

(** [[...new Set(list)]]: the distinct elements, in order of first
    occurrence. *)
Definition distinct (l : list string) : list string :=
  foldl (λ set x, DealComparisonDashboard.set_add x set) [] l.

(** The candidates gathered from the location in the second half of
    [buildApiBaseCandidates]. *)
Definition pushLocationCandidates (candidates : list string) (location : Location)
    : list string :=
  let candidates :=
    if negb (String.eqb (origin location) "")
       && negb (String.eqb (origin location) "null")
    then pushCandidate candidates (VStr (origin location)) else candidates in
  if String.eqb (hostname location) "" || String.eqb (protocol location) "file:"
  then pushCandidate (pushCandidate candidates (VStr "http://127.0.0.1:8000"))
                     (VStr "http://localhost:8000")
  else
    let candidates :=
      if negb (String.eqb (port location) "")
         && negb (includes [""; "80"; "443"; "8000"] (port location))
      then pushCandidate candidates
             (VStr (normalizedProtocol location +:+ "//" +:+ hostname location
                    +:+ ":8000"))
      else candidates in
    if negb (includes ["localhost"; "127.0.0.1"; "::1"] (hostname location))
    then pushCandidate
           (pushCandidate candidates
              (VStr (normalizedProtocol location +:+ "//localhost:8000")))
           (VStr (normalizedProtocol location +:+ "//127.0.0.1:8000"))
    else candidates.

(** The array [candidates] of [buildApiBaseCandidates] before its last
    statement. *)
Definition candidates_pushed (page : Page) : list string :=
  let candidates := [] in
  let candidates :=
    if truthy (API_BASE_URL page) then pushCandidate candidates (API_BASE_URL page)
    else candidates in
  let candidates := pushCandidate candidates (param_api page) in
  let candidates := pushCandidate candidates (param_apiBase page) in
  let candidates := pushCandidate candidates (param_api_base page) in
  let candidates :=
    match metaTag page with
    | Some content =>
        if String.eqb content "" then candidates
        else pushCandidate candidates (VStr content)
    | None => candidates
    end in
  let candidates :=
    pushCandidate candidates (VStr (getDefaultApiBaseUrl (location page))) in
  pushLocationCandidates candidates (location page).

Definition buildApiBaseCandidates (page : Page) : list string :=
  filter (λ c, c ≠ "") (distinct (map stripSlashes (candidates_pushed page))).

(** What a [fetch] comes to: the promise is rejected, or a response
    arrives that is OK or not.  The loop fetches each address once, so
    the network is a function of the address. *)
Inductive Fetched := Rejected | Responded (ok : bool).

(** The loop of [detectApiBaseUrl]: the base found, if any, and the
    addresses fetched, in order.  [fetch] tells what the request to an
    address comes to. *)
Fixpoint probe (fetch : string → Fetched) (candidates : list string)
    : option string * list string :=
  match candidates with
  | [] => (None, [])
  | candidate :: rest =>
      let base := stripSlashes candidate in
      let url := base +:+ "/health" in
      match fetch url with
      | Responded true => (Some base, [url])
      | _ => let '(found, calls) := probe fetch rest in (found, url :: calls)
      end
  end.

(** [detectApiBaseUrl] on the candidates of the page: the base it
    resolves to, or [None] when it throws for want of a candidate, and
    the addresses fetched. *)
Definition detectApiBaseUrl (fetch : string → Fetched) (page : Page)
    : option string * list string :=
  let candidates := buildApiBaseCandidates page in
  match probe fetch candidates with
  | (Some base, calls) => (Some base, calls)
  | (None, calls) => (head candidates, calls)
  end.

(** [initializeApiBaseUrl]: the base detected, or the default one when
    the detection throws. *)
Definition initializeApiBaseUrl (fetch : string → Fetched) (page : Page)
    : string :=
  match detectApiBaseUrl fetch page with
  | (Some base, _) => base
  | (None, _) => getDefaultApiBaseUrl (location page)
  end.

(** The two fields of the processor that hold the address: [apiBaseUrl]
    and what the promise [apiBaseUrlReady] has resolved to, [None] as
    long as the detection runs. *)
Record ApiState := {
  apiBaseUrl : string;
  apiBaseUrlReady : option string
}.

(** The [constructor]: the default address, and the detection started. *)
Definition constructed (page : Page) : ApiState :=
  {| apiBaseUrl := getDefaultApiBaseUrl (location page);
     apiBaseUrlReady := None |}.

(** The processor once [initializeApiBaseUrl] has come to its end. *)
Definition detected (fetch : string → Fetched) (page : Page) : ApiState :=
  let base := initializeApiBaseUrl fetch page in
  {| apiBaseUrl := base; apiBaseUrlReady := Some base |}.

(** [ensureApiBaseUrl]: the address returned and the processor left.
    The promise awaited in the second branch resolves to what
    [initializeApiBaseUrl] returns. *)
Definition ensureApiBaseUrl (fetch : string → Fetched) (page : Page)
    (this : ApiState) : string * ApiState :=
  if negb (String.eqb (apiBaseUrl this) "") then (apiBaseUrl this, this)
  else
    let resolved := initializeApiBaseUrl fetch page in
    if negb (String.eqb resolved "")
    then (resolved, {| apiBaseUrl := resolved; apiBaseUrlReady := Some resolved |})
    else
      let fallback := getDefaultApiBaseUrl (location page) in
      (fallback, {| apiBaseUrl := fallback; apiBaseUrlReady := Some resolved |}).

End ExcelProcessorRest.

(* ===================================================================== *)
(** * class DealComparisonDashboard: the other methods *)
(* ===================================================================== *)

Module DealComparisonDashboardRest.
Import Js DealComparisonDashboard.

(** ** The drill-down filters: [toggleDealFilter], [toggleCostFilter],
       [resetFilters] *)

Definition toggleDealFilter (dealId : string) (filters : Filters) : Filters :=
  if String.eqb dealId "" then filters
  else if bool_decide (dealId ∈ filter_deals filters)
  then {| filter_deals := filter_deals filters ∖ {[dealId]};
          filter_costTypes := filter_costTypes filters |}
  else {| filter_deals := filter_deals filters ∪ {[dealId]};
          filter_costTypes := filter_costTypes filters |}.

Definition toggleCostFilter (costType : string) (filters : Filters) : Filters :=
  if String.eqb costType "" then filters
  else if bool_decide (costType ∈ filter_costTypes filters)
  then {| filter_deals := filter_deals filters;
          filter_costTypes := filter_costTypes filters ∖ {[costType]} |}
  else {| filter_deals := filter_deals filters;
          filter_costTypes := filter_costTypes filters ∪ {[costType]} |}.

Definition resetFilters (filters : Filters) : Filters :=
  {| filter_deals := ∅; filter_costTypes := ∅ |}.

(** ** The cost breakdown: [aggregateCostBreakdown] *)

(** An entry of [breakdownMap]. *)
Record Breakdown := {
  b_cost_type : string;
  formatted_total : Q;
  comparison_total : Q;
  b_difference : Q;
  b_status : string
}.

(** The body of the inner [forEach]. *)
Definition breakdown_cost (breakdownMap : list (string * Breakdown))
    (cost : Cost.t) : list (string * Breakdown) :=
  let current :=
    default {| b_cost_type := Cost.cost_type cost; formatted_total := 0%Q;
               comparison_total := 0%Q; b_difference := 0%Q;
               b_status := "Registered" |}
            (map_get (Cost.cost_type cost) breakdownMap) in
  map_set (Cost.cost_type cost)
    {| b_cost_type := b_cost_type current;
       formatted_total := (formatted_total current + num (Cost.formatted cost))%Q;
       comparison_total :=
         (comparison_total current + num (Cost.comparison cost))%Q;
       b_difference := (b_difference current + num (Cost.difference cost))%Q;
       b_status :=
         if String.eqb (Cost.status cost) "Unregistered" then "Unregistered"
         else if String.eqb (Cost.status cost) "Partial"
                 && negb (String.eqb (b_status current) "Unregistered")
         then "Partial"
         else b_status current |}
    breakdownMap.

(** The state of the outer loop: the map and the two totals. *)
Record BreakdownState := {
  breakdownMap : list (string * Breakdown);
  comparisonTotal : Q;
  formattedTotal : Q
}.

(** The body of the outer [forEach]. *)
Definition breakdown_deal (state : BreakdownState) (deal : Deal.t)
    : BreakdownState :=
  {| breakdownMap :=
       foldl breakdown_cost (breakdownMap state) (default [] (Deal.costs deal));
     comparisonTotal :=
       (comparisonTotal state + num (Deal.comparison_quantity deal))%Q;
     formattedTotal :=
       (formattedTotal state + num (Deal.formatted_quantity deal))%Q |}.

(** [(a, b) => Math.abs(b.difference) - Math.abs(a.difference)] is
    positive. *)
Definition by_abs_difference_desc (a b : Breakdown) : bool :=
  negb (Qle_bool (Qabs (b_difference b) - Qabs (b_difference a)) 0).

(** The result: [costs] and the two totals. *)
Record CostBreakdown := {
  costs : list Breakdown;
  breakdown_comparisonTotal : Q;
  breakdown_formattedTotal : Q
}.

Definition aggregateCostBreakdown (deals : list Deal.t) : CostBreakdown :=
  let state :=
    foldl breakdown_deal
      {| breakdownMap := []; comparisonTotal := 0%Q; formattedTotal := 0%Q |}
      deals in
  {| costs := Js.sort by_abs_difference_desc (map snd (breakdownMap state));
     breakdown_comparisonTotal := comparisonTotal state;
     breakdown_formattedTotal := formattedTotal state |}.

(** *** The statement of the breakdown, on the list of deals *)

(** The comparisons of the deals, in the order the loops visit them. *)
Definition all_costs (deals : list Deal.t) : list Cost.t :=
  deal ← deals; default [] (Deal.costs deal).

(** Those of one cost type. *)
Definition costs_of (cost_type : string) (deals : list Deal.t) : list Cost.t :=
  filter (λ cost, Cost.cost_type cost = cost_type) (all_costs deals).

(** The sum of a field over a list of comparisons. *)
Definition total_of (field : Cost.t → option Q) (costs : list Cost.t) : Q :=
  foldl (λ acc cost, (acc + num (field cost))%Q) 0%Q costs.

(** The status of a cost type: Unregistered as soon as one comparison is,
    else Partial as soon as one is, else Registered. *)
Definition status_of (costs : list Cost.t) : string :=
  if existsb (λ cost, String.eqb (Cost.status cost) "Unregistered") costs
  then "Unregistered"
  else if existsb (λ cost, String.eqb (Cost.status cost) "Partial") costs
  then "Partial"
  else "Registered".

(** The entry that the comparisons [costs] of one cost type amount to. *)
Definition breakdown_of (cost_type : string) (costs : list Cost.t)
    : Breakdown :=
  {| b_cost_type := cost_type;
     formatted_total := total_of Cost.formatted costs;
     comparison_total := total_of Cost.comparison costs;
     b_difference := total_of Cost.difference costs;
     b_status := status_of costs |}.

(** ** The waterfall chart: [renderWaterfallChart] *)

(** The series handed to the chart; the texts, which are the values as
    currency, are left out. *)
Record WaterfallChart := {
  w_labels : list string;
  measures : list string;
  w_values : list Q;
  w_colors : list string
}.

(** The colour of the bar of a cost type. *)
Definition bar_color (cost : Breakdown) : string :=
  if String.eqb (b_status cost) "Unregistered" then "#fb923c"
  else if Qle_bool 0 (b_difference cost) then "#ef4444"
  else "#10b981".

(** [None] is the empty state shown when there is no deal. *)
Definition renderWaterfallChart (filteredDeals : list Deal.t)
    : option WaterfallChart :=
  if bool_decide (length filteredDeals = 0) then None else
  let breakdown := aggregateCostBreakdown filteredDeals in
  Some {| w_labels :=
            ["Comparison Total"] ++ map b_cost_type (costs breakdown)
              ++ ["Formatted Total"];
          measures :=
            ["absolute"] ++ map (λ _, "relative") (costs breakdown) ++ ["total"];
          w_values :=
            [breakdown_comparisonTotal breakdown]
              ++ map b_difference (costs breakdown)
              ++ [breakdown_formattedTotal breakdown];
          w_colors :=
            ["#1e3a8a"] ++ map bar_color (costs breakdown) ++ ["#1e40af"] |}.

(** ** The treemap of unregistered costs: [renderTreemap] *)

Record Treemap := {
  t_labels : list string;
  parents : list string;
  t_values : list Q;
  t_colors : list nat;
  t_text : list string;
  customdata : list string
}.

(** [`${item.deal_count} deals`] *)
Definition deals_text (item : Unregistered) : string :=
  pretty (deal_count item) +:+ " deals".

(** [None] is the empty state shown when no cost is unregistered. *)
Definition renderTreemap (filteredDeals : list Deal.t) : option Treemap :=
  let unregistered := aggregateUnregistered filteredDeals in
  if bool_decide (length unregistered = 0) then None else
  let totalImpact := foldl (λ sum item, (sum + impact item)%Q) 0%Q unregistered in
  let labels := "Unregistered Costs" :: map u_cost_type unregistered in
  Some {| t_labels := labels;
          parents := "" :: map (λ _, "Unregistered Costs") unregistered;
          t_values := totalImpact :: map impact unregistered;
          t_colors := 0 :: map deal_count unregistered;
          t_text :=
            imap (λ idx info, default "undefined" (labels !! idx) +:+ "<br>" +:+ info)
                 ("Total" :: map deals_text unregistered);
          customdata := "Overall" :: map deals_text unregistered |}.

(** ** The heat map: [renderHeatmap] *)

(** [analysisData.heatmap]; a cell is [None] when it is [null]. *)
Record HeatmapData := {
  deal_ids : list string;
  cost_types : list string;
  matrix : list (list (option Q));
  status_matrix : list (list (option string));
  hover : list (list (option string))
}.

(** [new Map(keys.map((key, index) => [key, index]))]: a key that occurs
    twice keeps its place and takes the later index. *)
Definition index_map (keys : list string) : list (string * nat) :=
  foldl (λ m entry, map_set entry.1 entry.2 m) []
        (imap (λ index key, (key, index)) keys).

(** [keys.filter((key) => !filter.size || filter.has(key))] *)
Definition selected (chosen : gset string) (keys : list string) : list string :=
  filter (λ key, size chosen = 0 ∨ key ∈ chosen) keys.

(** The cell read from a matrix: [None] is [undefined], read past the end
    of a row, and [Some None] is [null]. *)
Definition Cell (A : Type) : Type := option (option A).

(** One of the three [selectedDeals.map(...)]: [None] when it throws,
    because the matrix has no row at the index of a deal. *)
Definition select_cells {A} (cells : list (list (option A)))
    (dealIndex costIndex : list (string * nat))
    (selectedDeals selectedCosts : list string)
    : option (list (list (Cell A))) :=
  mapM (λ deal,
          row ← (map_get deal dealIndex ≫= λ rowIndex, cells !! rowIndex);
          Some (map (λ cost, (map_get cost costIndex ≫= λ index, row !! index)
                             : Cell A)
                    selectedCosts))
       selectedDeals.

Record Heatmap := {
  x : list string;
  y : list string;
  z : list (list (Cell Q));
  text : list (list (Cell string));
  hovertext : list (list (Cell string))
}.

(** What a chart method does: nothing, the empty state, a [TypeError], or
    the chart. *)
Inductive Rendering (C : Type) :=
| Nothing
| EmptyState
| Throws
| Chart (chart : C).
Arguments Nothing {C}.
Arguments EmptyState {C}.
Arguments Throws {C}.
Arguments Chart {C} chart.

Definition renderHeatmap (heatmap : option HeatmapData) (filters : Filters)
    : Rendering Heatmap :=
  match heatmap with
  | None => Nothing
  | Some data =>
      let selectedDeals := selected (filter_deals filters) (deal_ids data) in
      let selectedCosts := selected (filter_costTypes filters) (cost_types data) in
      if bool_decide (length selectedDeals = 0)
         || bool_decide (length selectedCosts = 0)
      then EmptyState
      else
        let dealIndex := index_map (deal_ids data) in
        let costIndex := index_map (cost_types data) in
        match
          select_cells (matrix data) dealIndex costIndex selectedDeals selectedCosts,
          select_cells (status_matrix data) dealIndex costIndex
            selectedDeals selectedCosts,
          select_cells (hover data) dealIndex costIndex selectedDeals selectedCosts
        with
        | Some matrix, Some statusMatrix, Some hover =>
            Chart {| x := selectedCosts; y := selectedDeals; z := matrix;
                     text := statusMatrix; hovertext := hover |}
        | _, _, _ => Throws
        end
  end.

(** ** The options of the charts: [getPlotlyConfig] *)

Record PlotlyConfig := {
  responsive : bool;
  displaylogo : bool;
  displayModeBar : bool;
  scrollZoom : bool;
  modeBarButtonsToRemove : list string;
  modeBarButtonsToAdd : option (list string)
}.

(** The overrides that the chart methods pass: each key is absent or a
    list of buttons. *)
Record Overrides := {
  o_modeBarButtonsToRemove : option (list string);
  o_modeBarButtonsToAdd : option (list string)
}.

Definition defaultPlotlyConfig : PlotlyConfig :=
  {| responsive := true;
     displaylogo := false;
     displayModeBar := true;
     scrollZoom := true;
     modeBarButtonsToRemove := ["toImage"];
     modeBarButtonsToAdd := None |}.

(** [getPlotlyConfig], for the [this.defaultPlotlyConfig] at hand. *)
Definition getPlotlyConfig (default : PlotlyConfig) (overrides : Overrides)
    : PlotlyConfig :=
  let overrides :=
    match o_modeBarButtonsToRemove overrides with
    | Some buttons =>
        {| o_modeBarButtonsToRemove :=
             Some (ExcelProcessorRest.distinct
                     (modeBarButtonsToRemove default ++ buttons));
           o_modeBarButtonsToAdd := o_modeBarButtonsToAdd overrides |}
    | None => overrides
    end in
  {| responsive := responsive default;
     displaylogo := displaylogo default;
     displayModeBar := displayModeBar default;
     scrollZoom := scrollZoom default;
     modeBarButtonsToRemove :=
       match o_modeBarButtonsToRemove overrides with
       | Some buttons => buttons
       | None => modeBarButtonsToRemove default
       end;
     modeBarButtonsToAdd :=
       match o_modeBarButtonsToAdd overrides with
       | Some buttons => Some buttons
       | None => modeBarButtonsToAdd default
       end |}.

(** ** The size of a file: [formatSize] *)

Definition units : list string := ["B"; "KB"; "MB"; "GB"].

(** The [while] loop of [formatSize], for at most [fuel] rounds. *)
Fixpoint formatSize_loop (fuel : nat) (size : Q) (unitIndex : nat) : Q * nat :=
  match fuel with
  | 0 => (size, unitIndex)
  | S fuel =>
      if Qle_bool 1024 size && (unitIndex <? length units - 1)
      then formatSize_loop fuel (size / 1024)%Q (unitIndex + 1)
      else (size, unitIndex)
  end.

(** Whether the loop has come to its end. *)
Definition formatSize_done (state : Q * nat) : bool :=
  negb (Qle_bool 1024 state.1 && (state.2 <? length units - 1)).

(** ** The comparison request: [analyze] *)

(** What [analyze] reads and writes: the names of the two files chosen,
    the result and its token, the filters, and of the page the compare
    button, the spinner and the error card.  The elements of the page
    are taken to exist. *)
Record Comparison := {
  formattedFile : option string;
  referenceFile : option string;
  analysisData : option AnalysisData;
  analysisToken : option string;
  filters : Filters;
  compareButton_disabled : bool;
  loading_display : string;
  errorCard_display : string;
  errorMessage : string
}.

(** What the request comes to: [fetch] rejects with a message; the
    response is not OK, its body being some JSON, of which the [error]
    field is read, or not ([None]); or the response is OK, its body the
    result, or not JSON, which makes [response.json()] reject with a
    message. *)
Inductive Compared :=
| Unreachable (message : string)
| Refused (body : option (option string))
| Answered (body : string + AnalysisData).

(** [a || b] for a string [a] that may be absent. *)
Definition text_or_else (a : option string) (b : string) : string :=
  Js.str_or_else (default "" a) b.

Definition setLoading (isLoading : bool) (this : Comparison) : Comparison :=
  {| formattedFile := formattedFile this;
     referenceFile := referenceFile this;
     analysisData := analysisData this;
     analysisToken := analysisToken this;
     filters := filters this;
     compareButton_disabled :=
       isLoading || negb (bool_decide (is_Some (formattedFile this)))
       || negb (bool_decide (is_Some (referenceFile this)));
     loading_display := if isLoading then "flex" else "none";
     errorCard_display := errorCard_display this;
     errorMessage := errorMessage this |}.

Definition clearError (this : Comparison) : Comparison :=
  {| formattedFile := formattedFile this;
     referenceFile := referenceFile this;
     analysisData := analysisData this;
     analysisToken := analysisToken this;
     filters := filters this;
     compareButton_disabled := compareButton_disabled this;
     loading_display := loading_display this;
     errorCard_display := "none";
     errorMessage := errorMessage this |}.

Definition showError (message : string) (this : Comparison) : Comparison :=
  {| formattedFile := formattedFile this;
     referenceFile := referenceFile this;
     analysisData := analysisData this;
     analysisToken := analysisToken this;
     filters := filters this;
     compareButton_disabled := compareButton_disabled this;
     loading_display := loading_display this;
     errorCard_display := "block";
     errorMessage := message |}.

(** The assignments of [analyze] once the result is in. *)
Definition store (data : AnalysisData) (this : Comparison) : Comparison :=
  {| formattedFile := formattedFile this;
     referenceFile := referenceFile this;
     analysisData := Some data;
     analysisToken :=
       match token data with
       | Some t => if String.eqb t "" then None else Some t
       | None => None
       end;
     filters := {| filter_deals := ∅; filter_costTypes := ∅ |};
     compareButton_disabled := compareButton_disabled this;
     loading_display := loading_display this;
     errorCard_display := errorCard_display this;
     errorMessage := errorMessage this |}.

(** The [try] block of [analyze]: the message of the error thrown, if
    any, and the state reached.  [rendering] is what [renderResults]
    comes to: the message of the error it throws, if any. *)
Definition analyze_try (response : Compared) (rendering : option string)
    (this : Comparison) : option string * Comparison :=
  match response with
  | Unreachable message => (Some message, this)
  | Refused body =>
      let error := default (Some "Comparison failed") body in
      (Some (text_or_else error "Comparison failed"), this)
  | Answered (inl message) => (Some message, this)
  | Answered (inr data) => (rendering, store data this)
  end.

Definition analyze (response : Compared) (rendering : option string)
    (this : Comparison) : Comparison :=
  if negb (bool_decide (is_Some (formattedFile this)))
     || negb (bool_decide (is_Some (referenceFile this)))
  then this
  else
    let this := setLoading true (clearError this) in
    let '(thrown, this) := analyze_try response rendering this in
    let this :=
      match thrown with
      | Some message =>
          showError (Js.str_or_else message "Comparison analysis failed") this
      | None => this
      end in
    setLoading false this.

End DealComparisonDashboardRest.

(* ===================================================================== *)
(** * The tunnel runner *)
(* ===================================================================== *)

Module Tunnel.

Definition base : string := "varo-rebilling".

(** The subdomain asked for at an attempt; [random] is what
    [Math.random().toString(36).slice(2, 7)] gives there. *)
Definition subdomain (random : nat → string) (attempt : nat) : string :=
  if attempt =? 0 then base else base +:+ "-" +:+ random attempt.

(** The [while] loop, for at most [fuel] rounds: the address of the
    tunnel, or [None] when the last error is thrown on, and the
    subdomains asked for.  [localtunnel] tells what the call of an
    attempt comes to: the address of the tunnel, or [None] when it
    rejects.  Without fuel left the loop has no outcome. *)
Fixpoint start (fuel : nat) (localtunnel : nat → string → option string)
    (random : nat → string) (attempt : nat)
    : option (option string * list string) :=
  match fuel with
  | 0 => None
  | S fuel =>
      let sub := subdomain random attempt in
      match localtunnel attempt sub with
      | Some url => Some (Some url, [sub])
      | None =>
          let attempt := attempt + 1 in
          if 5 <? attempt then Some (None, [sub])
          else
            match start fuel localtunnel random attempt with
            | Some (outcome, asked) => Some (outcome, sub :: asked)
            | None => None
            end
      end
  end.

(** The content of [tunnel_url.txt]. *)
Definition tunnel_url_txt (url : string) : string :=
  url +:+ String (ascii_of_nat 10) EmptyString.

End Tunnel.


(* ===================================================================== *)
(** * The page of the API-base tests

    [setupDom] of the test file of the API base: the location of the
    stubbed window, no meta tag, no query, and the two networks of
    [testUsesReachableCandidate] and [testFallsBackWhenAllFail]. *)

Module ApiBaseTest.
Import Js ExcelProcessorRest.

Definition test_location : Location := {|
  protocol := "https:";
  hostname := "app.example.com";
  port := "";
  origin := "https://app.example.com"
|}.

Definition page_with (api_base_url : Js.value) : Page := {|
  location := test_location;
  API_BASE_URL := api_base_url;
  param_api := VNull;
  param_apiBase := VNull;
  param_api_base := VNull;
  metaTag := None
|}.

Definition reachable_app (url : string) : Fetched :=
  if String.prefix "https://api.example.com" url then Rejected
  else if String.prefix "https://app.example.com" url then Responded true
  else Rejected.

Definition all_fail (url : string) : Fetched := Rejected.

End ApiBaseTest.

(* ===================================================================== *)
(** * Product distributions to run the chart rows on *)
(* ===================================================================== *)

Module ChartFixture.
Import Js.

Definition eight_products : list (string * number) :=
  [("A", Fin 10); ("B", Fin 20); ("C", Fin 30); ("D", Fin 40);
   ("E", Fin 50); ("F", Fin 60); ("G", Fin 70); ("H", Fin 80)].

(** The two smallest products cancel each other out. *)
Definition cancelling_products : list (string * number) :=
  [("A", Fin (-20)); ("B", Fin 20); ("C", Fin 30); ("D", Fin 40);
   ("E", Fin 50); ("F", Fin 60); ("G", Fin 70); ("H", Fin 80)].

(** A heat map of two deals and three cost types. *)
Definition heatmap_data : DealComparisonDashboardRest.HeatmapData :=
  {| DealComparisonDashboardRest.deal_ids := ["D1"; "D3"];
     DealComparisonDashboardRest.cost_types := ["INS"; "BLC"; "INA"];
     DealComparisonDashboardRest.matrix :=
       [[Some (-10); Some 0; None]; [None; None; Some (-10)]]%Q;
     DealComparisonDashboardRest.status_matrix :=
       [[Some "Unregistered"; Some "Registered"; None];
        [None; None; Some "Unregistered"]];
     DealComparisonDashboardRest.hover :=
       [[Some "D1 INS"; Some "D1 BLC"; None]; [None; None; Some "D3 INA"]] |}.

End ChartFixture.

(* ===================================================================== *)
(** * Theorems: validation of the uploaded workbook *)
(* ===================================================================== *)

Section ValidationFacts.
Import Js ExcelProcessor.

Lemma fails_throw_if (cond : bool) (err : Error) :
  fails (throw_if cond err) ↔ cond = true.
Proof.
  unfold fails, throw_if, throw. destruct cond; simpl.
  - split; [done | intros _; by eexists].
  - split; [intros [? ?]; discriminate | done].
Qed.

Lemma fails_seq (m k : result unit) :
  fails (m ;; k) ↔ fails m ∨ (m = inr () ∧ fails k).
Proof.
  unfold fails. destruct m as [err | []]; simpl.
  - split; [intros _; left; by eexists | intros _; by eexists].
  - split; [intros H; right; by split | intros [[? ?] | [_ H]]; by try discriminate].
Qed.

Lemma not_fails_unit (m : result unit) : ¬ fails m ↔ m = inr ().
Proof.
  unfold fails. destruct m as [err | []].
  - split; [intros H; destruct H; by eexists | discriminate].
  - split; [done | intros _ [? ?]; discriminate].
Qed.

Lemma fails_em {A} (m : result A) : fails m ∨ ¬ fails m.
Proof.
  destruct m; [left; by eexists | right; intros [? ?]; discriminate].
Qed.

Lemma str_or_else_decide (a b : string) :
  str_or_else a b = if decide (a = "") then b else a.
Proof.
  unfold str_or_else. destruct (String.eqb_spec a ""); by case_decide.
Qed.

Lemma no_sheet_true (wb : XLSX.WorkBook) (name : string) :
  no_sheet wb name = true ↔ XLSX.Sheets wb !! name = None.
Proof. unfold no_sheet. by rewrite bool_decide_eq_true. Qed.

(** The loop over the required columns throws exactly when one of them
    has an index beyond the last column of the range. *)
Lemma for_requiredColumns_fails (last : Z) (sheetName : string)
    (cols : list string) :
  fails (for_requiredColumns last sheetName cols) ↔
  ∃ col, col ∈ cols ∧ (last < XLSX.decode_col col)%Z.
Proof.
  induction cols as [| col cols IH]; simpl.
  - split; [intros [? ?]; discriminate | intros (? & Hin & _); inversion Hin].
  - rewrite fails_seq, fails_throw_if, IH, Z.ltb_lt. split.
    + intros [Hlt | [_ (col' & Hin & Hlt)]].
      * exists col. split; [left | done].
      * exists col'. split; [by right | done].
    + intros (col' & Hin & Hlt).
      destruct (decide (last < XLSX.decode_col col)%Z) as [Hc | Hc]; [by left |].
      right. split.
      * apply not_fails_unit. rewrite fails_throw_if, Z.ltb_lt. done.
      * apply elem_of_cons in Hin as [-> | Hin]; [done |]. by exists col'.
Qed.

Lemma validateSheetColumns_fails (wb : XLSX.WorkBook) (name : string)
    (sheet : XLSX.WorkSheet) (cols : list string) :
  XLSX.Sheets wb !! name = Some sheet → cols ≠ [] →
  (fails (validateSheetColumns wb name cols) ↔
   ∃ col, col ∈ cols ∧ beyond_range sheet col).
Proof.
  intros Hsheet Hne. unfold validateSheetColumns, beyond_range.
  rewrite Hsheet. destruct (XLSX.ref sheet) as [range |].
  - apply for_requiredColumns_fails.
  - split; [| intros _; by eexists].
    intros _. destruct cols as [| col cols]; [done |].
    exists col. split; [left | done].
Qed.

Lemma required_name_eq (wb : XLSX.WorkBook) (st : Settings) :
  str_or_else (rawSheet1Name st) (XLSX.name_at (XLSX.SheetNames wb) 0)
    = required_name wb st 0 ∧
  str_or_else (rawSheet2Name st) (XLSX.name_at (XLSX.SheetNames wb) 1)
    = required_name wb st 1 ∧
  str_or_else (rawSheet3Name st) (XLSX.name_at (XLSX.SheetNames wb) 2)
    = required_name wb st 2.
Proof. unfold required_name. by rewrite !str_or_else_decide. Qed.

Lemma lt_3_cases (i : nat) : i < 3 ↔ i = 0 ∨ i = 1 ∨ i = 2.
Proof. lia. Qed.

Lemma sheet_absent_iff (wb : XLSX.WorkBook) (st : Settings) :
  sheet_absent wb st ↔
  XLSX.Sheets wb !! required_name wb st 0 = None ∨
  XLSX.Sheets wb !! required_name wb st 1 = None ∨
  XLSX.Sheets wb !! required_name wb st 2 = None.
Proof.
  unfold sheet_absent. split.
  - intros (i & Hi & Hnone). apply lt_3_cases in Hi as [-> | [-> | ->]]; auto.
  - intros [H | [H | H]]; [exists 0 | exists 1 | exists 2]; split; auto; lia.
Qed.

Lemma column_absent_iff (wb : XLSX.WorkBook) (st : Settings)
    (s0 s1 s2 : XLSX.WorkSheet) :
  XLSX.Sheets wb !! required_name wb st 0 = Some s0 →
  XLSX.Sheets wb !! required_name wb st 1 = Some s1 →
  XLSX.Sheets wb !! required_name wb st 2 = Some s2 →
  (column_absent wb st ↔
   (∃ col, col ∈ requiredColumns1 ∧ beyond_range s0 col) ∨
   (∃ col, col ∈ requiredColumns2 ∧ beyond_range s1 col) ∨
   (∃ col, col ∈ requiredColumns3 ∧ beyond_range s2 col)).
Proof.
  intros H0 H1 H2. unfold column_absent. split.
  - intros (i & sheet & col & Hi & Hs & Hin & Hb).
    apply lt_3_cases in Hi as [-> | [-> | ->]]; simplify_eq; eauto.
  - intros [(col & Hin & Hb) | [(col & Hin & Hb) | (col & Hin & Hb)]].
    + exists 0, s0, col. auto.
    + exists 1, s1, col. split; [lia | auto].
    + exists 2, s2, col. split; [lia | auto].
Qed.

(** C1.  For every workbook and every setting of the sheet-name
    overrides, [validateFile] throws if and only if one of the three
    required sheets is absent from the workbook, or a mandatory column of
    a required sheet (B, AA, M, L, Q, AB, AD, AL, X, BZ for the primary
    sheet; N, AQ, AV for sheet 2; M, BR, CN for sheet 3) lies beyond the
    populated column range of that sheet, or the primary sheet has fewer
    than two rows; otherwise it returns normally. *)
Theorem validateFile_fails_iff (wb : XLSX.WorkBook) (st : Settings) :
  (fails (validateFile wb st) ↔
   sheet_absent wb st ∨ column_absent wb st ∨ too_few_rows wb st) ∧
  (validateFile wb st = inr () ↔
   ¬ (sheet_absent wb st ∨ column_absent wb st ∨ too_few_rows wb st)).
Proof.
  assert (Hiff : fails (validateFile wb st) ↔
    sheet_absent wb st ∨ column_absent wb st ∨ too_few_rows wb st).
  { unfold validateFile.
    destruct (required_name_eq wb st) as (-> & -> & ->).
    rewrite sheet_absent_iff. unfold too_few_rows.
    rewrite !fails_seq, <- !not_fails_unit, !fails_throw_if, !no_sheet_true,
      Nat.ltb_lt.
    destruct (XLSX.Sheets wb !! required_name wb st 0) as [s0 |] eqn:H0;
      [| split; intros _; auto].
    destruct (XLSX.Sheets wb !! required_name wb st 1) as [s1 |] eqn:H1;
      [| split; intros _; auto 6].
    destruct (XLSX.Sheets wb !! required_name wb st 2) as [s2 |] eqn:H2;
      [| split; intros _; auto 10].
    rewrite (column_absent_iff wb st s0 s1 s2 H0 H1 H2).
    rewrite <- (validateSheetColumns_fails wb _ s0 requiredColumns1 H0) by done.
    rewrite <- (validateSheetColumns_fails wb _ s1 requiredColumns2 H1) by done.
    rewrite <- (validateSheetColumns_fails wb _ s2 requiredColumns3 H2) by done.
    set (A := fails (validateSheetColumns wb (required_name wb st 0) requiredColumns1)).
    set (B := fails (validateSheetColumns wb (required_name wb st 1) requiredColumns2)).
    set (C := fails (validateSheetColumns wb (required_name wb st 2) requiredColumns3)).
    assert (HA : A ∨ ¬ A) by apply fails_em.
    assert (HB : B ∨ ¬ B) by apply fails_em.
    assert (HC : C ∨ ¬ C) by apply fails_em.
    split.
    - intros [? | [_ [? | [_ [? | [_ H]]]]]]; try discriminate.
      destruct H as [? | [_ [? | [_ [? | [_ ?]]]]]]; eauto 10.
    - intros [[? | [? | ?]] | [Hc | (sh & [= <-] & Hlen)]]; try discriminate;
        right; (split; [done |]); right; (split; [done |]); right;
        (split; [done |]); tauto. }
  split; [done |]. by rewrite <- not_fails_unit, Hiff.
Qed.

End ValidationFacts.

Section ValidationExamples.
Import Js ExcelProcessor Fixture.

Example decode_col_letters :
  map XLSX.decode_col ["A"; "Z"; "AA"; "AV"; "BZ"; "CN"] = [0; 25; 26; 47; 77; 91]%Z.
Proof. reflexivity. Qed.

Example test_data_valid : validateFile test_data default_settings = inr ().
Proof. vm_compute. reflexivity. Qed.

Example two_sheets_invalid :
  validateFile two_sheets default_settings = inl (MissingSheet 3 "undefined") ∧
  message (MissingSheet 3 "undefined")
    = "Raw Sheet 3 " +:+ quote +:+ "undefined" +:+ quote +:+ " not found".
Proof. vm_compute. split; reflexivity. Qed.

Example narrow_sheet_invalid :
  validateFile narrow_sheet default_settings
    = inl (MissingColumn "BZ" "position_list1039861856").
Proof. vm_compute. reflexivity. Qed.

End ValidationExamples.

(* ===================================================================== *)
(** * Theorems: the positional default of the sheet names *)
(* ===================================================================== *)

Section DefaultSheetFacts.
Import Js ExcelProcessor.

Lemma for_requiredColumns_not_MissingSheet (last : Z) (sheetName : string)
    (cols : list string) (n : nat) (name : string) :
  for_requiredColumns last sheetName cols ≠ inl (MissingSheet n name).
Proof.
  induction cols as [| col cols IH]; simpl; [discriminate |].
  destruct (last <? XLSX.decode_col col)%Z; simpl; [discriminate | done].
Qed.

Lemma validateSheetColumns_not_MissingSheet (wb : XLSX.WorkBook)
    (sheetName : string) (cols : list string) (n : nat) (name : string) :
  validateSheetColumns wb sheetName cols ≠ inl (MissingSheet n name).
Proof.
  unfold validateSheetColumns.
  destruct (XLSX.Sheets wb !! sheetName) as [sheet |]; [| discriminate].
  destruct (XLSX.ref sheet); [| discriminate].
  apply for_requiredColumns_not_MissingSheet.
Qed.

(** A missing-sheet error names a required sheet that has no entry. *)
Lemma validateFile_MissingSheet (wb : XLSX.WorkBook) (st : Settings)
    (n : nat) (name : string) :
  validateFile wb st = inl (MissingSheet n name) →
  ∃ i, i < 3 ∧ n = S i ∧ name = required_name wb st i ∧
       XLSX.Sheets wb !! name = None.
Proof.
  unfold validateFile.
  destruct (required_name_eq wb st) as (-> & -> & ->).
  destruct (no_sheet wb (required_name wb st 0)) eqn:H0; simpl.
  { intros [= <- <-]. apply no_sheet_true in H0. exists 0. auto with lia. }
  destruct (no_sheet wb (required_name wb st 1)) eqn:H1; simpl.
  { intros [= <- <-]. apply no_sheet_true in H1. exists 1. auto with lia. }
  destruct (no_sheet wb (required_name wb st 2)) eqn:H2; simpl.
  { intros [= <- <-]. apply no_sheet_true in H2. exists 2. auto with lia. }
  destruct (validateSheetColumns wb (required_name wb st 0) requiredColumns1)
    as [err | []] eqn:Hc0; simpl.
  { intros [= ->]. by apply validateSheetColumns_not_MissingSheet in Hc0. }
  destruct (validateSheetColumns wb (required_name wb st 1) requiredColumns2)
    as [err | []] eqn:Hc1; simpl.
  { intros [= ->]. by apply validateSheetColumns_not_MissingSheet in Hc1. }
  destruct (validateSheetColumns wb (required_name wb st 2) requiredColumns3)
    as [err | []] eqn:Hc2; simpl.
  { intros [= ->]. by apply validateSheetColumns_not_MissingSheet in Hc2. }
  unfold throw_if. by destruct (_ <? 2).
Qed.

Lemma required_name_cases (wb : XLSX.WorkBook) (st : Settings) (i : nat) :
  i < 3 →
  (required_name wb st i ≠ "" ∧
   required_name wb st i ∈
     [rawSheet1Name st; rawSheet2Name st; rawSheet3Name st]) ∨
  required_name wb st i = XLSX.name_at (XLSX.SheetNames wb) i.
Proof.
  intros Hi. unfold required_name.
  apply lt_3_cases in Hi as [-> | [-> | ->]]; case_decide; auto;
    left; (split; [done |]); set_solver.
Qed.

Lemma name_at_present (wb : XLSX.WorkBook) (i : nat) :
  XLSX.well_formed wb → i < length (XLSX.SheetNames wb) →
  is_Some (XLSX.Sheets wb !! XLSX.name_at (XLSX.SheetNames wb) i).
Proof.
  intros Hwf Hi. unfold XLSX.name_at.
  destruct (XLSX.SheetNames wb !! i) as [name |] eqn:Hname.
  - apply Hwf. by eapply list_elem_of_lookup_2.
  - apply lookup_ge_None in Hname. lia.
Qed.

(** C9.  In a workbook as [XLSX.read] returns it: without sheet-name
    overrides the three required sheets are the first, second and third
    sheet of the workbook, so validation behaves as if their names had
    been typed in; a workbook of at least three sheets then passes the
    sheet-presence check whatever its sheets are called; and a
    missing-sheet error is raised only when an explicit override names a
    sheet that is absent or the workbook has fewer than three sheets. *)
Theorem default_sheets_positional (wb : XLSX.WorkBook) (st : Settings) :
  XLSX.well_formed wb →
  (no_override st →
   ∀ n1 n2 n3 rest, XLSX.SheetNames wb = n1 :: n2 :: n3 :: rest →
     validateFile wb st =
     validateFile wb {| outputSheetName := outputSheetName st;
                        rawSheet1Name := n1;
                        rawSheet2Name := n2;
                        rawSheet3Name := n3;
                        dealColumnName := dealColumnName st |}) ∧
  (no_override st → 3 ≤ length (XLSX.SheetNames wb) →
   ∀ n name, validateFile wb st ≠ inl (MissingSheet n name)) ∧
  (∀ n name, validateFile wb st = inl (MissingSheet n name) →
     override_absent wb st ∨ length (XLSX.SheetNames wb) < 3).
Proof.
  intros Hwf.
  assert (Hmissing : ∀ n name, validateFile wb st = inl (MissingSheet n name) →
            override_absent wb st ∨ length (XLSX.SheetNames wb) < 3).
  { intros n name Herr.
    apply validateFile_MissingSheet in Herr as (i & Hi & _ & -> & Hnone).
    destruct (required_name_cases wb st i Hi) as [[Hne Hin] | Heq].
    - left. by exists (required_name wb st i).
    - right. destruct (decide (i < length (XLSX.SheetNames wb))) as [Hlt | Hge];
        [| lia].
      apply (name_at_present wb i Hwf) in Hlt as [sheet Hsheet].
      rewrite Heq in Hnone. congruence. }
  split; [| split; [| done]].
  - intros (H1 & H2 & H3) n1 n2 n3 rest Hnames.
    unfold validateFile. simpl. rewrite H1, H2, H3, Hnames.
    unfold XLSX.name_at. simpl. by rewrite !str_or_else_decide; repeat case_decide;
      subst.
  - intros (H1 & H2 & H3) Hlen n name Herr.
    destruct (Hmissing n name Herr) as [(name' & Hin & Hne & _) | Hlt]; [| lia].
    rewrite H1, H2, H3 in Hin.
    repeat (apply elem_of_cons in Hin as [-> | Hin]); try done.
    by apply elem_of_nil in Hin.
Qed.

(** The workbook of [create_test_excel.js] meets the hypothesis. *)
Lemma default_sheets_witness :
  XLSX.well_formed Fixture.test_data ∧
  no_override Fixture.default_settings ∧
  3 ≤ length (XLSX.SheetNames Fixture.test_data) ∧
  validateFile Fixture.test_data Fixture.default_settings
    ≠ inl (MissingSheet 1 "position_list1039861856").
Proof.
  assert (Hwf : XLSX.well_formed Fixture.test_data).
  { intros name Hin. simpl in Hin.
    repeat (apply elem_of_cons in Hin as [-> | Hin]);
      [vm_compute; eauto .. | by apply elem_of_nil in Hin]. }
  split; [exact Hwf |]. split; [done |]. split; [simpl; lia |].
  apply (default_sheets_positional Fixture.test_data Fixture.default_settings Hwf);
    [done | simpl; lia].
Defined.

End DefaultSheetFacts.

(* ===================================================================== *)
(** * Theorems: normalization of cell values *)
(* ===================================================================== *)

Section StringFacts.
Import Js.

Lemma trimStart_split (s : string) :
  ∃ l, s = l +:+ trimStart s ∧ all_chars isWhiteSpace l = true.
Proof.
  induction s as [| c s IH]; simpl.
  - by exists "".
  - destruct (isWhiteSpace c) eqn:Hc.
    + destruct IH as (l & Hs & Hl). exists (String c l). simpl.
      rewrite Hc, Hl. split; [| done].
      change (String c s = String c (l +:+ trimStart s)). by f_equal.
    + by exists "".
Qed.

Lemma trimStart_first (s : string) (c : ascii) :
  first_char (trimStart s) = Some c → isWhiteSpace c = false.
Proof.
  induction s as [| c' s IH]; simpl; [done |].
  destruct (isWhiteSpace c') eqn:Hc; [done |]. simpl. by intros [= <-].
Qed.

Lemma trimEnd_split (s : string) :
  ∃ r, s = trimEnd s +:+ r ∧ all_chars isWhiteSpace r = true.
Proof.
  induction s as [| c s IH]; simpl.
  - by exists "".
  - destruct IH as (r & Hs & Hr). destruct (trimEnd s) as [| c' t] eqn:Ht.
    + change (s = r) in Hs. subst r. destruct (isWhiteSpace c) eqn:Hc.
      * exists (String c s). simpl. rewrite Hc, Hr. done.
      * by exists s.
    + exists r. split; [| done].
      change (String c s = String c (String c' t +:+ r)). by f_equal.
Qed.

Lemma trimEnd_last (s : string) (c : ascii) :
  last_char (trimEnd s) = Some c → isWhiteSpace c = false.
Proof.
  induction s as [| c' s IH]; simpl; [done |].
  destruct (trimEnd s) as [| c'' t] eqn:Ht.
  - destruct (isWhiteSpace c') eqn:Hc; simpl; [done |]. by intros [= <-].
  - done.
Qed.

Lemma trimEnd_first (s : string) (c : ascii) :
  first_char (trimEnd s) = Some c → first_char s = Some c.
Proof.
  destruct s as [| c' s]; simpl; [done |].
  destruct (trimEnd s); [destruct (isWhiteSpace c') |]; simpl; done.
Qed.

(** [trim] removes white space, and only white space, from both ends. *)
Lemma trim_spec (s : string) :
  (∃ l r, s = l +:+ trim s +:+ r ∧
     all_chars isWhiteSpace l = true ∧ all_chars isWhiteSpace r = true) ∧
  (∀ c, first_char (trim s) = Some c ∨ last_char (trim s) = Some c →
     isWhiteSpace c = false).
Proof.
  unfold trim. split.
  - destruct (trimStart_split s) as (l & Hl & Hwl).
    destruct (trimEnd_split (trimStart s)) as (r & Hr & Hwr).
    exists l, r. by rewrite <- Hr, <- Hl.
  - intros c [Hc | Hc].
    + apply trimEnd_first in Hc. by eapply trimStart_first.
    + by eapply trimEnd_last.
Qed.

Lemma upper_char_not_lower (c : ascii) : isLower (upper_char c) = false.
Proof. by destruct c as [[] [] [] [] [] [] [] []]. Qed.

(** [toUpperCase] changes the lower-case letters, and nothing else. *)
Lemma toUpperCase_spec (s : string) :
  String.length (toUpperCase s) = String.length s ∧
  all_chars (λ c, negb (isLower c)) (toUpperCase s) = true ∧
  (∀ i, String.get i (toUpperCase s) = upper_char <$> String.get i s).
Proof.
  induction s as [| c s (IHlen & IHall & IHget)]; simpl.
  - split; [done |]. split; [done |]. by intros [].
  - rewrite IHlen, IHall, upper_char_not_lower. split; [done |]. split; [done |].
    intros [| i]; simpl; [done |]. apply IHget.
Qed.

End StringFacts.

Section NormalizeFacts.
Import Js ExcelProcessor.
Context `{Host}.

Lemma falsy_values (v : value) :
  truthy v = false ↔
  v = VUndefined ∨ v = VNull ∨ v = VStr "" ∨ v = VBool false ∨
  v = VNum NaN ∨ ∃ q, v = VNum (Fin q) ∧ (q == 0)%Q.
Proof.
  split.
  - destruct v as [| | [] | [| neg | q] | s | d]; simpl; try done; auto 10.
    + rewrite negb_false_iff. intros Hq%Qeq_bool_eq. right. eauto 10.
    + rewrite negb_false_iff. intros Hs%String.eqb_eq. subst. auto.
  - intros [-> | [-> | [-> | [-> | [-> | (q & -> & Hq)]]]]]; simpl; try done.
    rewrite negb_false_iff. by apply Qeq_eq_bool.
Qed.


End NormalizeFacts.

Section NormalizeExamples.
Import Js ExcelProcessor Fixture.


Example normalize_text : normalize (VStr "  midlands ") = "MIDLANDS".
Proof. reflexivity. Qed.

Example normalize_number : normalize (VNum (Fin 1042)) = "1042".
Proof. reflexivity. Qed.

Example normalize_false : normalize (VBool false) = "".
Proof. reflexivity. Qed.

End NormalizeExamples.

(* ===================================================================== *)
(** * Theorems: the date presets *)
(* ===================================================================== *)

Section PresetFacts.
Import Js ExcelProcessor.

Lemma no_preset_true (preset : option string) :
  no_preset preset = true ↔ preset = None ∨ preset = Some "".
Proof.
  destruct preset as [s |]; simpl.
  - rewrite String.eqb_eq. split; [intros ->; by right | by intros [? | [= ->]]].
  - split; [by left | done].
Qed.

Lemma date_and_None (d : option Date) (p : Date → bool) :
  date_and d p = true → d ≠ None.
Proof. by destruct d. Qed.

(** [parseDate] answers [null] for a falsy cell and for a cell, other
    than a number, that the [Date] constructor turns into an invalid
    date. *)
Lemma parseDate_None `{Host} (v : value) :
  parseDate v = None ↔
  truthy v = false ∨
  ((∀ n, v ≠ VNum n) ∧ invalid_date (new_Date v) = true).
Proof.
  unfold parseDate. destruct (truthy v) eqn:Hv; simpl; [| by split; [left |]].
  assert (Hobj : (∀ n, v ≠ VNum n) →
            (if invalid_date (new_Date v) then None else Some (new_Date v)) = None
            ↔ false = true ∨ (∀ n, v ≠ VNum n) ∧ invalid_date (new_Date v) = true).
  { intros Hn. destruct (invalid_date (new_Date v)).
    - split; [intros _; right; by split | done].
    - split; [done | intros [? | [_ ?]]; done]. }
  assert (Hsym : ∀ P : Prop, (true = false ∨ P) ↔ (false = true ∨ P))
    by (intros P; split; intros [? | ?]; by auto).
  destruct v as [| | b | n | s | d]; try done;
    try (rewrite Hsym; by apply Hobj).
  split; [done |]. intros [? | [Hn _]]; [done |]. by destruct (Hn n).
Qed.

(** C10.  For every date preset the records returned are a subsequence
    of the raw records; the preset ['ALL'], an empty preset and every
    unrecognized preset return all records unchanged; a record whose date
    is [null] is in none of the results for ['MTD'], ['YTD'] and
    ['QTD']. *)
Theorem getRecordsByPreset_spec (now : Date) (this : Processor)
    (preset : option string) :
  let all := default [] (rawRecords this) in
  let result := getRecordsByPreset now this preset in
  result `sublist_of` all ∧
  (preset = Some "ALL" ∨ preset = None ∨ preset = Some "" ∨
   preset ∉ [Some "MTD"; Some "YTD"; Some "QTD"] → result = all) ∧
  (preset ∈ [Some "MTD"; Some "YTD"; Some "QTD"] →
   ∀ r, date r = None → r ∉ result).
Proof.
  intros all result. subst result. unfold getRecordsByPreset. fold all.
  destruct (no_preset preset || bool_decide (preset = Some "ALL")) eqn:Hall.
  { split; [done |]. split; [done |]. intros Hin.
    apply orb_true_iff in Hall as [Hno | Heq].
    - apply no_preset_true in Hno as [-> | ->];
        repeat (apply elem_of_cons in Hin as [? | Hin]; [done |]);
        by apply elem_of_nil in Hin.
    - apply bool_decide_eq_true in Heq as ->.
      repeat (apply elem_of_cons in Hin as [? | Hin]; [done |]);
        by apply elem_of_nil in Hin. }
  apply orb_false_iff in Hall as [Hno Hne].
  apply bool_decide_eq_false in Hne.
  assert (Hno' : preset ≠ None ∧ preset ≠ Some "").
  { split; intros ->; by simpl in Hno. }
  destruct Hno' as [HnN HnE].
  repeat case_bool_decide; subst.
  - split; [apply sublist_filter |]. split.
    + intros [? | [? | [? | Hnot]]]; try done. destruct Hnot. set_solver.
    + intros _ r Hnone Hin. apply list_elem_of_filter in Hin as [Hd _].
      apply Is_true_true, date_and_None in Hd. done.
  - split; [apply sublist_filter |]. split.
    + intros [? | [? | [? | Hnot]]]; try done. destruct Hnot. set_solver.
    + intros _ r Hnone Hin. apply list_elem_of_filter in Hin as [Hd _].
      apply Is_true_true, date_and_None in Hd. done.
  - split; [apply sublist_filter |]. split.
    + intros [? | [? | [? | Hnot]]]; try done. destruct Hnot. set_solver.
    + intros _ r Hnone Hin. apply list_elem_of_filter in Hin as [Hd _].
      apply Is_true_true, date_and_None in Hd. done.
  - split; [done |]. split; [done |]. intros Hin.
    repeat (apply elem_of_cons in Hin as [? | Hin]; [done |]).
    by apply elem_of_nil in Hin.
Qed.

End PresetFacts.

(* ===================================================================== *)
(** * Theorems: the rows behind the dashboard metrics *)
(* ===================================================================== *)

Section MetricsFacts.
Import Js ExcelProcessor.

Lemma num_or_else_truthy (n : number) :
  num_truthy (num_or_else n (Fin 0)) = num_truthy n.
Proof. unfold num_or_else. by destruct (num_truthy n) eqn:Hn. Qed.

Lemma num_or_else_id (n : number) :
  num_truthy n = true → num_or_else n (Fin 0) = n.
Proof. unfold num_or_else. by intros ->. Qed.

Lemma filter_bool_cons {A} (f : A → bool) (x : A) (l : list A) :
  filter f (x :: l) = if f x then x :: filter f l else filter f l.
Proof. rewrite filter_cons. case_decide as Hd; by destruct (f x). Qed.

(** The two filters of [calculateDashboardMetrics] keep the rows that
    count. *)
Lemma records_of_rows `{Host} (rows : list (list value)) :
  filter has_product_and_volume
    (map record_of_row (filter (λ row, 0 <? length row) rows)) =
  map record_of_row (filter included rows).
Proof.
  induction rows as [| row rows IH]; [done |].
  rewrite !(filter_bool_cons _ row). unfold included at 1.
  destruct (0 <? length row) eqn:Hlen; simpl; [| done].
  rewrite filter_bool_cons, IH. unfold has_product_and_volume at 1.
  unfold row_product, row_quantity. simpl. rewrite num_or_else_truthy.
  by destruct (negb _ && _).
Qed.

(** The accumulators after the [forEach] over [records]. *)
Lemma totals_of_records (records : list RawRecord) (acc : Totals) :
  let acc' := foldl add_record acc records in
  uniqueDeals acc' = deals_of records ∪ uniqueDeals acc ∧
  sumVolume acc' = foldl num_add (sumVolume acc) (map volume records) ∧
  (∀ p, is_Some (distribution acc' !! p) ↔
     is_Some (distribution acc !! p) ∨ ∃ r, r ∈ records ∧ product r = p).
Proof.
  revert acc. induction records as [| r records IH]; intros acc; simpl.
  - split; [unfold deals_of; simpl; by rewrite (left_id_L ∅ (∪)) |].
    split; [done |].
    intros p. split; [by left |]. intros [? | (r & Hin & _)]; [done |].
    by apply elem_of_nil in Hin.
  - destruct (IH (add_record acc r)) as (Hdeals & Hsum & Hdist).
    split; [| split; [done |]].
    + rewrite Hdeals. unfold deals_of. simpl. rewrite filter_cons.
      destruct (String.eqb_spec (deal r) ""); case_decide; try done.
      simpl. rewrite (comm_L (∪) {[deal r]} (list_to_set _)).
      by rewrite (assoc_L (∪)).
    + intros p. rewrite Hdist. simpl. rewrite lookup_insert_is_Some'.
      setoid_rewrite elem_of_cons. split.
      * intros [[<- | ?] | (r' & ? & ?)]; eauto 10.
      * intros [? | (r' & [-> | ?] & <-)]; eauto 10.
Qed.

Lemma included_true `{Host} (row : list value) :
  included row = true ↔
  row ≠ [] ∧ row_product row ≠ "" ∧
  ((∃ negative, row_quantity row = Infinity negative) ∨
   (∃ q, row_quantity row = Fin q ∧ ¬ (q == 0)%Q)).
Proof.
  unfold included. rewrite !andb_true_iff, Nat.ltb_lt, negb_true_iff.
  rewrite <- not_true_iff_false, String.eqb_eq.
  assert (Hlen : 0 < length row ↔ row ≠ [])
    by (destruct row; simpl; split; intros ?; try done; lia).
  assert (Hq : num_truthy (row_quantity row) = true ↔
            (∃ negative, row_quantity row = Infinity negative) ∨
            (∃ q, row_quantity row = Fin q ∧ ¬ (q == 0)%Q)).
  { destruct (row_quantity row) as [| negative | q]; simpl.
    - split; [done | intros [[? ?] | (? & ? & _)]; done].
    - split; [intros _; left; by eexists | done].
    - rewrite negb_true_iff, <- not_true_iff_false, Qeq_bool_iff. split.
      + intros Hq. right. by exists q.
      + intros [[? ?] | (q' & [= <-] & ?)]; done. }
  rewrite Hlen, Hq. tauto.
Qed.


End MetricsFacts.

Section MetricsExamples.
Import Js ExcelProcessor Fixture.



Example test_data_metrics :
  let after := calculateDashboardMetrics a_day default_settings (loaded test_data) in
  map product (filteredRecords after) = ["PROD001"; "MIDLANDS"; "PROD003"] ∧
  totalDeals (summaryMetrics after) = 3 ∧
  totalVolume (summaryMetrics after) = Fin 450 ∧
  productDistribution (summaryMetrics after) !! "MIDLANDS" = Some (Fin 200).
Proof. vm_compute. repeat split. Qed.

End MetricsExamples.

(* ===================================================================== *)
(** * Theorems: [Array.prototype.sort] with a descending numeric key *)
(* ===================================================================== *)

Section SortFacts.
Context {A : Type} (key : A → Q).

Local Abbreviation desc := (Js.desc key).
Local Abbreviation desc_order := (Js.desc_order key).

Lemma desc_true (a b : A) : desc a b = true ↔ (key a < key b)%Q.
Proof.
  unfold Js.desc. rewrite negb_true_iff, <- not_true_iff_false, Qle_bool_iff.
  split.
  - intros H. apply Qnot_le_lt in H. apply Qlt_minus_iff. done.
  - intros H Hle. apply Qlt_minus_iff in H. by apply Qlt_not_le in H.
Qed.

Lemma desc_false (a b : A) : desc a b = false ↔ (key b <= key a)%Q.
Proof.
  rewrite <- not_true_iff_false, desc_true. split.
  - apply Qnot_lt_le.
  - intros H Hlt. by apply Qlt_not_le in Hlt.
Qed.

Lemma sort_insert_Permutation (x : A) (l : list A) :
  Js.sort_insert desc x l ≡ₚ x :: l.
Proof.
  induction l as [| y l IH]; simpl; [done |].
  destruct (desc x y); [| done].
  rewrite IH. apply perm_swap.
Qed.

Lemma sort_Permutation (l : list A) : Js.sort desc l ≡ₚ l.
Proof.
  induction l as [| x l IH]; simpl; [done |].
  unfold Js.sort in *. simpl. by rewrite sort_insert_Permutation, IH.
Qed.

Lemma sort_insert_sorted (x : A) (l : list A) :
  StronglySorted desc_order l → StronglySorted desc_order (Js.sort_insert desc x l).
Proof.
  induction 1 as [| y l Hsorted IH Hall]; simpl.
  - repeat constructor.
  - destruct (desc x y) eqn:Hxy.
    + constructor; [done |].
      apply Forall_forall. intros z Hz.
      rewrite sort_insert_Permutation in Hz.
      apply elem_of_cons in Hz as [-> | Hz].
      * apply desc_true in Hxy. by apply Qlt_le_weak.
      * by eapply Forall_forall in Hall.
    + apply desc_false in Hxy.
      constructor; [by constructor |].
      constructor; [done |].
      apply Forall_forall. intros z Hz.
      eapply Forall_forall in Hall; [| done].
      unfold Js.desc_order in *. by eapply Qle_trans.
Qed.

Lemma sort_sorted (l : list A) : StronglySorted desc_order (Js.sort desc l).
Proof.
  induction l as [| x l IH]; [constructor |].
  by apply sort_insert_sorted.
Qed.

(** The first [n] elements of a descending list dominate the others. *)
Lemma sorted_take_drop (n : nat) (l : list A) :
  StronglySorted desc_order l →
  ∀ a b, a ∈ take n l → b ∈ drop n l → desc_order a b.
Proof.
  intros Hsorted. revert n.
  induction Hsorted as [| y l Hsorted IH Hall]; intros n a b Ha Hb.
  - rewrite take_nil in Ha. by apply elem_of_nil in Ha.
  - destruct n as [| n]; simpl in *; [by apply elem_of_nil in Ha |].
    apply elem_of_cons in Ha as [-> | Ha]; [| by eapply IH].
    eapply Forall_forall in Hall; [done |].
    by eapply subseteq_drop.
Qed.

Lemma sorted_take (n : nat) (l : list A) :
  StronglySorted desc_order l → StronglySorted desc_order (take n l).
Proof.
  intros Hsorted. rewrite <- (take_drop n l) in Hsorted.
  by apply StronglySorted_app_1_l in Hsorted.
Qed.

End SortFacts.

Lemma Forall_filter_keep {A} (P : A → Prop) (Q : A → Prop)
    `{∀ x, Decision (Q x)} (l : list A) :
  Forall P l → Forall P (filter Q l).
Proof.
  rewrite !Forall_forall. intros HP x Hin.
  apply list_elem_of_filter in Hin as [_ Hin]. by apply HP.
Qed.

(* ===================================================================== *)
(** * Theorems: the variance selection of the comparison dashboard *)
(* ===================================================================== *)

Section VarianceFacts.
Import Js DealComparisonDashboard.

Local Abbreviation diff := (λ deal : Deal.t, num (Deal.difference deal)).

Lemma positive_difference_true (deal : Deal.t) :
  positive_difference deal = true ↔ (0 < diff deal)%Q.
Proof.
  unfold positive_difference.
  rewrite negb_true_iff, <- not_true_iff_false, Qle_bool_iff. split.
  - apply Qnot_le_lt.
  - intros H Hle. by apply Qlt_not_le in H.
Qed.

Lemma getFilteredDeals_selected (data : AnalysisData) (all : list Deal.t)
    (filters : Filters) :
  deals data = Some all →
  Forall (selected_from all) (getFilteredDeals (Some data) filters).
Proof.
  intros Hall. unfold getFilteredDeals. simpl. rewrite Hall.
  set (copies := map _ all).
  assert (Hpos : Forall (selected_from all) (filter positive_difference copies)).
  { apply Forall_forall. intros deal Hin.
    apply list_elem_of_filter in Hin as [Hp Hin].
    apply Is_true_true, positive_difference_true in Hp.
    apply list_elem_of_fmap in Hin as (deal0 & -> & Hin0).
    split; [done |]. by exists deal0. }
  assert (Hsel : Forall (selected_from all)
            (if bool_decide (size (filter_deals filters) ≠ 0)
             then filter (λ deal, Deal.deal_id deal ∈ filter_deals filters)
                    (filter positive_difference copies)
             else filter positive_difference copies)).
  { case_bool_decide; [| done]. by apply Forall_filter_keep. }
  destruct (bool_decide (size (filter_costTypes filters) ≠ 0)); [| done].
  apply Forall_filter_keep, Forall_fmap.
  eapply Forall_impl; [exact Hsel |].
  intros deal [Hp (deal0 & ? & ? & ?)]. split; [done |]. by exists deal0.
Qed.


End VarianceFacts.

(* ===================================================================== *)
(** * Theorems: the aggregation of unregistered costs *)
(* ===================================================================== *)

Section RegistryFacts.
Import Js DealComparisonDashboard.
Context {V : Type}.
Implicit Types (m : list (string * V)) (k : string) (v : V).

Lemma map_get_set_eq m k v : map_get k (map_set k v m) = Some v.
Proof.
  induction m as [| [k' v'] m IH]; simpl.
  - by rewrite String.eqb_refl.
  - destruct (String.eqb_spec k' k) as [-> | Hne]; simpl.
    + by rewrite String.eqb_refl.
    + by destruct (String.eqb_spec k' k).
Qed.

Lemma map_get_set_ne m k k' v :
  k ≠ k' → map_get k' (map_set k v m) = map_get k' m.
Proof.
  intros Hne. induction m as [| [k0 v0] m IH]; simpl.
  - by destruct (String.eqb_spec k k').
  - destruct (String.eqb_spec k0 k) as [-> | Hne0]; simpl.
    + by destruct (String.eqb_spec k k').
    + by rewrite IH.
Qed.

Lemma map_get_Some_elem_of m k v : map_get k m = Some v → (k, v) ∈ m.
Proof.
  induction m as [| [k' v'] m IH]; simpl; [done |].
  destruct (String.eqb_spec k' k) as [-> | Hne].
  - intros [= ->]. left.
  - intros H. right. by apply IH.
Qed.

Lemma map_get_None_keys m k : map_get k m = None ↔ k ∉ map fst m.
Proof.
  induction m as [| [k' v'] m IH]; simpl.
  - split; [intros _; apply not_elem_of_nil | done].
  - rewrite not_elem_of_cons. destruct (String.eqb_spec k' k) as [-> | Hne].
    + split; [done | intros [? _]; done].
    + rewrite IH. split; [intros ?; split; [done | done] | by intros [_ ?]].
Qed.

Lemma elem_of_map_get m k v :
  NoDup (map fst m) → (k, v) ∈ m → map_get k m = Some v.
Proof.
  induction m as [| [k' v'] m IH]; simpl; intros Hnd Hin.
  - by apply elem_of_nil in Hin.
  - apply NoDup_cons in Hnd as [Hk' Hnd].
    apply elem_of_cons in Hin as [[= -> ->] | Hin].
    + by rewrite String.eqb_refl.
    + destruct (String.eqb_spec k' k) as [-> | Hne]; [| by apply IH].
      destruct Hk'. apply list_elem_of_fmap. by exists (k, v).
Qed.

Lemma map_set_keys m k v :
  map fst (map_set k v m) =
  if map_get k m is Some _ then map fst m else map fst m ++ [k].
Proof.
  induction m as [| [k' v'] m IH]; simpl; [done |].
  destruct (String.eqb_spec k' k) as [-> | Hne]; simpl; [done |].
  rewrite IH. by destruct (map_get k m).
Qed.

Lemma map_set_NoDup m k v :
  NoDup (map fst m) → NoDup (map fst (map_set k v m)).
Proof.
  intros Hnd. rewrite map_set_keys.
  destruct (map_get k m) eqn:Hget; [done |].
  apply NoDup_app. split; [done |]. split; [| apply NoDup_singleton].
  intros k' Hin Hk. apply list_elem_of_singleton in Hk as ->.
  by apply map_get_None_keys in Hget.
Qed.

End RegistryFacts.

Section AggregationFacts.
Import Js DealComparisonDashboard.

Local Abbreviation of_type k := (λ dc : string * Cost.t, Cost.cost_type dc.2 = k).
Local Abbreviation is_unregistered :=
  (λ dc : string * Cost.t, Cost.status dc.2 = "Unregistered").

(** The two nested loops visit the Unregistered comparisons in order. *)
Lemma register_deal_pairs (registry : list (string * Unregistered))
    (id : string) (costs : list Cost.t) :
  foldl (register_cost id) registry costs =
  foldl register_pair registry
    (map (pair id) (filter (λ cost, Cost.status cost = "Unregistered") costs)).
Proof.
  revert registry. induction costs as [| cost costs IH]; intros registry; [done |].
  simpl. rewrite filter_cons. case_decide as Hst.
  - simpl. by rewrite IH.
  - rewrite IH. f_equal. unfold register_cost.
    by destruct (String.eqb_spec (Cost.status cost) "Unregistered").
Qed.

Lemma registry_pairs (registry : list (string * Unregistered))
    (deals : list Deal.t) :
  foldl register_deal registry deals =
  foldl register_pair registry (unregistered_costs deals).
Proof.
  revert registry. induction deals as [| deal deals IH]; intros registry; [done |].
  unfold unregistered_costs in *. rewrite bind_cons, foldl_app, <- IH.
  simpl. f_equal.
  unfold register_deal. by rewrite register_deal_pairs.
Qed.

Lemma unregistered_costs_status (deals : list Deal.t) :
  Forall is_unregistered (unregistered_costs deals).
Proof.
  unfold unregistered_costs. apply Forall_forall. intros [id cost] Hin.
  apply list_elem_of_bind in Hin as (deal & Hin & _).
  apply list_elem_of_bind in Hin as (cost' & Hin & Hcost).
  apply list_elem_of_singleton in Hin. simplify_eq.
  by apply list_elem_of_filter in Hcost as [? _].
Qed.

Lemma elem_of_unregistered_costs (deals : list Deal.t) (id : string)
    (cost : Cost.t) :
  (id, cost) ∈ unregistered_costs deals ↔
  ∃ deal, deal ∈ deals ∧ Deal.deal_id deal = id ∧
    cost ∈ default [] (Deal.costs deal) ∧ Cost.status cost = "Unregistered".
Proof.
  unfold unregistered_costs. rewrite list_elem_of_bind. split.
  - intros (deal & Hin & Hdeal).
    apply list_elem_of_bind in Hin as (cost' & Hin & Hcost).
    apply list_elem_of_singleton in Hin. simplify_eq.
    apply list_elem_of_filter in Hcost as [? ?]. by exists deal.
  - intros (deal & Hdeal & <- & Hcost & Hst). exists deal. split; [| done].
    apply list_elem_of_bind. exists cost. split; [by left |].
    by apply list_elem_of_filter.
Qed.

(** What the registry holds under a key after the loops have visited the
    comparisons [ps]. *)
Lemma registry_get (ps : list (string * Cost.t)) (k : string) :
  Forall is_unregistered ps →
  map_get k (foldl register_pair [] ps) =
  if decide (filter (of_type k) ps = []) then None
  else Some (entry_of k (filter (of_type k) ps)).
Proof.
  induction ps as [| [id cost] ps IH] using rev_ind; intros Hst; [done |].
  apply Forall_app in Hst as [Hps Hp]. apply Forall_cons in Hp as [Hp _].
  simpl in Hp.
  specialize (IH Hps).
  rewrite foldl_app, filter_app. simpl.
  unfold register_pair at 1. simpl. unfold register_cost.
  rewrite Hp. simpl.
  rewrite filter_cons, filter_nil. simpl.
  destruct (decide (Cost.cost_type cost = k)) as [-> | Hne].
  - rewrite map_get_set_eq, IH.
    case_decide as Hnil; [| clear Hnil]; case_decide as Hnil'.
    + by apply app_eq_nil in Hnil' as [_ ?].
    + rewrite Hnil. done.
    + by apply app_eq_nil in Hnil' as [_ ?].
    + simpl. unfold entry_of, total_impact, distinct_ids.
      by rewrite !foldl_app.
  - rewrite map_get_set_ne by done. by rewrite app_nil_r.
Qed.

Lemma registry_NoDup (ps : list (string * Cost.t)) :
  NoDup (map fst (foldl register_pair [] ps)).
Proof.
  induction ps as [| [id cost] ps IH] using rev_ind; [constructor |].
  rewrite foldl_app. simpl. unfold register_pair at 1, register_cost. simpl.
  destruct (String.eqb _ _); [| done]. by apply map_set_NoDup.
Qed.

Lemma set_add_NoDup (x : string) (set : list string) :
  NoDup set → NoDup (set_add x set).
Proof.
  intros Hnd. unfold set_add. case_bool_decide; [done |].
  apply NoDup_app. split; [done |]. split; [| apply NoDup_singleton].
  intros y Hy Hx. by apply list_elem_of_singleton in Hx as ->.
Qed.

Lemma elem_of_set_add (x y : string) (set : list string) :
  y ∈ set_add x set ↔ y = x ∨ y ∈ set.
Proof.
  unfold set_add. case_bool_decide.
  - split; [by right | intros [-> | ?]; done].
  - rewrite elem_of_app, list_elem_of_singleton. tauto.
Qed.

Lemma distinct_ids_NoDup (costs : list (string * Cost.t)) :
  NoDup (distinct_ids costs).
Proof.
  unfold distinct_ids.
  induction costs as [| dc costs IH] using rev_ind; [constructor |].
  rewrite foldl_app. simpl. by apply set_add_NoDup.
Qed.

Lemma elem_of_distinct_ids (costs : list (string * Cost.t)) (id : string) :
  id ∈ distinct_ids costs ↔ ∃ cost, (id, cost) ∈ costs.
Proof.
  unfold distinct_ids.
  induction costs as [| [id' cost'] costs IH] using rev_ind.
  - simpl. split; [intros H; by apply elem_of_nil in H |].
    intros [? H]. by apply elem_of_nil in H.
  - rewrite foldl_app. simpl. rewrite elem_of_set_add, IH.
    setoid_rewrite elem_of_app. setoid_rewrite list_elem_of_singleton.
    split.
    + intros [-> | [cost ?]]; [exists cost' | exists cost]; auto.
    + intros [cost [? | [= -> ->]]]; [right; by exists cost | by left].
Qed.

Lemma filter_of_type_nonempty (ps : list (string * Cost.t)) (k : string) :
  filter (of_type k) ps ≠ [] ↔ ∃ id cost, (id, cost) ∈ ps ∧ Cost.cost_type cost = k.
Proof.
  split.
  - intros Hne. destruct (filter (of_type k) ps) as [| [id cost] l] eqn:Hf; [done |].
    assert (Hin : (id, cost) ∈ filter (of_type k) ps) by (rewrite Hf; left).
    apply list_elem_of_filter in Hin as [? ?]. by exists id, cost.
  - intros (id & cost & Hin & Hk) Hnil.
    assert (Hin' : (id, cost) ∈ filter (of_type k) ps)
      by by apply list_elem_of_filter.
    rewrite Hnil in Hin'. by apply elem_of_nil in Hin'.
Qed.

(** The entries of the registry are the entries of the cost types that
    have an Unregistered comparison. *)
Lemma registry_entries (deals : list Deal.t) (k : string) (entry : Unregistered) :
  (k, entry) ∈ foldl register_deal [] deals ↔
  unregistered_of k deals ≠ [] ∧ entry = entry_of k (unregistered_of k deals).
Proof.
  rewrite registry_pairs. unfold unregistered_of.
  pose proof (registry_get (unregistered_costs deals) k
                (unregistered_costs_status deals)) as Hget.
  split.
  - intros Hin. apply elem_of_map_get in Hin; [| apply registry_NoDup].
    rewrite Hget in Hin. case_decide; [done |]. by simplify_eq.
  - intros [Hne ->]. apply map_get_Some_elem_of. rewrite Hget.
    by case_decide.
Qed.

(** C6.  For every list of reconciliation deals, [aggregateUnregistered]
    returns exactly one entry per cost type that has at least one cost
    comparison with status Unregistered.  The entry carries the distinct
    ids of the deals on which that cost type is Unregistered, a deal count
    equal to their number, and an impact equal to the sum of the absolute
    differences of those comparisons; the entries are in order of
    descending impact. *)
Theorem aggregateUnregistered_spec (deals : list Deal.t) :
  let result := aggregateUnregistered deals in
  NoDup (map u_cost_type result) ∧
  (∀ ct, ct ∈ map u_cost_type result ↔
     ∃ deal cost, deal ∈ deals ∧ cost ∈ default [] (Deal.costs deal) ∧
       Cost.status cost = "Unregistered" ∧ Cost.cost_type cost = ct) ∧
  (∀ entry, entry ∈ result →
     NoDup (u_deals entry) ∧
     (∀ id, id ∈ u_deals entry ↔
        ∃ deal cost, deal ∈ deals ∧ Deal.deal_id deal = id ∧
          cost ∈ default [] (Deal.costs deal) ∧
          Cost.status cost = "Unregistered" ∧
          Cost.cost_type cost = u_cost_type entry) ∧
     deal_count entry = length (u_deals entry) ∧
     impact entry = total_impact (unregistered_of (u_cost_type entry) deals)) ∧
  StronglySorted (λ a b, (impact b <= impact a)%Q) result.
Proof.
  intros result.
  set (registry := foldl register_deal [] deals).
  assert (Hperm : result ≡ₚ map snd registry) by apply (sort_Permutation impact).
  assert (Htype : map u_cost_type (map snd registry) = map fst registry).
  { rewrite <- list_fmap_compose. apply list_fmap_ext.
    intros i [k entry] Hi. apply list_elem_of_lookup_2 in Hi.
    apply registry_entries in Hi as [_ ->]. done. }
  assert (Hentry : ∀ entry, entry ∈ result →
            unregistered_of (u_cost_type entry) deals ≠ [] ∧
            entry = entry_of (u_cost_type entry)
                      (unregistered_of (u_cost_type entry) deals)).
  { intros entry Hin. rewrite Hperm in Hin.
    apply list_elem_of_fmap in Hin as ([k entry'] & -> & Hin).
    apply registry_entries in Hin as [Hne Heq]. simpl.
    assert (Hk : u_cost_type entry' = k) by by rewrite Heq.
    by rewrite Hk. }
  split.
  { rewrite Hperm, Htype. subst registry. rewrite registry_pairs.
    apply registry_NoDup. }
  split.
  { intros ct. rewrite Hperm, Htype. split.
    - intros Hin. apply list_elem_of_fmap in Hin as ([k entry] & -> & Hin).
      apply registry_entries in Hin as [Hne _].
      apply filter_of_type_nonempty in Hne as (id & cost & Hin & Hk).
      apply elem_of_unregistered_costs in Hin as (deal & ? & ? & ? & ?).
      by exists deal, cost.
    - intros (deal & cost & Hdeal & Hcost & Hst & Hk).
      apply list_elem_of_fmap.
      exists (ct, entry_of ct (unregistered_of ct deals)). split; [done |].
      apply registry_entries. split; [| done].
      apply filter_of_type_nonempty. exists (Deal.deal_id deal), cost.
      split; [| done]. apply elem_of_unregistered_costs. by exists deal. }
  split.
  { intros entry Hin. destruct (Hentry entry Hin) as [Hne Heq].
    remember (u_cost_type entry) as k eqn:Hk. clear Hk Hin.
    subst entry. simpl.
    split; [apply distinct_ids_NoDup |].
    split; [| done].
    intros id. rewrite elem_of_distinct_ids.
    unfold unregistered_of. split.
    - intros (cost & Hc). apply list_elem_of_filter in Hc as [Hk Hc].
      apply elem_of_unregistered_costs in Hc as (deal & ? & ? & ? & ?).
      by exists deal, cost.
    - intros (deal & cost & ? & ? & ? & ? & ?). exists cost.
      apply list_elem_of_filter. split; [done |].
      apply elem_of_unregistered_costs. by exists deal. }
  apply (sort_sorted impact).
Qed.

End AggregationFacts.

Section AggregationExamples.
Import Js DealComparisonDashboard Fixture.

Example analysis_topDeals :
  map Deal.deal_id (topDeals (getFilteredDeals (Some analysis) no_filters))
    = ["D3"; "D1"; "D1"].
Proof. vm_compute. reflexivity. Qed.

Example analysis_unregistered :
  aggregateUnregistered (default [] (deals analysis))
    = [ {| u_cost_type := "INS"; impact := 490; deal_count := 2;
           u_deals := ["D1"; "D2"] |};
        {| u_cost_type := "INA"; impact := 350; deal_count := 1;
           u_deals := ["D3"] |} ].
Proof. vm_compute. reflexivity. Qed.

End AggregationExamples.

(* ===================================================================== *)
(** * Theorems: the rule engine of the server *)
(* ===================================================================== *)

Section RuleFacts.
Import Js Backend.

Lemma assign_locked (c c' : column) (v : option Q) (row : OutputRow) :
  locked (assign c v row) c' = locked row c'.
Proof. unfold assign. by destruct (locked row c). Qed.

(** A locked cell keeps its value under assignment. *)
Lemma assign_locked_cell (c c' : column) (v : option Q) (row : OutputRow) :
  locked row c' = true → cells (assign c v row) c' = cells row c'.
Proof.
  intros Hl. unfold assign. destruct (locked row c) eqn:Hc; [done |].
  simpl. case_decide; [congruence | done].
Qed.

Lemma zero_and_lock_all : zeroed (zero_and_lock columns_E_to_K blank_row).
Proof. intros c. by destruct c. Qed.

Lemma rule1_midlands (raw : RawDealRecord) (idx : Indexes) :
  normalized (product raw) = "MIDLANDS" → zeroed (rule1 raw idx blank_row).
Proof. intros Hp. unfold rule1. rewrite Hp. apply zero_and_lock_all. Qed.

Lemma assign_zeroed (c : column) (v : option Q) (row : OutputRow) :
  zeroed row → zeroed (assign c v row).
Proof.
  intros Hz c'. destruct (Hz c') as [Hc Hl].
  by rewrite assign_locked, assign_locked_cell.
Qed.

Lemma lock_zeroed (c : column) (row : OutputRow) : zeroed row → zeroed (lock c row).
Proof.
  intros Hz c'. destruct (Hz c') as [Hc Hl]. simpl. split; [done |].
  by case_decide.
Qed.

Lemma zero_and_lock_zeroed (cs : list column) (row : OutputRow) :
  zeroed row → zeroed (zero_and_lock cs row).
Proof.
  unfold zero_and_lock. revert row.
  induction cs as [| c cs IH]; intros row Hz; [done |].
  simpl. by apply IH, lock_zeroed, assign_zeroed.
Qed.

Lemma sum_zeroed (row : OutputRow) : zeroed row → sum_E_to_K row = 0%Q.
Proof.
  intros Hz. unfold sum_E_to_K. simpl.
  by rewrite !(proj1 (Hz _)).
Qed.

(** C2.  For every raw deal record whose product, trimmed and compared
    without regard to case, is MIDLANDS, and every content of the cost and
    hedge indexes, the output row has the columns E to K all equal to 0,
    locked, and the total L equal to 0. *)
Theorem midlands_row_zero (raw : RawDealRecord) (idx : Indexes) :
  normalized (product raw) = "MIDLANDS" →
  (∀ c, c ∈ columns_E_to_K →
     cells (enrich raw idx) c = Some 0%Q ∧ locked (enrich raw idx) c = true) ∧
  total (enrich raw idx) = 0%Q.
Proof.
  intros Hp. unfold enrich, apply_rules, rules. simpl.
  pose proof (rule1_midlands raw idx Hp) as H1.
  assert (H5 : zeroed (rule5 raw idx (rule4 raw idx (rule3 raw idx
                 (rule2 raw idx (rule1 raw idx blank_row)))))).
  { unfold rule5, rule4, rule3. do 3 apply assign_zeroed.
    unfold rule2. destruct (isWhbCifDeal raw); [| done].
    by apply zero_and_lock_zeroed. }
  split.
  - intros c _. apply H5.
  - by apply sum_zeroed.
Qed.

(** The MIDLANDS deal of the test workbook, with costs of 800, 300 and
    400 in the index. *)
Lemma midlands_row_zero_witness :
  normalized (product midlands_deal) = "MIDLANDS" ∧
  costIndex midlands_indexes !! ("DEAL002", "BLC") = Some 800%Q ∧
  cells (enrich midlands_deal midlands_indexes) colE = Some 0%Q ∧
  total (enrich midlands_deal midlands_indexes) = 0%Q.
Proof.
  split; [reflexivity |]. split; [reflexivity |].
  destruct (midlands_row_zero midlands_deal midlands_indexes eq_refl) as [Hc Ht].
  split; [| exact Ht]. apply Hc. left.
Defined.

End RuleFacts.

(* ===================================================================== *)
(** * Theorems: error responses *)
(* ===================================================================== *)

Section ErrorResponseFacts.
Import Backend.


Lemma plain_status_as_specified : status_as_specified plain_status.
Proof.
  split; [| done]. intros kind Hkind. by destruct kind.
Qed.


End ErrorResponseFacts.

(* ===================================================================== *)
(** * Theorems: export by token *)
(* ===================================================================== *)

Section TokenStoreFacts.
Import Backend.
Context {Result : Type} (render : Format → Result → list Byte.byte).

Lemma serve_keeps (store : gmap string Result) (request : Request Result)
    (token : string) (result : Result) :
  store !! token = Some result → request ≠ Evict token →
  (serve render store request).1 !! token = Some result.
Proof.
  intros Hstored Hreq. destruct request as [result' | format token' | token'];
    simpl; [| done |].
  - rewrite lookup_insert_ne; [done |]. intros Heq.
    pose proof (is_fresh (dom store)) as Hfresh. rewrite Heq in Hfresh.
    apply Hfresh, elem_of_dom. by eexists.
  - rewrite lookup_delete_ne; [done |]. by intros ->.
Qed.

Lemma serve_all_keeps (store : gmap string Result)
    (requests : list (Request Result)) (token : string) (result : Result) :
  store !! token = Some result → Evict token ∉ requests →
  serve_all render store requests !! token = Some result.
Proof.
  unfold serve_all. revert store.
  induction requests as [| request requests IH]; intros store Hstored Hreqs;
    [done |].
  apply not_elem_of_cons in Hreqs as [Hreq Hreqs]. simpl.
  apply IH; [| done]. apply serve_keeps; [done | by intros ->].
Qed.


End TokenStoreFacts.

Section TokenStoreExamples.
Import Backend.


End TokenStoreExamples.

(* ===================================================================== *)
(** * Further theorems: the checks of [validateFile], one by one *)
(* ===================================================================== *)

Section ValidationOrderFacts.
Import Js ExcelProcessor.

Lemma for_requiredColumns_ok (last : Z) (sheetName : string) (cols : list string) :
  for_requiredColumns last sheetName cols = inr () ↔
  Forall (λ col, (XLSX.decode_col col <= last)%Z) cols.
Proof.
  rewrite <- not_fails_unit, for_requiredColumns_fails, Forall_forall. split.
  - intros Hnone col Hin. destruct (decide (XLSX.decode_col col <= last)%Z); [done |].
    destruct Hnone. exists col. split; [done | lia].
  - intros Hall (col & Hin & Hlt). specialize (Hall col Hin). lia.
Qed.

Lemma for_requiredColumns_MissingColumn (last : Z) (sheetName : string)
    (cols : list string) (col name : string) :
  for_requiredColumns last sheetName cols = inl (MissingColumn col name) →
  name = sheetName ∧ col ∈ cols ∧ (last < XLSX.decode_col col)%Z.
Proof.
  induction cols as [| col' cols IH]; simpl; [discriminate |].
  destruct (last <? XLSX.decode_col col')%Z eqn:Hlt; simpl.
  - intros [= <- <-]. apply Z.ltb_lt in Hlt. split; [done |]. split; [left | done].
  - intros H. destruct (IH H) as (? & ? & ?). split; [done |]. split; [by right | done].
Qed.

Lemma for_requiredColumns_not_InsufficientRows (last : Z) (sheetName : string)
    (cols : list string) :
  for_requiredColumns last sheetName cols ≠ inl InsufficientRows.
Proof.
  induction cols as [| col cols IH]; simpl; [discriminate |].
  destruct (last <? XLSX.decode_col col)%Z; simpl; [discriminate | done].
Qed.

Lemma validateSheetColumns_MissingColumn (wb : XLSX.WorkBook)
    (sheetName : string) (cols : list string) (col name : string) :
  validateSheetColumns wb sheetName cols = inl (MissingColumn col name) →
  name = sheetName ∧ ∃ sheet range,
    XLSX.Sheets wb !! sheetName = Some sheet ∧ XLSX.ref sheet = Some range ∧
    col ∈ cols ∧ (XLSX.c (XLSX.e range) < XLSX.decode_col col)%Z.
Proof.
  unfold validateSheetColumns.
  destruct (XLSX.Sheets wb !! sheetName) as [sheet |]; [| discriminate].
  destruct (XLSX.ref sheet) as [range |] eqn:Href; [| discriminate].
  intros H. apply for_requiredColumns_MissingColumn in H as (? & ? & ?).
  split; [done |]. by exists sheet, range.
Qed.

Lemma validateSheetColumns_not_InsufficientRows (wb : XLSX.WorkBook)
    (sheetName : string) (cols : list string) :
  validateSheetColumns wb sheetName cols ≠ inl InsufficientRows.
Proof.
  unfold validateSheetColumns.
  destruct (XLSX.Sheets wb !! sheetName) as [sheet |]; [| discriminate].
  destruct (XLSX.ref sheet); [| discriminate].
  apply for_requiredColumns_not_InsufficientRows.
Qed.

Lemma validateSheetColumns_ok (wb : XLSX.WorkBook) (sheetName : string)
    (cols : list string) :
  validateSheetColumns wb sheetName cols = inr () →
  ∃ sheet range,
    XLSX.Sheets wb !! sheetName = Some sheet ∧ XLSX.ref sheet = Some range ∧
    Forall (λ col, (XLSX.decode_col col <= XLSX.c (XLSX.e range))%Z) cols.
Proof.
  unfold validateSheetColumns.
  destruct (XLSX.Sheets wb !! sheetName) as [sheet |]; [| discriminate].
  destruct (XLSX.ref sheet) as [range |] eqn:Href; [| discriminate].
  intros H. apply for_requiredColumns_ok in H. by exists sheet, range.
Qed.

(** X1.  The column check is a check of the width of the sheet: the primary
    sheet has to reach column BZ, sheet 2 column AV and sheet 3 column CN.
    The columns listed before the widest one never decide. *)
Theorem validateSheetColumns_width (wb : XLSX.WorkBook) (name : string)
    (sheet : XLSX.WorkSheet) (range : XLSX.range) :
  XLSX.Sheets wb !! name = Some sheet → XLSX.ref sheet = Some range →
  (validateSheetColumns wb name requiredColumns1 = inr ()
     ↔ (77 <= XLSX.c (XLSX.e range))%Z) ∧
  (validateSheetColumns wb name requiredColumns2 = inr ()
     ↔ (47 <= XLSX.c (XLSX.e range))%Z) ∧
  (validateSheetColumns wb name requiredColumns3 = inr ()
     ↔ (91 <= XLSX.c (XLSX.e range))%Z).
Proof.
  intros Hsheet Href. unfold validateSheetColumns. rewrite Hsheet, Href.
  rewrite !for_requiredColumns_ok.
  unfold requiredColumns1, requiredColumns2, requiredColumns3.
  rewrite !Forall_cons, !Forall_nil.
  change (XLSX.decode_col "B") with 1%Z. change (XLSX.decode_col "AA") with 26%Z.
  change (XLSX.decode_col "M") with 12%Z. change (XLSX.decode_col "L") with 11%Z.
  change (XLSX.decode_col "Q") with 16%Z. change (XLSX.decode_col "AB") with 27%Z.
  change (XLSX.decode_col "AD") with 29%Z. change (XLSX.decode_col "AL") with 37%Z.
  change (XLSX.decode_col "X") with 23%Z. change (XLSX.decode_col "BZ") with 77%Z.
  change (XLSX.decode_col "N") with 13%Z. change (XLSX.decode_col "AQ") with 42%Z.
  change (XLSX.decode_col "AV") with 47%Z. change (XLSX.decode_col "BR") with 69%Z.
  change (XLSX.decode_col "CN") with 91%Z.
  lia.
Qed.

(** The primary sheet of the test workbook, 78 columns wide. *)
Lemma validateSheetColumns_width_witness :
  XLSX.Sheets Fixture.test_data !! "position_list1039861856" = Some Fixture.sheet1 ∧
  XLSX.ref Fixture.sheet1 = Some (Fixture.range_of 4 78) ∧
  (validateSheetColumns Fixture.test_data "position_list1039861856" requiredColumns1
     = inr () ↔ (77 <= 77)%Z).
Proof.
  assert (Hsheet : XLSX.Sheets Fixture.test_data !! "position_list1039861856"
                   = Some Fixture.sheet1) by reflexivity.
  split; [exact Hsheet |]. split; [reflexivity |].
  exact (proj1 (validateSheetColumns_width Fixture.test_data
                  "position_list1039861856" Fixture.sheet1 (Fixture.range_of 4 78)
                  Hsheet eq_refl)).
Defined.


End ValidationOrderFacts.

(* ===================================================================== *)
(** * Further theorems: the records behind the metrics *)
(* ===================================================================== *)

Section NormalFormFacts.
Import Js ExcelProcessor.
Context `{Host}.

Lemma isWhiteSpace_upper_char (c : ascii) :
  isWhiteSpace (upper_char c) = isWhiteSpace c.
Proof. by destruct c as [[] [] [] [] [] [] [] []]. Qed.

Lemma upper_char_idem (c : ascii) : upper_char (upper_char c) = upper_char c.
Proof. by destruct c as [[] [] [] [] [] [] [] []]. Qed.

Lemma toUpperCase_idem (s : string) :
  toUpperCase (toUpperCase s) = toUpperCase s.
Proof.
  induction s as [| c s IH]; [done |]. simpl. by rewrite upper_char_idem, IH.
Qed.

Lemma trimStart_toUpperCase (s : string) :
  trimStart (toUpperCase s) = toUpperCase (trimStart s).
Proof.
  induction s as [| c s IH]; [done |]. simpl.
  rewrite isWhiteSpace_upper_char. by destruct (isWhiteSpace c).
Qed.

Lemma trimEnd_toUpperCase (s : string) :
  trimEnd (toUpperCase s) = toUpperCase (trimEnd s).
Proof.
  induction s as [| c s IH]; [done |]. simpl. rewrite IH.
  destruct (trimEnd s) as [| c' t]; simpl; [| done].
  rewrite isWhiteSpace_upper_char. by destruct (isWhiteSpace c).
Qed.

Lemma trimEnd_idem (s : string) : trimEnd (trimEnd s) = trimEnd s.
Proof.
  induction s as [| c s IH]; [done |]. simpl.
  destruct (trimEnd s) as [| c' t] eqn:Hs.
  - destruct (isWhiteSpace c) eqn:Hc; [done |]. simpl. by rewrite Hc.
  - change (trimEnd (String c (String c' t))) with
      (match trimEnd (String c' t) with
       | EmptyString =>
           if isWhiteSpace c then EmptyString else String c EmptyString
       | t' => String c t'
       end).
    by rewrite IH.
Qed.

Lemma trimStart_trim (s : string) : trimStart (trim s) = trim s.
Proof.
  destruct (trim s) as [| c t] eqn:Ht; [done |]. simpl.
  assert (Hc : isWhiteSpace c = false).
  { apply (trimStart_first s). apply trimEnd_first.
    unfold trim in Ht. by rewrite Ht. }
  by rewrite Hc.
Qed.

Lemma trim_idem (s : string) : trim (trim s) = trim s.
Proof.
  unfold trim at 1. rewrite trimStart_trim. unfold trim. apply trimEnd_idem.
Qed.

Lemma trim_toUpperCase (s : string) :
  trim (toUpperCase s) = toUpperCase (trim s).
Proof. unfold trim. by rewrite trimStart_toUpperCase, trimEnd_toUpperCase. Qed.

(** X3.  What [normalize] returns is in normal form: normalising it again
    changes nothing. *)
Theorem normalize_idempotent (value : Js.value) :
  normalize (VStr (normalize value)) = normalize value.
Proof.
  unfold normalize at 1. simpl.
  destruct (String.eqb_spec (normalize value) "") as [-> | Hne]; [done |].
  simpl. unfold normalize in *.
  destruct (truthy value); [| done].
  by rewrite trim_toUpperCase, trim_idem, toUpperCase_idem.
Qed.

Lemma normalize_or_else_idem (value : Js.value) :
  normalize (VStr (normalize (or_else value (VStr ""))))
  = normalize (or_else value (VStr "")).
Proof.
  unfold normalize at 1. simpl.
  destruct (String.eqb_spec (normalize (or_else value (VStr ""))) "")
    as [-> | Hne]; [done |].
  simpl. unfold normalize in *.
  destruct (truthy (or_else value (VStr ""))); [| done].
  by rewrite trim_toUpperCase, trim_idem, toUpperCase_idem.
Qed.

Lemma no_preset_default (preset : option string) :
  no_preset (if no_preset preset then Some "ALL" else preset) = false.
Proof. by destruct (no_preset preset) eqn:Hp. Qed.

Lemma getRecordsByPreset_sublist (now : Date) (this : Processor)
    (preset : option string) :
  getRecordsByPreset now this preset `sublist_of` default [] (rawRecords this).
Proof.
  unfold getRecordsByPreset.
  repeat match goal with
  | |- (if ?b then _ else _) `sublist_of` _ => destruct b
  | |- (let _ := _ in _) `sublist_of` _ => cbv zeta
  end; try done; apply sublist_filter.
Qed.

(** X4.  After [calculateDashboardMetrics] every record has a product and a
    quantity that is a number other than 0, and its deal, product and
    location are in the normal form of [normalize]. The records in view are
    among these records, in their order, and a date preset is set.
    Calculating the metrics a second time, at the same moment and with the
    same settings, changes nothing. *)
Theorem calculateDashboardMetrics_records (now : Date) (settings : Settings)
    (this : Processor) :
  let after := calculateDashboardMetrics now settings this in
  ∃ records,
    rawRecords after = Some records ∧
    Forall (λ r,
      product r ≠ "" ∧
      volume r ≠ NaN ∧ num_truthy (volume r) = true ∧
      normalize (VStr (deal r)) = deal r ∧
      normalize (VStr (product r)) = product r ∧
      normalize (VStr (location r)) = location r) records ∧
    filteredRecords after `sublist_of` records ∧
    no_preset (datePreset after) = false ∧
    (no_preset (datePreset this) = false → datePreset after = datePreset this) ∧
    workbook after = workbook this ∧
    calculateDashboardMetrics now settings after = after.
Proof.
  cbv zeta. unfold calculateDashboardMetrics, refreshMetricsFromRecords.
  cbn [workbook rawRecords datePreset filteredRecords summaryMetrics].
  eexists. split; [done |].
  split.
  { apply Forall_forall. intros r [Hkeep Hin]%list_elem_of_filter.
    apply Is_true_true, andb_true_iff in Hkeep as [Hproduct Hvolume].
    apply negb_true_iff, String.eqb_neq in Hproduct.
    split; [done |].
    split; [by intros Hnan; rewrite Hnan in Hvolume |].
    split; [done |].
    change (map record_of_row ?l) with (record_of_row <$> l) in Hin.
    apply list_elem_of_fmap in Hin as (row & -> & _).
    unfold record_of_row. simpl.
    by rewrite !normalize_or_else_idem. }
  split; [apply getRecordsByPreset_sublist |].
  split; [apply no_preset_default |].
  split; [by intros -> |].
  split; [done |].
  by rewrite no_preset_default.
Qed.

End NormalFormFacts.

(* ===================================================================== *)
(** * Further theorems: how the date presets relate *)
(* ===================================================================== *)

Section PresetOrderFacts.
Import Js ExcelProcessor.

Lemma filter_sublist_impl {A} (P Q : A → Prop) `{∀ x, Decision (P x)}
    `{∀ x, Decision (Q x)} (l : list A) :
  (∀ x, P x → Q x) → filter P l `sublist_of` filter Q l.
Proof.
  intros HPQ. induction l as [| x l IH]; [done |].
  rewrite !filter_cons. destruct (decide (P x)) as [HP | HP].
  - rewrite decide_True by auto. by constructor.
  - destruct (decide (Q x)); [by constructor | done].
Qed.

Lemma num_strict_eq_quarter (d1 d2 : Date) :
  num_strict_eq (getMonth d1) (getMonth d2) = true →
  num_strict_eq (getQuarter d1) (getQuarter d2) = true.
Proof.
  unfold getQuarter.
  destruct (getMonth d1) as [| a | p], (getMonth d2) as [| b | q];
    cbn [num_div_pos Math_floor num_add num_strict_eq]; try done.
  intros Heq%Qeq_bool_iff. apply Qeq_bool_iff.
  assert (Hfloor : Qfloor (p / (3 # 1)) = Qfloor (q / (3 # 1)))
    by (apply Qfloor_comp; by rewrite Heq).
  by rewrite Hfloor.
Qed.

(** X5.  The time-bounded views are nested: the records of the month to date
    are among those of the quarter to date, these among those of the year to
    date, and these among all records, each time in the same order. *)
Theorem presets_nested (now : Date) (this : Processor) :
  getRecordsByPreset now this (Some "MTD")
    `sublist_of` getRecordsByPreset now this (Some "QTD") ∧
  getRecordsByPreset now this (Some "QTD")
    `sublist_of` getRecordsByPreset now this (Some "YTD") ∧
  getRecordsByPreset now this (Some "YTD")
    `sublist_of` getRecordsByPreset now this (Some "ALL").
Proof.
  unfold getRecordsByPreset. simpl.
  split; [| split; [| apply sublist_filter]].
  - apply filter_sublist_impl. intros r. destruct (date r) as [d |]; simpl; [| done].
    intros [Hy Hm]%Is_true_true%andb_true_iff. apply Is_true_true, andb_true_iff.
    split; [done |]. by apply num_strict_eq_quarter.
  - apply filter_sublist_impl. intros r. destruct (date r) as [d |]; simpl; [| done].
    intros [Hy _]%Is_true_true%andb_true_iff. by apply Is_true_true.
Qed.

(** X6.  [getQuarter] numbers the quarters 1 to 4: the months 0 to 2 are in
    quarter 1, 3 to 5 in quarter 2, 6 to 8 in quarter 3 and 9 to 11 in
    quarter 4; an invalid date has no quarter. *)
Theorem getQuarter_of_month (date : Date) (month : Z) :
  (getMonth date = Fin (inject_Z month) → (0 <= month < 12)%Z →
   num_strict_eq (getQuarter date) (Fin (inject_Z (month / 3 + 1))) = true ∧
   (1 <= month / 3 + 1 <= 4)%Z) ∧
  (getMonth date = NaN → getQuarter date = NaN).
Proof.
  split.
  - intros Hm Hrange. unfold getQuarter. rewrite Hm. simpl.
    assert (Hcases : month ∈ [0; 1; 2; 3; 4; 5; 6; 7; 8; 9; 10; 11]%Z).
    { assert (month = 0 ∨ month = 1 ∨ month = 2 ∨ month = 3 ∨ month = 4 ∨
              month = 5 ∨ month = 6 ∨ month = 7 ∨ month = 8 ∨ month = 9 ∨
              month = 10 ∨ month = 11)%Z as Hor by lia.
      set_unfold. tauto. }
    repeat (apply elem_of_cons in Hcases as [-> | Hcases]; [by vm_compute |]).
    by apply elem_of_nil in Hcases.
  - intros Hm. unfold getQuarter. by rewrite Hm.
Qed.

End PresetOrderFacts.

(* ===================================================================== *)
(** * Further theorems: the totals of the dashboard metrics *)
(* ===================================================================== *)

Section TotalsFacts.
Import Js ExcelProcessor ExcelProcessorRest.

Lemma sum_of_Permutation (l1 l2 : list Q) :
  l1 ≡ₚ l2 → (sum_of l1 == sum_of l2)%Q.
Proof.
  induction 1 as [| x l1 l2 _ IH | x y l | l1 l2 l3 _ IH1 _ IH2]; simpl.
  - reflexivity.
  - by rewrite IH.
  - ring.
  - by rewrite IH1.
Qed.

Lemma distribution_total_insert (m : gmap string number) (k : string) (q : Q) :
  (distribution_total (<[ k := Fin q ]> m)
   == distribution_total m - finite (default (Fin 0) (m !! k)) + q)%Q.
Proof.
  unfold distribution_total.
  set (f := λ kv : string * number, finite kv.2).
  change (map f) with (fmap (M := list) f).
  destruct (m !! k) as [old |] eqn:Hk; cbn [default].
  - assert (H1 : (sum_of (f <$> map_to_list m)
                  == finite old + sum_of (f <$> map_to_list (delete k m)))%Q).
    { etrans; [apply sum_of_Permutation, fmap_Permutation; symmetry;
               by apply map_to_list_delete |].
      reflexivity. }
    assert (H2 : (sum_of (f <$> map_to_list (<[ k := Fin q ]> m))
                  == q + sum_of (f <$> map_to_list (delete k m)))%Q).
    { rewrite <- insert_delete_eq.
      etrans; [apply sum_of_Permutation, fmap_Permutation, map_to_list_insert,
               lookup_delete_eq |].
      reflexivity. }
    rewrite H1, H2. unfold id. ring.
  - assert (H2 : (sum_of (f <$> map_to_list (<[ k := Fin q ]> m))
                  == q + sum_of (f <$> map_to_list m))%Q).
    { etrans; [by apply sum_of_Permutation, fmap_Permutation, map_to_list_insert |].
      reflexivity. }
    rewrite H2. cbn [finite]. ring.
Qed.

Lemma num_or_else_finite (q : Q) :
  ∃ q', num_or_else (Fin q) (Fin 0) = Fin q' ∧ (q' == q)%Q.
Proof.
  unfold num_or_else. simpl. destruct (Qeq_bool q 0) eqn:Hq; simpl.
  - exists 0%Q. split; [done |]. symmetry. by apply Qeq_bool_eq.
  - by exists q.
Qed.

(** The invariant of the [forEach]: the total and every share are
    finite, and the shares add up to the total. *)
Lemma add_record_adds_up (acc : Totals) (r : RawRecord) (total : Q) :
  is_finite (volume r) →
  sumVolume acc = Fin total →
  map_Forall (λ _ v, is_finite v) (distribution acc) →
  (distribution_total (distribution acc) == total)%Q →
  ∃ total',
    sumVolume (add_record acc r) = Fin total' ∧
    map_Forall (λ _ v, is_finite v) (distribution (add_record acc r)) ∧
    (distribution_total (distribution (add_record acc r)) == total')%Q.
Proof.
  intros [v Hv] Hsum Hfin Htotal. unfold add_record. simpl. rewrite Hv, Hsum.
  exists (total + v)%Q. split; [done |].
  destruct (distribution acc !! product r) as [old |] eqn:Hold.
  - destruct (Hfin _ _ Hold) as [o ->].
    destruct (num_or_else_finite o) as (o' & -> & Ho'). simpl. split.
    + apply map_Forall_insert_2; [by eexists | done].
    + rewrite distribution_total_insert, Hold, Htotal, Ho'. simpl. ring.
  - simpl. split.
    + apply map_Forall_insert_2; [by eexists | done].
    + rewrite distribution_total_insert, Hold, Htotal. simpl. ring.
Qed.

Lemma foldl_add_record_adds_up (records : list RawRecord) (acc : Totals)
    (total : Q) :
  Forall (λ r, is_finite (volume r)) records →
  sumVolume acc = Fin total →
  map_Forall (λ _ v, is_finite v) (distribution acc) →
  (distribution_total (distribution acc) == total)%Q →
  ∃ total',
    sumVolume (foldl add_record acc records) = Fin total' ∧
    map_Forall (λ _ v, is_finite v) (distribution (foldl add_record acc records)) ∧
    (distribution_total (distribution (foldl add_record acc records)) == total')%Q.
Proof.
  revert acc total. induction records as [| r records IH];
    intros acc total Hrecords Hsum Hfin Htotal; [by exists total |].
  apply Forall_cons in Hrecords as [Hr Hrecords]. simpl.
  destruct (add_record_adds_up acc r total Hr Hsum Hfin Htotal)
    as (total' & Hsum' & Hfin' & Htotal').
  by apply (IH _ total').
Qed.

Lemma size_deals_of (records : list RawRecord) :
  size (deals_of records) ≤ length records.
Proof.
  unfold deals_of. induction records as [| r records IH].
  - change (size (∅ : gset string) ≤ 0). by rewrite size_empty.
  - simpl. rewrite filter_cons. case_decide; [| simpl; lia].
    rewrite list_to_set_cons, size_union_alt, size_singleton.
    etrans; [apply Nat.add_le_mono_l, subseteq_size, subseteq_difference_l;
             reflexivity |].
    simpl. lia.
Qed.



End TotalsFacts.

(* ===================================================================== *)
(** * Further theorems: the rows of the product chart *)
(* ===================================================================== *)

Section GroupedFacts.
Import Js ExcelProcessor ExcelProcessorRest.

Local Abbreviation value := (λ kv : string * number, finite kv.2).

Lemma by_value_desc_finite (a b : string * number) :
  is_finite a.2 → is_finite b.2 → by_value_desc a b = Js.desc value a b.
Proof. intros [p Hp] [q Hq]. unfold by_value_desc, Js.desc. by rewrite Hp, Hq. Qed.

Lemma sort_insert_ext {A} (gt1 gt2 : A → A → bool) (x : A) (l : list A) :
  (∀ y, y ∈ l → gt1 x y = gt2 x y) →
  Js.sort_insert gt1 x l = Js.sort_insert gt2 x l.
Proof.
  induction l as [| y l IH]; intros Hext; simpl; [done |].
  rewrite Hext by apply list_elem_of_here.
  rewrite IH; [done |]. intros z Hz. apply Hext. by apply list_elem_of_further.
Qed.

Lemma sort_ext (l : list (string * number)) :
  Forall (λ kv, is_finite kv.2) l →
  Js.sort by_value_desc l = Js.sort (Js.desc value) l.
Proof.
  induction 1 as [| x l Hx Hl IH]; [done |].
  unfold Js.sort in *. simpl. rewrite IH.
  apply sort_insert_ext. intros y Hy.
  apply by_value_desc_finite; [done |].
  change (foldr (Js.sort_insert (Js.desc value)) [] l)
    with (Js.sort (Js.desc value) l) in Hy.
  rewrite (sort_Permutation value) in Hy.
  by eapply Forall_forall in Hl.
Qed.

Lemma foldl_num_add_finite (rest : list (string * number)) (start : Q) :
  Forall (λ kv, is_finite kv.2) rest →
  ∃ s, foldl (λ sum kv, num_add sum kv.2) (Fin start) rest = Fin s
       ∧ (s == start + sum_of (map value rest))%Q.
Proof.
  intros Hrest. revert start.
  induction Hrest as [| [k v] rest [q Hq] _ IH]; intros start; simpl.
  - exists start. split; [done | ring].
  - simpl in Hq. subst v. simpl.
    destruct (IH (start + q)%Q) as (s & -> & Hs).
    exists s. split; [done |]. rewrite Hs. ring.
Qed.


End GroupedFacts.

Section GroupedExamples.
Import Js ExcelProcessor ExcelProcessorRest.


(** The two smallest of eight products share the row [Other]; when they
    cancel out, neither is shown. *)
Example grouped_eight_products :
  grouped ChartFixture.eight_products
  = [("H", Fin 80); ("G", Fin 70); ("F", Fin 60); ("E", Fin 50);
     ("D", Fin 40); ("C", Fin 30); ("Other", Fin 30)]
  ∧ map fst (grouped ChartFixture.cancelling_products)
    = ["H"; "G"; "F"; "E"; "D"; "C"].
Proof. by vm_compute. Qed.

End GroupedExamples.

(* ===================================================================== *)
(** * Further theorems: processing the chosen file *)
(* ===================================================================== *)

Section ProcessFileFacts.
Import Js ExcelProcessor ExcelProcessorRest.
Context `{Host}.


End ProcessFileFacts.

Section ProcessFileExamples.
Import Js ExcelProcessor ExcelProcessorRest Fixture.

(** The workbook of the test data is accepted; without its third sheet
    it is refused, and a download flag set before stays set. *)
Example processFile_test_data :
  let chosen (workbook : XLSX.WorkBook) :=
    Some {| file_name := "test_data.xlsx"; XLSX_read := inr workbook |} in
  let before (flag : bool) :=
    {| processor := loaded test_data;
       processedData := flag;
       screen := {| processButton_display := "inline-block";
                    processButton_disabled := false;
                    loadingSpinner_display := "none";
                    errorSection_display := "none";
                    errorMessage := "";
                    resultsSection_display := "none" |} |} in
  let run (workbook : XLSX.WorkBook) (flag : bool) :=
    processFile a_day default_settings default_settings
      (chosen workbook) (before flag) in
  processedData (run test_data false) = true ∧
  resultsSection_display (screen (run test_data false)) = "block" ∧
  processedData (run two_sheets true) = true ∧
  errorSection_display (screen (run two_sheets true)) = "block" ∧
  isExcelName "report.XLS" = true ∧ isExcelName "report.xlsx.txt" = false.
Proof. by vm_compute. Qed.

End ProcessFileExamples.

Section FileSelectFacts.
Import Js ExcelProcessor ExcelProcessorRest.

(** X10.  After a choice in the raw input, the input holds the chosen file
    if it has an Excel name and nothing otherwise, and the process button is
    enabled exactly in the first case; the results are hidden, and so is the
    error section, also for a file with another name, whose message
    [clearFile] hides at once. A choice that is dropped clears the flag of
    the download. A choice in the other input leaves the raw input, the
    flag, the button and the results alone, and shows the error for a file
    with another name. *)
Theorem handleFileSelect_outcome (file : option File) (this : Form) :
  let valid :=
    match file with Some f => isExcelName (file_name f) | None => false end in
  let after_raw := handleFileSelect file raw this in
  let after_formatted := handleFileSelect file formatted this in
  (rawFileInput after_raw = (if valid then file else None) ∧
   processButton_disabled (screen (app after_raw)) = negb valid ∧
   errorSection_display (screen (app after_raw)) = "none" ∧
   resultsSection_display (screen (app after_raw)) = "none" ∧
   processedData (app after_raw)
     = (if valid then processedData (app this) else false) ∧
   rawFileInfo_display after_raw = (if valid then "flex" else "none") ∧
   formattedFileInput after_raw = formattedFileInput this) ∧
  (formattedFileInput after_formatted = (if valid then file else None) ∧
   formattedFileInfo_display after_formatted
     = (if valid then "flex" else "none") ∧
   rawFileInput after_formatted = rawFileInput this ∧
   processedData (app after_formatted) = processedData (app this) ∧
   processor (app after_formatted) = processor (app this) ∧
   processButton_disabled (screen (app after_formatted))
     = processButton_disabled (screen (app this)) ∧
   resultsSection_display (screen (app after_formatted))
     = resultsSection_display (screen (app this)) ∧
   match file with
   | Some f =>
       if isExcelName (file_name f)
       then screen (app after_formatted) = screen (app this)
       else errorSection_display (screen (app after_formatted)) = "block"
   | None => screen (app after_formatted) = screen (app this)
   end).
Proof.
  cbv zeta. unfold handleFileSelect.
  destruct file as [f |]; [| done].
  by destruct (isExcelName (file_name f)).
Qed.


End FileSelectFacts.

(* ===================================================================== *)
(** * Further theorems: the address of the API *)
(* ===================================================================== *)

Section ApiBaseFacts.
Import Js ExcelProcessorRest.

Lemma append_nonempty (s t : string) : s ≠ "" → s +:+ t ≠ "".
Proof. by destruct s. Qed.

Lemma normalizedProtocol_cases (location : Location) :
  normalizedProtocol location = "https:" ∨ normalizedProtocol location = "http:".
Proof. unfold normalizedProtocol. destruct (String.eqb _ _); auto. Qed.

Lemma prefix_append (s t : string) : String.prefix s (s +:+ t) = true.
Proof.
  induction s as [| c s IH]; simpl; [by destruct t |].
  destruct (ascii_dec c c); [done | congruence].
Qed.

Lemma getDefaultApiBaseUrl_nonempty (location : Location) :
  getDefaultApiBaseUrl location ≠ "".
Proof.
  assert (Hnp : ∀ rest, normalizedProtocol location +:+ rest ≠ "").
  { intros rest. apply append_nonempty.
    by destruct (normalizedProtocol_cases location) as [-> | ->]. }
  unfold getDefaultApiBaseUrl.
  destruct (String.eqb (protocol location) "file:" || _); [done |].
  destruct (includes _ (hostname location)); [apply Hnp |].
  destruct (negb (String.eqb (port location) "") && _); [apply Hnp |].
  destruct (String.eqb_spec (origin location) "") as [_ | Ho]; simpl;
    [apply Hnp |].
  destruct (negb _); [done | apply Hnp].
Qed.

(** X12.  The default address is never empty: it is the page's own origin,
    then neither empty nor ['null'], or it starts with [http://] or
    [https://]; a page opened from a file or without host name gets
    [http://127.0.0.1:8000]. *)
Theorem getDefaultApiBaseUrl_shape (location : Location) :
  let url := getDefaultApiBaseUrl location in
  url ≠ "" ∧
  ((url = origin location ∧ origin location ≠ "null")
   ∨ String.prefix "http://" url = true
   ∨ String.prefix "https://" url = true) ∧
  (protocol location = "file:" ∨ hostname location = "" →
   url = "http://127.0.0.1:8000").
Proof.
  assert (Hnp : ∀ rest,
    let url := normalizedProtocol location +:+ "//" +:+ rest in
    url ≠ "" ∧ (String.prefix "http://" url = true
                ∨ String.prefix "https://" url = true)).
  { intros rest.
    destruct (normalizedProtocol_cases location) as [-> | ->]; simpl.
    - split; [done |]. right.
      apply (prefix_append "https://" rest).
    - split; [done |]. left.
      apply (prefix_append "http://" rest). }
  unfold getDefaultApiBaseUrl.
  destruct (String.eqb (protocol location) "file:") eqn:Hfile; simpl.
  { split; [done |]. split; [by right; left | done]. }
  destruct (String.eqb (hostname location) "") eqn:Hhost; simpl.
  { split; [done |]. split; [by right; left | done]. }
  apply String.eqb_neq in Hfile, Hhost.
  assert (Hlast : ∀ url : string,
    url ≠ "" ∧ ((url = origin location ∧ origin location ≠ "null")
      ∨ String.prefix "http://" url = true
      ∨ String.prefix "https://" url = true) →
    url ≠ "" ∧ ((url = origin location ∧ origin location ≠ "null")
      ∨ String.prefix "http://" url = true
      ∨ String.prefix "https://" url = true) ∧
    (protocol location = "file:" ∨ hostname location = "" →
     url = "http://127.0.0.1:8000")).
  { intros url [? ?]. split; [done |]. split; [done |].
    intros [? | ?]; done. }
  destruct (includes _ (hostname location)).
  { apply Hlast. destruct (Hnp (hostname location +:+ ":8000")); auto. }
  destruct (negb (String.eqb (port location) "") && _).
  { apply Hlast. destruct (Hnp (hostname location +:+ ":8000")); auto. }
  destruct (String.eqb (origin location) "") eqn:Ho; simpl.
  { apply Hlast. destruct (Hnp (hostname location +:+
      (if String.eqb (port location) "" then "" else ":" +:+ port location)));
      auto. }
  destruct (String.eqb (origin location) "null") eqn:Hn; simpl.
  { apply Hlast. destruct (Hnp (hostname location +:+
      (if String.eqb (port location) "" then "" else ":" +:+ port location)));
      auto. }
  apply String.eqb_neq in Ho, Hn. apply Hlast. split; [done |]. by left.
Qed.

Lemma stripSlashes_idem (s : string) :
  stripSlashes (stripSlashes s) = stripSlashes s.
Proof.
  induction s as [| ch s IH]; [done |]. simpl.
  destruct (stripSlashes s) as [| ch' t] eqn:Hs.
  - destruct (Ascii.eqb ch "/") eqn:Hch; [done |]. simpl. by rewrite Hch.
  - change (stripSlashes (String ch (String ch' t))) with
      (match stripSlashes (String ch' t) with
       | EmptyString =>
           if Ascii.eqb ch "/" then EmptyString else String ch EmptyString
       | t' => String ch t'
       end).
    by rewrite IH.
Qed.

Lemma distinct_snoc (l : list string) (x : string) :
  distinct (l ++ [x]) = DealComparisonDashboard.set_add x (distinct l).
Proof. unfold distinct. by rewrite foldl_app. Qed.

Lemma distinct_NoDup (l : list string) : NoDup (distinct l).
Proof.
  induction l as [| x l IH] using rev_ind; [constructor |].
  rewrite distinct_snoc. by apply set_add_NoDup.
Qed.

Lemma elem_of_distinct (l : list string) (x : string) :
  x ∈ distinct l ↔ x ∈ l.
Proof.
  induction l as [| y l IH] using rev_ind; [done |].
  rewrite distinct_snoc, elem_of_set_add, IH, elem_of_app,
    list_elem_of_singleton. tauto.
Qed.

Lemma distinct_head (x : string) (l : list string) :
  head (distinct (x :: l)) = Some x.
Proof.
  induction l as [| y l IH] using rev_ind; [done |].
  rewrite app_comm_cons, distinct_snoc.
  unfold DealComparisonDashboard.set_add.
  destruct (bool_decide _); [done |].
  destruct (distinct (x :: l)); [done |]. simpl in *. done.
Qed.

Lemma pushCandidate_prefix (candidates : list string) (value : Js.value) :
  candidates `prefix_of` pushCandidate candidates value.
Proof.
  unfold pushCandidate. destruct value; try done.
  destruct (String.eqb _ ""); [done |].
  destruct (String.eqb _ ""); [done |]. by apply prefix_app_r.
Qed.

Lemma pushCandidate_clean (candidates : list string) (s : string) :
  trim s = s → s ≠ "" →
  pushCandidate candidates (VStr s) = candidates ++ [s].
Proof.
  intros Ht Hs. unfold pushCandidate. rewrite Ht.
  apply String.eqb_neq in Hs. by rewrite Hs.
Qed.

Lemma pushLocationCandidates_prefix (candidates : list string)
    (location : Location) :
  candidates `prefix_of` pushLocationCandidates candidates location.
Proof.
  unfold pushLocationCandidates.
  repeat match goal with
  | |- _ `prefix_of` (if ?b then _ else _) => destruct b
  | |- _ `prefix_of` pushCandidate _ _ =>
      etrans; [| apply pushCandidate_prefix]
  | |- _ `prefix_of` (let _ := _ in _) => cbv zeta
  end; done.
Qed.

Lemma candidates_pushed_prefix (page : Page) :
  (if truthy (API_BASE_URL page)
   then pushCandidate [] (API_BASE_URL page) else [])
    `prefix_of` candidates_pushed page.
Proof.
  unfold candidates_pushed. cbv zeta.
  etrans; [| apply pushLocationCandidates_prefix].
  etrans; [| apply pushCandidate_prefix].
  etrans; [| destruct (metaTag page) as [content |];
             [destruct (String.eqb content "");
                [done | apply pushCandidate_prefix] | done]].
  etrans; [| apply pushCandidate_prefix].
  etrans; [| apply pushCandidate_prefix].
  apply pushCandidate_prefix.
Qed.

(** One of the addresses pushed is still an address without its trailing
    slashes: a loopback address, whatever the location. *)
Lemma candidates_pushed_loopback (page : Page) :
  ∃ c, c ∈ candidates_pushed page ∧ stripSlashes c ≠ "".
Proof.
  unfold candidates_pushed. cbv zeta.
  set (overrides := match metaTag page with Some _ => _ | None => _ end).
  clearbody overrides.
  set (loc := location page). clearbody loc.
  assert (Hmono : ∀ c cs, c ∈ cs → c ∈ pushLocationCandidates cs loc).
  { intros c cs Hc.
    destruct (pushLocationCandidates_prefix cs loc) as [k ->].
    apply elem_of_app. by left. }
  destruct (String.eqb (hostname loc) "" || String.eqb (protocol loc) "file:")
    eqn:Hfile.
  { exists "http://127.0.0.1:8000". split; [| by vm_compute].
    unfold pushLocationCandidates. rewrite Hfile.
    destruct (pushCandidate_prefix
      (pushCandidate
         (if negb (String.eqb (origin loc) "")
             && negb (String.eqb (origin loc) "null")
          then pushCandidate
                 (pushCandidate overrides (VStr (getDefaultApiBaseUrl loc)))
                 (VStr (origin loc))
          else pushCandidate overrides (VStr (getDefaultApiBaseUrl loc)))
         (VStr "http://127.0.0.1:8000"))
      (VStr "http://localhost:8000")) as [k ->].
    apply elem_of_app. left.
    rewrite pushCandidate_clean by (by vm_compute).
    apply elem_of_app. right. by apply list_elem_of_singleton. }
  apply orb_false_iff in Hfile as [Hhost Hfile].
  destruct (includes ["localhost"; "127.0.0.1"; "::1"] (hostname loc))
    eqn:Hlocal.
  - exists (getDefaultApiBaseUrl loc).
    assert (Hurl : trim (getDefaultApiBaseUrl loc) = getDefaultApiBaseUrl loc
                   ∧ getDefaultApiBaseUrl loc ≠ ""
                   ∧ stripSlashes (getDefaultApiBaseUrl loc) ≠ "").
    { unfold getDefaultApiBaseUrl. rewrite Hfile, Hhost, Hlocal. simpl.
      unfold includes in Hlocal. apply bool_decide_eq_true in Hlocal.
      destruct (normalizedProtocol_cases loc) as [-> | ->];
        repeat (apply elem_of_cons in Hlocal as [-> | Hlocal];
                [by vm_compute |]);
        by apply elem_of_nil in Hlocal. }
    destruct Hurl as (Ht & Hne & Hs). split; [| done].
    apply Hmono. rewrite pushCandidate_clean by done.
    apply elem_of_app. right. by apply list_elem_of_singleton.
  - exists (normalizedProtocol loc +:+ "//localhost:8000").
    split; [| by destruct (normalizedProtocol_cases loc) as [-> | ->];
                vm_compute].
    unfold pushLocationCandidates. rewrite orb_false_intro by done.
    rewrite Hlocal. cbv zeta. simpl negb. cbv iota.
    match goal with
    | |- _ ∈ pushCandidate (pushCandidate ?cs _) ?v =>
        destruct (pushCandidate_prefix
                    (pushCandidate cs
                       (VStr (normalizedProtocol loc +:+ "//localhost:8000")))
                    v) as [k ->];
        apply elem_of_app; left;
        rewrite (pushCandidate_clean cs)
          by (by destruct (normalizedProtocol_cases loc) as [-> | ->];
                vm_compute)
    end.
    apply elem_of_app. right. by apply list_elem_of_singleton.
Qed.

Lemma candidates_nonempty (page : Page) : buildApiBaseCandidates page ≠ [].
Proof.
  unfold buildApiBaseCandidates.
  destruct (candidates_pushed_loopback page) as (c & Hc & Hs).
  intros Hnil.
  assert (H : stripSlashes c ∈ filter (λ c, c ≠ "")
                (distinct (map stripSlashes (candidates_pushed page)))).
  { apply list_elem_of_filter. split; [done |].
    apply elem_of_distinct.
    change (map stripSlashes) with (fmap (M := list) stripSlashes).
    apply list_elem_of_fmap. by exists c. }
  rewrite Hnil in H. by apply elem_of_nil in H.
Qed.

Lemma candidates_stripped (page : Page) :
  Forall (λ c, c ≠ "" ∧ stripSlashes c = c) (buildApiBaseCandidates page).
Proof.
  unfold buildApiBaseCandidates.
  apply Forall_forall. intros c [Hne Hc]%list_elem_of_filter.
  apply (proj1 (elem_of_distinct _ _)) in Hc. split; [done |].
  change (map stripSlashes) with (fmap (M := list) stripSlashes) in Hc.
  apply list_elem_of_fmap in Hc as (c' & -> & _).
  apply stripSlashes_idem.
Qed.

(** X13.  The candidates are never none, they are pairwise different, and
    none is empty or ends in a slash. *)
Theorem buildApiBaseCandidates_clean (page : Page) :
  let candidates := buildApiBaseCandidates page in
  candidates ≠ [] ∧
  NoDup candidates ∧
  Forall (λ c, c ≠ "" ∧ stripSlashes c = c) candidates.
Proof.
  cbv zeta. split; [apply candidates_nonempty |].
  split; [| apply candidates_stripped].
  unfold buildApiBaseCandidates. apply NoDup_filter, distinct_NoDup.
Qed.



Local Abbreviation health := (λ c : string, c +:+ "/health").
Local Abbreviation unhealthy :=
  (λ (fetch : string → Fetched) (c : string),
     fetch (c +:+ "/health") ≠ Responded true).

Lemma probe_spec (fetch : string → Fetched) (candidates : list string) :
  Forall (λ c, stripSlashes c = c) candidates →
  match probe fetch candidates with
  | (Some base, calls) =>
      ∃ before after,
        candidates = before ++ base :: after ∧
        Forall (unhealthy fetch) before ∧
        fetch (health base) = Responded true ∧
        calls = map health (before ++ [base])
  | (None, calls) =>
      Forall (unhealthy fetch) candidates ∧ calls = map health candidates
  end.
Proof.
  induction 1 as [| c cs Hc _ IH]; [done |].
  simpl. rewrite Hc.
  destruct (fetch (c +:+ "/health")) as [| [|]] eqn:Hf.
  - destruct (probe fetch cs) as [[base |] calls].
    + destruct IH as (before & after & -> & Hb & Hok & ->).
      exists (c :: before), after. repeat split; try done.
      constructor; [by rewrite Hf | done].
    + destruct IH as [Hall ->]. split; [| done].
      constructor; [by rewrite Hf | done].
  - exists [], cs. by repeat split.
  - destruct (probe fetch cs) as [[base |] calls].
    + destruct IH as (before & after & -> & Hb & Hok & ->).
      exists (c :: before), after. repeat split; try done.
      constructor; [by rewrite Hf | done].
    + destruct IH as [Hall ->]. split; [| done].
      constructor; [by rewrite Hf | done].
Qed.

(** What the detection comes to, on the candidates of the page. *)
Lemma detectApiBaseUrl_cases (fetch : string → Fetched) (page : Page) :
  let candidates := buildApiBaseCandidates page in
  ∃ base calls,
    detectApiBaseUrl fetch page = (Some base, calls) ∧
    ((∃ before after,
        candidates = before ++ base :: after ∧
        Forall (unhealthy fetch) before ∧
        fetch (health base) = Responded true ∧
        calls = map health (before ++ [base]))
     ∨ (Forall (unhealthy fetch) candidates ∧
        head candidates = Some base ∧
        calls = map health candidates)).
Proof.
  cbv zeta.
  pose proof (candidates_nonempty page) as Hne.
  assert (Hstrip : Forall (λ c, stripSlashes c = c)
                     (buildApiBaseCandidates page)).
  { eapply Forall_impl; [apply candidates_stripped |]. by intros c [_ ?]. }
  pose proof (probe_spec fetch _ Hstrip) as Hp.
  unfold detectApiBaseUrl.
  destruct (probe fetch (buildApiBaseCandidates page)) as [[base |] calls].
  - exists base, calls. split; [done |]. by left.
  - destruct Hp as [Hall ->].
    destruct (buildApiBaseCandidates page) as [| c cs] eqn:Hcs; [done |].
    exists c, (map health (c :: cs)). simpl. split; [done |].
    right. done.
Qed.

Lemma initializeApiBaseUrl_candidate (fetch : string → Fetched) (page : Page) :
  initializeApiBaseUrl fetch page ∈ buildApiBaseCandidates page.
Proof.
  unfold initializeApiBaseUrl.
  destruct (detectApiBaseUrl_cases fetch page) as (base & calls & -> & Hcases).
  destruct Hcases as [(before & after & -> & _) | (_ & Hhead & _)].
  - apply elem_of_app. right. left.
  - destruct (buildApiBaseCandidates page) as [| c cs]; [done |].
    injection Hhead as ->. left.
Qed.

(** X15.  The detection never throws. It asks the candidates for their
    [/health] in order and stops at the first that answers OK, which is the
    base; when none does, every candidate has been asked once and the base
    is the first candidate. [initializeApiBaseUrl] therefore never falls
    back to the default address by its [catch]. *)
Theorem detectApiBaseUrl_first_healthy (fetch : string → Fetched) (page : Page) :
  let candidates := buildApiBaseCandidates page in
  ∃ base calls,
    detectApiBaseUrl fetch page = (Some base, calls) ∧
    initializeApiBaseUrl fetch page = base ∧
    ((∃ before after,
        candidates = before ++ base :: after ∧
        Forall (unhealthy fetch) before ∧
        fetch (health base) = Responded true ∧
        calls = map health (before ++ [base]))
     ∨ (Forall (unhealthy fetch) candidates ∧
        head candidates = Some base ∧
        calls = map health candidates)).
Proof.
  cbv zeta.
  destruct (detectApiBaseUrl_cases fetch page) as (base & calls & Hd & Hcases).
  exists base, calls. split; [done |]. split; [| done].
  unfold initializeApiBaseUrl. by rewrite Hd.
Qed.

(** X16.  [ensureApiBaseUrl] never waits for the detection and never returns
    an empty address. The constructor has stored the default address, so
    that a call made while the detection runs returns the default; a call
    made after it returns the address detected, which is one of the
    candidates. In both cases the processor is left as it is. *)
Theorem ensureApiBaseUrl_immediate (fetch : string → Fetched) (page : Page) :
  let early := ensureApiBaseUrl fetch page (constructed page) in
  let late := ensureApiBaseUrl fetch page (detected fetch page) in
  early = (getDefaultApiBaseUrl (location page), constructed page) ∧
  late = (initializeApiBaseUrl fetch page, detected fetch page) ∧
  early.1 ≠ "" ∧ late.1 ≠ "" ∧
  late.1 ∈ buildApiBaseCandidates page.
Proof.
  cbv zeta.
  assert (Hdefault : getDefaultApiBaseUrl (location page) ≠ "").
  { apply getDefaultApiBaseUrl_nonempty. }
  assert (Hbase : initializeApiBaseUrl fetch page ∈ buildApiBaseCandidates page).
  { apply initializeApiBaseUrl_candidate. }
  assert (Hne : initializeApiBaseUrl fetch page ≠ "").
  { pose proof (candidates_stripped page) as Hclean.
    eapply Forall_forall in Hclean; [| exact Hbase]. by destruct Hclean. }
  unfold ensureApiBaseUrl, constructed, detected. simpl.
  apply String.eqb_neq in Hdefault as Hd, Hne as Hn. rewrite Hd, Hn. simpl.
  done.
Qed.

End ApiBaseFacts.

Section ApiBaseExamples.
Import Js ExcelProcessorRest ApiBaseTest.

(** [testUsesReachableCandidate]: the override does not answer, the
    page's own origin does. *)
Example uses_reachable_candidate :
  detectApiBaseUrl reachable_app (page_with (VStr "https://api.example.com"))
  = (Some "https://app.example.com",
     ["https://api.example.com/health"; "https://app.example.com/health"]).
Proof. by vm_compute. Qed.

(** [testFallsBackWhenAllFail]: nothing answers, the first candidate is
    kept. *)
Example falls_back_when_all_fail :
  initializeApiBaseUrl all_fail (page_with VUndefined)
  = "https://app.example.com".
Proof. by vm_compute. Qed.

End ApiBaseExamples.

(* ===================================================================== *)
(** * Further theorems: the bad-upload test and the client *)
(* ===================================================================== *)

Section BadUploadFacts.

(** X17.  A response that passes the three assertions of the bad-upload test
    makes [downloadFile] throw, with the very message the server sent: the
    default message is not needed, and nothing is offered for download. *)
Theorem runTest_downloadFile (response : Http.Response) :
  Http.runTest response = true →
  ∃ error,
    error ≠ "" ∧
    Http.status response = 400%Z ∧
    Http.body response = Http.Json (Some error) ∧
    Http.downloadFile response = Http.Throws error.
Proof.
  unfold Http.runTest, Http.downloadFile.
  intros [[Hok Hstatus]%andb_true_iff Hbody]%andb_true_iff.
  rewrite Hok. apply Z.eqb_eq in Hstatus.
  destruct (Http.body response) as [[error |] | content]; try done.
  apply negb_true_iff in Hbody as Hne.
  exists error. split; [by apply String.eqb_neq |].
  split; [done |]. split; [done |].
  unfold Js.str_or_else. simpl. by rewrite Hne.
Qed.

Lemma runTest_downloadFile_witness :
  ∃ error,
    error ≠ "" ∧
    Http.status {| Http.status := 400; Http.body := Http.Json (Some "Invalid file") |}
      = 400%Z ∧
    Http.body {| Http.status := 400; Http.body := Http.Json (Some "Invalid file") |}
      = Http.Json (Some error) ∧
    Http.downloadFile
      {| Http.status := 400; Http.body := Http.Json (Some "Invalid file") |}
      = Http.Throws error.
Proof.
  apply (runTest_downloadFile
           {| Http.status := 400; Http.body := Http.Json (Some "Invalid file") |}).
  reflexivity.
Defined.

End BadUploadFacts.

(* ===================================================================== *)
(** * Further theorems: the drill-down filters *)
(* ===================================================================== *)

Section FilterFacts.
Import Js DealComparisonDashboard DealComparisonDashboardRest.

Lemma toggle_set_twice (id : string) (chosen : gset string) :
  (id ∈ chosen → chosen ∖ {[id]} ∪ {[id]} = chosen) ∧
  (id ∉ chosen → (chosen ∪ {[id]}) ∖ {[id]} = chosen).
Proof.
  split; intros Hid; apply set_eq; intros x;
    rewrite ?elem_of_union, ?elem_of_difference, ?elem_of_union,
      ?elem_of_singleton.
  - destruct (decide (x = id)) as [-> | ?]; tauto.
  - destruct (decide (x = id)) as [-> | ?]; tauto.
Qed.

(** X18.  A click on a deal selects it when it was not selected and
    deselects it when it was, and touches nothing else; a second click on
    the same deal undoes the first. The same holds for a click on a cost
    type, and the reset leaves nothing selected. *)
Theorem toggle_filters (id : string) (filters : Filters) :
  let deal_toggled := toggleDealFilter id filters in
  let cost_toggled := toggleCostFilter id filters in
  (∀ other, other ∈ filter_deals deal_toggled ↔
     if decide (other = id ∧ id ≠ "") then other ∉ filter_deals filters
     else other ∈ filter_deals filters) ∧
  filter_costTypes deal_toggled = filter_costTypes filters ∧
  toggleDealFilter id deal_toggled = filters ∧
  (∀ other, other ∈ filter_costTypes cost_toggled ↔
     if decide (other = id ∧ id ≠ "") then other ∉ filter_costTypes filters
     else other ∈ filter_costTypes filters) ∧
  filter_deals cost_toggled = filter_deals filters ∧
  toggleCostFilter id cost_toggled = filters ∧
  size (filter_deals (resetFilters filters)) = 0 ∧
  size (filter_costTypes (resetFilters filters)) = 0.
Proof.
  cbv zeta. destruct filters as [ds cs].
  unfold toggleDealFilter, toggleCostFilter. simpl.
  destruct (String.eqb_spec id "") as [-> | Hid]; simpl.
  { repeat split; try done; intros; case_decide as Hd; try done; by destruct Hd. }
  split.
  { intros other. destruct (bool_decide (id ∈ ds)) eqn:Hin; simpl.
    - apply bool_decide_eq_true in Hin.
      rewrite elem_of_difference, elem_of_singleton.
      case_decide as Hd; [destruct Hd as [-> _]; tauto |].
      split; [tauto |]. intros ?. split; [done |]. intros ->. by apply Hd.
    - apply bool_decide_eq_false in Hin.
      rewrite elem_of_union, elem_of_singleton.
      case_decide as Hd; [destruct Hd as [-> _]; tauto |].
      split; [| tauto]. intros [? | ->]; [done |]. by destruct Hd. }
  split; [by destruct (bool_decide (id ∈ ds)) |].
  split.
  { destruct (bool_decide (id ∈ ds)) eqn:Hin; simpl.
    - apply bool_decide_eq_true in Hin.
      rewrite bool_decide_eq_false_2
        by (rewrite elem_of_difference, elem_of_singleton; tauto).
      f_equal. by apply toggle_set_twice.
    - apply bool_decide_eq_false in Hin.
      rewrite bool_decide_eq_true_2
        by (rewrite elem_of_union, elem_of_singleton; tauto).
      f_equal. by apply toggle_set_twice. }
  split.
  { intros other. destruct (bool_decide (id ∈ cs)) eqn:Hin; simpl.
    - apply bool_decide_eq_true in Hin.
      rewrite elem_of_difference, elem_of_singleton.
      case_decide as Hd; [destruct Hd as [-> _]; tauto |].
      split; [tauto |]. intros ?. split; [done |]. intros ->. by apply Hd.
    - apply bool_decide_eq_false in Hin.
      rewrite elem_of_union, elem_of_singleton.
      case_decide as Hd; [destruct Hd as [-> _]; tauto |].
      split; [| tauto]. intros [? | ->]; [done |]. by destruct Hd. }
  split; [by destruct (bool_decide (id ∈ cs)) |].
  split; [| done].
  destruct (bool_decide (id ∈ cs)) eqn:Hin; simpl.
  - apply bool_decide_eq_true in Hin.
    rewrite bool_decide_eq_false_2
      by (rewrite elem_of_difference, elem_of_singleton; tauto).
    f_equal. by apply toggle_set_twice.
  - apply bool_decide_eq_false in Hin.
    rewrite bool_decide_eq_true_2
      by (rewrite elem_of_union, elem_of_singleton; tauto).
    f_equal. by apply toggle_set_twice.
Qed.

(** X19.  The filters only narrow the selection: the deals shown under a
    filter are among those shown without, in the same order. Under a deal
    filter every deal shown is one of the filter; under a filter of cost
    types every deal shown has comparisons, and only of the cost types of
    the filter. *)
Theorem getFilteredDeals_narrows (analysisData : option AnalysisData)
    (filters : Filters) :
  let shown := getFilteredDeals analysisData filters in
  let unfiltered := getFilteredDeals analysisData (resetFilters filters) in
  map Deal.deal_id shown `sublist_of` map Deal.deal_id unfiltered ∧
  Forall (λ deal,
    (size (filter_deals filters) ≠ 0 →
     Deal.deal_id deal ∈ filter_deals filters) ∧
    (size (filter_costTypes filters) ≠ 0 →
     ∃ costs, Deal.costs deal = Some costs ∧ costs ≠ [] ∧
       Forall (λ cost, Cost.cost_type cost ∈ filter_costTypes filters) costs))
    shown.
Proof.
  cbv zeta. unfold getFilteredDeals, resetFilters.
  cbn [filter_deals filter_costTypes].
  destruct (analysisData ≫= deals) as [all |]; [| split; [done | constructor]].
  set (positive := filter positive_difference _).
  rewrite (bool_decide_eq_false_2 (size (∅ : gset string) ≠ 0))
    by (rewrite size_empty; tauto).
  set (by_deal := if bool_decide (size (filter_deals filters) ≠ 0) then _ else _).
  assert (Hdeal : map Deal.deal_id by_deal `sublist_of` map Deal.deal_id positive
                  ∧ Forall (λ deal, size (filter_deals filters) ≠ 0 →
                              Deal.deal_id deal ∈ filter_deals filters) by_deal).
  { subst by_deal. case_bool_decide as Hsize.
    - split; [apply fmap_sublist, sublist_filter |].
      apply Forall_forall. intros deal [Hin _]%list_elem_of_filter. done.
    - split; [done |]. apply Forall_forall. intros deal _ Hne. done. }
  destruct Hdeal as [Hsub Hin].
  case_bool_decide as Hcost.
  - split.
    + etrans; [| exact Hsub].
      etrans; [apply fmap_sublist, sublist_filter |].
      change (map Deal.deal_id (map ?f by_deal))
        with (Deal.deal_id <$> (f <$> by_deal)).
      rewrite <- list_fmap_compose. done.
    + apply Forall_forall. intros deal [Hlen Hd]%list_elem_of_filter.
      change (map ?f by_deal) with (f <$> by_deal) in Hd.
      apply list_elem_of_fmap in Hd as (deal0 & -> & Hd0).
      split.
      * intros Hne. simpl. eapply Forall_forall in Hin; [| done]. by apply Hin.
      * intros _. simpl in *. eexists. split; [done |].
        split.
        { intros Hnil. rewrite Hnil in Hlen. done. }
        apply Forall_forall. intros cost [? _]%list_elem_of_filter. done.
  - split; [done |]. apply Forall_forall. intros deal Hd.
    split; [| done]. eapply Forall_forall in Hin; done.
Qed.

End FilterFacts.

(* ===================================================================== *)
(** * Further theorems: the cost breakdown and the waterfall chart *)
(* ===================================================================== *)

Section BreakdownFacts.
Import Js DealComparisonDashboard DealComparisonDashboardRest.

Local Abbreviation of_type k := (λ cost : Cost.t, Cost.cost_type cost = k).
Local Abbreviation abs_difference := (λ entry : Breakdown, Qabs (b_difference entry)).
Local Abbreviation sum_quantity quantity :=
  (foldl (λ acc (deal : Deal.t), (acc + num (quantity deal))%Q)).

(** The outer loop keeps its three variables apart. *)
Lemma breakdown_state (state : BreakdownState) (deals : list Deal.t) :
  foldl breakdown_deal state deals =
  {| breakdownMap := foldl breakdown_cost (breakdownMap state) (all_costs deals);
     comparisonTotal :=
       sum_quantity Deal.comparison_quantity (comparisonTotal state) deals;
     formattedTotal :=
       sum_quantity Deal.formatted_quantity (formattedTotal state) deals |}.
Proof.
  revert state. induction deals as [| deal deals IH]; intros state.
  - by destruct state.
  - change (foldl breakdown_deal state (deal :: deals))
      with (foldl breakdown_deal (breakdown_deal state deal) deals).
    rewrite IH. unfold all_costs. rewrite bind_cons, foldl_app. done.
Qed.

Lemma status_of_snoc (costs : list Cost.t) (cost : Cost.t) :
  status_of (costs ++ [cost]) =
  if String.eqb (Cost.status cost) "Unregistered" then "Unregistered"
  else if String.eqb (Cost.status cost) "Partial"
          && negb (String.eqb (status_of costs) "Unregistered")
  then "Partial"
  else status_of costs.
Proof.
  unfold status_of. rewrite !existsb_app. simpl. rewrite !orb_false_r.
  destruct (String.eqb (Cost.status cost) "Unregistered") eqn:Hu.
  { by rewrite orb_true_r. }
  rewrite orb_false_r.
  destruct (existsb _ costs); [by rewrite andb_false_r |].
  destruct (String.eqb (Cost.status cost) "Partial"); simpl.
  - rewrite orb_true_r. by destruct (existsb _ costs).
  - by rewrite orb_false_r.
Qed.

(** What the map holds under a key after the loops have visited the
    comparisons [cs]. *)
Lemma breakdown_get (cs : list Cost.t) (k : string) :
  map_get k (foldl breakdown_cost [] cs) =
  if decide (filter (of_type k) cs = []) then None
  else Some (breakdown_of k (filter (of_type k) cs)).
Proof.
  induction cs as [| cost cs IH] using rev_ind; [done |].
  rewrite foldl_app, filter_app. simpl.
  unfold breakdown_cost at 1.
  rewrite filter_cons, filter_nil.
  destruct (decide (Cost.cost_type cost = k)) as [Hk | Hne].
  - rewrite !Hk, map_get_set_eq, IH.
    assert (Hcurrent :
      default {| b_cost_type := k; formatted_total := 0%Q;
                 comparison_total := 0%Q; b_difference := 0%Q;
                 b_status := "Registered" |}
        (if decide (filter (of_type k) cs = []) then None
         else Some (breakdown_of k (filter (of_type k) cs)))
      = breakdown_of k (filter (of_type k) cs)).
    { case_decide as Hnil; [| done]. by rewrite Hnil. }
    rewrite Hcurrent. clear Hcurrent.
    destruct (decide (filter (of_type k) cs ++ [cost] = [])) as [Hnil' | _];
      [by apply app_eq_nil in Hnil' as [_ ?] |].
    f_equal. unfold breakdown_of, total_of. cbn [b_cost_type formatted_total
      comparison_total b_difference b_status].
    rewrite !foldl_app, status_of_snoc. done.
  - rewrite map_get_set_ne by done. by rewrite app_nil_r.
Qed.

Lemma breakdown_NoDup (cs : list Cost.t) :
  NoDup (map fst (foldl breakdown_cost [] cs)).
Proof.
  induction cs as [| cost cs IH] using rev_ind; [constructor |].
  rewrite foldl_app. simpl. unfold breakdown_cost at 1.
  by apply map_set_NoDup.
Qed.

(** The entries of the map are the entries of the cost types that have
    a comparison. *)
Lemma breakdown_entries (deals : list Deal.t) (k : string) (entry : Breakdown) :
  (k, entry) ∈ foldl breakdown_cost [] (all_costs deals) ↔
  costs_of k deals ≠ [] ∧ entry = breakdown_of k (costs_of k deals).
Proof.
  pose proof (breakdown_get (all_costs deals) k) as Hget.
  unfold costs_of. split.
  - intros Hin. apply elem_of_map_get in Hin; [| apply breakdown_NoDup].
    rewrite Hget in Hin. case_decide; [done |]. by simplify_eq.
  - intros [Hne ->]. apply map_get_Some_elem_of. rewrite Hget.
    by case_decide.
Qed.

Lemma breakdown_costs (deals : list Deal.t) :
  let registry := foldl breakdown_cost [] (all_costs deals) in
  costs (aggregateCostBreakdown deals) ≡ₚ map snd registry ∧
  map b_cost_type (map snd registry) = map fst registry ∧
  StronglySorted (Js.desc_order abs_difference)
    (costs (aggregateCostBreakdown deals)).
Proof.
  cbv zeta. unfold aggregateCostBreakdown. rewrite breakdown_state. simpl.
  split; [apply (sort_Permutation abs_difference) |].
  split; [| apply (sort_sorted abs_difference)].
  rewrite <- list_fmap_compose. apply list_fmap_ext.
  intros i [k entry] Hi. apply list_elem_of_lookup_2 in Hi.
  apply breakdown_entries in Hi as [_ ->]. done.
Qed.

Lemma elem_of_breakdown_costs (deals : list Deal.t) (entry : Breakdown) :
  entry ∈ costs (aggregateCostBreakdown deals) ↔
  costs_of (b_cost_type entry) deals ≠ [] ∧
  entry = breakdown_of (b_cost_type entry) (costs_of (b_cost_type entry) deals).
Proof.
  destruct (breakdown_costs deals) as (Hperm & _ & _). rewrite Hperm. split.
  - intros Hin. apply list_elem_of_fmap in Hin as ([k entry'] & -> & Hin).
    apply breakdown_entries in Hin as [Hne Heq]. simpl.
    assert (Hk : b_cost_type entry' = k) by by rewrite Heq.
    by rewrite Hk.
  - intros [Hne Heq]. apply list_elem_of_fmap.
    exists (b_cost_type entry, entry). split; [done |].
    by apply breakdown_entries.
Qed.

(** X20.  The breakdown has exactly one entry for every cost type that
    occurs among the comparisons of the deals. Its three totals are the sums
    over the comparisons of that type, a missing amount counting as 0, and
    its status is Unregistered as soon as one of them is Unregistered, else
    Partial as soon as one is Partial, else Registered. The entries are in
    order of descending absolute difference, and the two grand totals are
    the sums of the quantities of the deals. *)
Theorem aggregateCostBreakdown_spec (deals : list Deal.t) :
  let breakdown := aggregateCostBreakdown deals in
  NoDup (map b_cost_type (costs breakdown)) ∧
  (∀ cost_type, cost_type ∈ map b_cost_type (costs breakdown) ↔
     ∃ deal cost, deal ∈ deals ∧ cost ∈ default [] (Deal.costs deal) ∧
       Cost.cost_type cost = cost_type) ∧
  (∀ entry, entry ∈ costs breakdown →
     entry = breakdown_of (b_cost_type entry)
               (costs_of (b_cost_type entry) deals)) ∧
  StronglySorted (λ a b, (Qabs (b_difference b) <= Qabs (b_difference a))%Q)
    (costs breakdown) ∧
  breakdown_comparisonTotal breakdown
    = sum_quantity Deal.comparison_quantity 0%Q deals ∧
  breakdown_formattedTotal breakdown
    = sum_quantity Deal.formatted_quantity 0%Q deals.
Proof.
  cbv zeta. destruct (breakdown_costs deals) as (Hperm & Htype & Hsorted).
  split.
  { rewrite Hperm, Htype. apply breakdown_NoDup. }
  split.
  { intros k. split.
    - intros Hin. apply list_elem_of_fmap in Hin as (entry & -> & Hin).
      apply elem_of_breakdown_costs in Hin as [Hne _].
      destruct (costs_of (b_cost_type entry) deals) as [| cost l] eqn:Hc;
        [done |].
      assert (Hin : cost ∈ costs_of (b_cost_type entry) deals)
        by (rewrite Hc; left).
      apply list_elem_of_filter in Hin as [Hk Hin].
      apply list_elem_of_bind in Hin as (deal & Hcost & Hdeal).
      by exists deal, cost.
    - intros (deal & cost & Hdeal & Hcost & Hk).
      apply list_elem_of_fmap.
      exists (breakdown_of k (costs_of k deals)). split; [done |].
      apply elem_of_breakdown_costs. simpl. split; [| done].
      intros Hnil.
      assert (Hin : cost ∈ costs_of k deals).
      { apply list_elem_of_filter. split; [done |].
        apply list_elem_of_bind. by exists deal. }
      rewrite Hnil in Hin. by apply elem_of_nil in Hin. }
  split.
  { intros entry Hin. by apply elem_of_breakdown_costs in Hin as [_ ?]. }
  split; [done |].
  unfold aggregateCostBreakdown. rewrite breakdown_state. done.
Qed.



End BreakdownFacts.

(* ===================================================================== *)
(** * Further theorems: the treemap of unregistered costs *)
(* ===================================================================== *)

Section TreemapFacts.
Import Js DealComparisonDashboard DealComparisonDashboardRest.
Import ExcelProcessorRest.

Local Abbreviation is_unregistered :=
  (λ dc : string * Cost.t, Cost.status dc.2 = "Unregistered").
Local Abbreviation impacts :=
  (λ registry : list (string * Unregistered),
     sum_of (map (λ entry, impact entry.2) registry)).

Lemma foldl_plus {A} (f : A → Q) (l : list A) (start : Q) :
  (foldl (λ sum x, sum + f x) start l == start + sum_of (map f l))%Q.
Proof.
  revert start. induction l as [| x l IH]; intros start; simpl.
  - ring.
  - rewrite IH. ring.
Qed.

Lemma map_set_impacts (registry : list (string * Unregistered)) (k : string)
    (entry : Unregistered) :
  (impacts (map_set k entry registry)
   == impacts registry
      - default 0 (impact <$> map_get k registry) + impact entry)%Q.
Proof.
  induction registry as [| [k' entry'] registry IH]; simpl.
  - ring.
  - destruct (String.eqb_spec k' k) as [-> | Hne]; simpl.
    + ring.
    + rewrite IH. ring.
Qed.

(** The impacts of the registry add up to the absolute differences of the
    comparisons visited. *)
Lemma registry_impacts (ps : list (string * Cost.t)) :
  Forall is_unregistered ps →
  (impacts (foldl register_pair [] ps) == total_impact ps)%Q.
Proof.
  induction ps as [| [id cost] ps IH] using rev_ind; intros Hst; [reflexivity |].
  apply Forall_app in Hst as [Hps Hp]. apply Forall_cons in Hp as [Hp _].
  simpl in Hp. specialize (IH Hps).
  unfold total_impact in *. rewrite !foldl_app. simpl.
  unfold register_pair at 1. simpl. unfold register_cost. rewrite Hp. simpl.
  rewrite map_set_impacts, IH. simpl.
  destruct (map_get (Cost.cost_type cost) (foldl register_pair [] ps));
    simpl; ring.
Qed.

Lemma registry_nil (ps : list (string * Cost.t)) :
  Forall is_unregistered ps → foldl register_pair [] ps = [] → ps = [].
Proof.
  intros Hst Hnil. destruct ps as [| [id cost] ps]; [done |].
  pose proof (registry_get ((id, cost) :: ps) (Cost.cost_type cost) Hst) as Hget.
  rewrite Hnil, filter_cons in Hget. simpl in Hget.
  destruct (decide (Cost.cost_type cost = Cost.cost_type cost)); [| done].
  by case_decide.
Qed.


End TreemapFacts.

Section TreemapExamples.
Import Js DealComparisonDashboard DealComparisonDashboardRest Fixture.

(** The treemap of the example result: 840 of unregistered costs, 490 of
    them INS on two deals and 350 INA on one. *)
Example analysis_treemap :
  renderTreemap (default [] (deals analysis))
  = Some {| t_labels := ["Unregistered Costs"; "INS"; "INA"];
            parents := [""; "Unregistered Costs"; "Unregistered Costs"];
            t_values := [840; 490; 350]%Q;
            t_colors := [0; 2; 1];
            t_text := ["Unregistered Costs<br>Total"; "INS<br>2 deals";
                       "INA<br>1 deals"];
            customdata := ["Overall"; "2 deals"; "1 deals"] |}.
Proof. by vm_compute. Qed.

End TreemapExamples.

(* ===================================================================== *)
(** * Further theorems: the heat map *)
(* ===================================================================== *)

Section HeatmapFacts.
Import Js DealComparisonDashboard DealComparisonDashboardRest.

(** The last place of a key in a list. *)
Local Abbreviation last_at :=
  (λ (keys : list string) (key : string) (i : nat),
     keys !! i = Some key ∧ ∀ j, i < j → keys !! j ≠ Some key).

Lemma index_map_snoc (keys : list string) (key : string) :
  index_map (keys ++ [key]) = map_set key (length keys) (index_map keys).
Proof.
  unfold index_map. rewrite imap_app, foldl_app. simpl.
  by rewrite Nat.add_0_r.
Qed.

(** The index that the map holds for a key is its last place. *)
Lemma index_map_get (keys : list string) (key : string) :
  match map_get key (index_map keys) with
  | Some i => last_at keys key i
  | None => key ∉ keys
  end.
Proof.
  induction keys as [| key' keys IH] using rev_ind.
  - simpl. apply not_elem_of_nil.
  - rewrite index_map_snoc.
    destruct (decide (key' = key)) as [-> | Hne].
    + rewrite map_get_set_eq. split.
      * by rewrite lookup_app_r, Nat.sub_diag.
      * intros j Hj Hlook. apply lookup_lt_Some in Hlook.
        rewrite length_app in Hlook. simpl in Hlook. lia.
    + rewrite map_get_set_ne by done.
      destruct (map_get key (index_map keys)) as [i |].
      * destruct IH as [Hi Hlast]. split.
        { by rewrite lookup_app_l by by eapply lookup_lt_Some. }
        intros j Hj Hlook.
        destruct (decide (j < length keys)) as [Hlt | Hge].
        { rewrite lookup_app_l in Hlook by done. by eapply Hlast. }
        rewrite lookup_app_r in Hlook by lia.
        destruct (j - length keys) as [| n]; simpl in Hlook; [| done].
        congruence.
      * rewrite elem_of_app, list_elem_of_singleton. intros [? | ?]; done.
Qed.

Lemma index_map_last (keys : list string) (key : string) (i : nat) :
  last_at keys key i → map_get key (index_map keys) = Some i.
Proof.
  intros [Hi Hlast]. pose proof (index_map_get keys key) as Hget.
  destruct (map_get key (index_map keys)) as [i0 |].
  - destruct Hget as [Hi0 Hlast0]. f_equal.
    destruct (Nat.lt_trichotomy i0 i) as [Hlt | [-> | Hlt]]; [| done |].
    + by apply Hlast0 in Hlt.
    + by apply Hlast in Hlt.
  - destruct Hget. by eapply list_elem_of_lookup_2.
Qed.

Lemma index_map_elem_of (keys : list string) (key : string) :
  key ∈ keys → ∃ i, map_get key (index_map keys) = Some i ∧ i < length keys.
Proof.
  intros Hin. pose proof (index_map_get keys key) as Hget.
  destruct (map_get key (index_map keys)) as [i |]; [| done].
  exists i. split; [done |]. destruct Hget as [Hi _].
  by eapply lookup_lt_Some.
Qed.

Lemma selected_subseteq (chosen : gset string) (keys : list string) :
  selected chosen keys ⊆ keys.
Proof. intros key [_ ?]%list_elem_of_filter. done. Qed.

(** The cells that one of the three matrices shows. *)
Lemma select_cells_spec {A} (cells : list (list (option A)))
    (deals costs selectedDeals selectedCosts : list string) :
  selectedDeals ⊆ deals → selectedCosts ⊆ costs →
  length deals ≤ length cells →
  ∃ shown,
    select_cells cells (index_map deals) (index_map costs)
      selectedDeals selectedCosts = Some shown ∧
    ∀ a b deal cost i j,
      selectedDeals !! a = Some deal → selectedCosts !! b = Some cost →
      last_at deals deal i → last_at costs cost j →
      shown !! a ≫= (λ row, row !! b) = Some (cells !! i ≫= (λ row, row !! j)).
Proof.
  intros Hdeals Hcosts Hrows. unfold select_cells.
  set (f := λ deal : string, _).
  assert (Hsome : is_Some (mapM f selectedDeals)).
  { apply mapM_is_Some, Forall_forall. intros deal Hin. unfold f. simpl.
    apply Hdeals, index_map_elem_of in Hin as (i & -> & Hi). simpl.
    destruct (lookup_lt_is_Some_2 cells i) as [row ->]; [lia |]. done. }
  destruct Hsome as [shown Hshown]. exists shown. split; [done |].
  intros a b deal cost i j Ha Hb Hi Hj.
  apply mapM_Some_1 in Hshown.
  destruct (Forall2_lookup_l _ _ _ _ _ Hshown Ha) as (cells_a & -> & Hf).
  unfold f in Hf. rewrite (index_map_last _ _ _ Hi) in Hf. simpl in Hf.
  destruct (cells !! i) as [row |]; simpl in *; [| done].
  injection Hf as <-.
  change (map ?g selectedCosts !! b) with ((g <$> selectedCosts) !! b).
  rewrite list_lookup_fmap, Hb. simpl.
  by rewrite (index_map_last _ _ _ Hj).
Qed.

(** X23.  When every deal of the heat map has its row in the three matrices
    and the selection leaves a deal and a cost type, the heat map is drawn,
    with the selected cost types and deals as its axes. The cell shown for a
    deal and a cost type is the cell that the result holds at the place of
    that deal and that cost type; for a deal or cost type listed twice, at
    its last place. *)
Theorem renderHeatmap_cells (data : HeatmapData) (filters : Filters) :
  let selectedDeals := selected (filter_deals filters) (deal_ids data) in
  let selectedCosts := selected (filter_costTypes filters) (cost_types data) in
  length (deal_ids data) ≤ length (matrix data) →
  length (deal_ids data) ≤ length (status_matrix data) →
  length (deal_ids data) ≤ length (hover data) →
  selectedDeals ≠ [] → selectedCosts ≠ [] →
  ∃ chart,
    renderHeatmap (Some data) filters = Chart chart ∧
    x chart = selectedCosts ∧ y chart = selectedDeals ∧
    ∀ a b deal cost i j,
      y chart !! a = Some deal → x chart !! b = Some cost →
      last_at (deal_ids data) deal i → last_at (cost_types data) cost j →
      z chart !! a ≫= (λ row, row !! b)
        = Some (matrix data !! i ≫= (λ row, row !! j)) ∧
      text chart !! a ≫= (λ row, row !! b)
        = Some (status_matrix data !! i ≫= (λ row, row !! j)) ∧
      hovertext chart !! a ≫= (λ row, row !! b)
        = Some (hover data !! i ≫= (λ row, row !! j)).
Proof.
  intros selectedDeals selectedCosts Hm Hs Hh Hdeals Hcosts.
  unfold renderHeatmap. fold selectedDeals selectedCosts.
  rewrite (bool_decide_eq_false_2 (length selectedDeals = 0))
    by (by destruct selectedDeals).
  rewrite (bool_decide_eq_false_2 (length selectedCosts = 0))
    by (by destruct selectedCosts).
  simpl.
  destruct (select_cells_spec (matrix data) (deal_ids data) (cost_types data)
              selectedDeals selectedCosts) as (shown_z & -> & Hz);
    [apply selected_subseteq | apply selected_subseteq | done |].
  destruct (select_cells_spec (status_matrix data) (deal_ids data)
              (cost_types data) selectedDeals selectedCosts)
    as (shown_text & -> & Htext);
    [apply selected_subseteq | apply selected_subseteq | done |].
  destruct (select_cells_spec (hover data) (deal_ids data) (cost_types data)
              selectedDeals selectedCosts) as (shown_hover & -> & Hhover);
    [apply selected_subseteq | apply selected_subseteq | done |].
  eexists. split; [done |]. split; [done |]. split; [done |]. simpl.
  intros a b deal cost i j Ha Hb Hi Hj.
  split; [by eapply Hz | split; [by eapply Htext | by eapply Hhover]].
Qed.

Lemma last_at_NoDup (keys : list string) (key : string) (i : nat) :
  NoDup keys → keys !! i = Some key → last_at keys key i.
Proof.
  intros Hnd Hi. split; [done |]. intros j Hj Hlook.
  pose proof (NoDup_lookup _ _ _ _ Hnd Hi Hlook). lia.
Qed.

Lemma selected_all (chosen : gset string) (keys : list string) :
  size chosen = 0 → selected chosen keys = keys.
Proof.
  intros Hsize. unfold selected.
  induction keys as [| key keys IH]; [done |].
  rewrite filter_cons, decide_True by by left. by rewrite IH.
Qed.

(** Without selection, distinct keys and rows of the right length give
    the matrix back. *)
Lemma select_cells_all {A} (cells : list (list (option A)))
    (deals costs : list string) :
  NoDup deals → NoDup costs →
  length cells = length deals →
  Forall (λ row, length row = length costs) cells →
  select_cells cells (index_map deals) (index_map costs) deals costs
  = Some (map (map Some) cells).
Proof.
  intros Hdeals Hcosts Hlen Hrows. unfold select_cells.
  apply mapM_Some_2, Forall2_same_length_lookup.
  split; [by rewrite length_map |].
  intros i deal shown Hi Hshown.
  change (map (map Some) cells) with (map Some <$> cells) in Hshown.
  rewrite list_lookup_fmap in Hshown.
  destruct (cells !! i) as [row |] eqn:Hrow; [| done].
  injection Hshown as <-.
  rewrite (index_map_last _ _ _ (last_at_NoDup _ _ _ Hdeals Hi)). simpl.
  rewrite Hrow. simpl. f_equal.
  eapply Forall_lookup_1 in Hrows; [| done].
  apply list_eq. intros b.
  change (map ?g costs !! b) with ((g <$> costs) !! b).
  change (map Some row !! b) with ((Some <$> row) !! b).
  rewrite !list_lookup_fmap.
  destruct (costs !! b) as [cost |] eqn:Hb; simpl.
  - rewrite (index_map_last _ _ _ (last_at_NoDup _ _ _ Hcosts Hb)). simpl.
    destruct (lookup_lt_is_Some_2 row b) as [cell ->]; [| done].
    apply lookup_lt_Some in Hb. lia.
  - apply lookup_ge_None in Hb.
    rewrite (lookup_ge_None_2 row b) by lia. done.
Qed.

(** X24.  Without filters, the heat map of a result whose deals and cost
    types are each listed once, with one row per deal and one cell per cost
    type, shows the three matrices of the result as they are. *)
Theorem renderHeatmap_unfiltered (data : HeatmapData) (filters : Filters) :
  size (filter_deals filters) = 0 → size (filter_costTypes filters) = 0 →
  NoDup (deal_ids data) → NoDup (cost_types data) →
  deal_ids data ≠ [] → cost_types data ≠ [] →
  length (matrix data) = length (deal_ids data) →
  length (status_matrix data) = length (deal_ids data) →
  length (hover data) = length (deal_ids data) →
  Forall (λ row, length row = length (cost_types data)) (matrix data) →
  Forall (λ row, length row = length (cost_types data)) (status_matrix data) →
  Forall (λ row, length row = length (cost_types data)) (hover data) →
  renderHeatmap (Some data) filters
  = Chart {| x := cost_types data;
             y := deal_ids data;
             z := map (map Some) (matrix data);
             text := map (map Some) (status_matrix data);
             hovertext := map (map Some) (hover data) |}.
Proof.
  intros Hd Hc Hdeals Hcosts Hne_d Hne_c Hm Hs Hh Hmr Hsr Hhr.
  unfold renderHeatmap. rewrite !selected_all by done.
  rewrite (bool_decide_eq_false_2 (length (deal_ids data) = 0))
    by (by destruct (deal_ids data)).
  rewrite (bool_decide_eq_false_2 (length (cost_types data) = 0))
    by (by destruct (cost_types data)).
  simpl. by rewrite !select_cells_all.
Qed.

End HeatmapFacts.

Section HeatmapExamples.
Import Js DealComparisonDashboard DealComparisonDashboardRest.
Import Fixture ChartFixture.

Lemma renderHeatmap_cells_witness :
  ∃ chart,
    renderHeatmap (Some heatmap_data) no_filters = Chart chart ∧
    x chart = selected (filter_costTypes no_filters) (cost_types heatmap_data) ∧
    y chart = selected (filter_deals no_filters) (deal_ids heatmap_data) ∧
    ∀ a b deal cost i j,
      y chart !! a = Some deal → x chart !! b = Some cost →
      (deal_ids heatmap_data !! i = Some deal ∧
       ∀ j, i < j → deal_ids heatmap_data !! j ≠ Some deal) →
      (cost_types heatmap_data !! j = Some cost ∧
       ∀ j', j < j' → cost_types heatmap_data !! j' ≠ Some cost) →
      z chart !! a ≫= (λ row, row !! b)
        = Some (matrix heatmap_data !! i ≫= (λ row, row !! j)) ∧
      text chart !! a ≫= (λ row, row !! b)
        = Some (status_matrix heatmap_data !! i ≫= (λ row, row !! j)) ∧
      hovertext chart !! a ≫= (λ row, row !! b)
        = Some (hover heatmap_data !! i ≫= (λ row, row !! j)).
Proof.
  apply (renderHeatmap_cells heatmap_data no_filters);
    by vm_compute.
Defined.

Lemma renderHeatmap_unfiltered_witness :
  renderHeatmap (Some heatmap_data) no_filters
  = Chart {| x := cost_types heatmap_data;
             y := deal_ids heatmap_data;
             z := map (map Some) (matrix heatmap_data);
             text := map (map Some) (status_matrix heatmap_data);
             hovertext := map (map Some) (hover heatmap_data) |}.
Proof.
  apply (renderHeatmap_unfiltered heatmap_data no_filters);
    try (by vm_compute);
    repeat (constructor;
            [first [by vm_compute | apply (bool_decide_unpack _); by vm_compute] |]);
    constructor.
Defined.

(** A click on the cell of deal D3 and cost type INA leaves that cell. *)
Example heatmap_after_click :
  renderHeatmap (Some heatmap_data)
    (toggleCostFilter "INA" (toggleDealFilter "D3" no_filters))
  = Chart {| x := ["INA"]; y := ["D3"]; z := [[Some (Some (-10)%Q)]];
             text := [[Some (Some "Unregistered")]];
             hovertext := [[Some (Some "D3 INA")]] |}.
Proof. by vm_compute. Qed.

End HeatmapExamples.

(* ===================================================================== *)
(** * Further theorems: the options of the charts and the size of a file *)
(* ===================================================================== *)

Section PlotlyConfigFacts.
Import Js DealComparisonDashboard DealComparisonDashboardRest.

(** X25.  A chart that asks for more buttons to be removed never brings back
    a button that the default removes: the buttons removed are then the
    default ones and the ones asked for, each once. Without such a request
    the default list is kept, and the other options of the default are kept
    in every case. *)
Theorem getPlotlyConfig_buttons (default : PlotlyConfig) (overrides : Overrides) :
  let config := getPlotlyConfig default overrides in
  (∀ button, button ∈ modeBarButtonsToRemove default →
             button ∈ modeBarButtonsToRemove config) ∧
  match o_modeBarButtonsToRemove overrides with
  | Some buttons =>
      NoDup (modeBarButtonsToRemove config) ∧
      ∀ button, button ∈ modeBarButtonsToRemove config ↔
                button ∈ modeBarButtonsToRemove default ∨ button ∈ buttons
  | None => modeBarButtonsToRemove config = modeBarButtonsToRemove default
  end ∧
  modeBarButtonsToAdd config
    = match o_modeBarButtonsToAdd overrides with
      | Some buttons => Some buttons
      | None => modeBarButtonsToAdd default
      end ∧
  responsive config = responsive default ∧
  displaylogo config = displaylogo default ∧
  displayModeBar config = displayModeBar default ∧
  scrollZoom config = scrollZoom default.
Proof.
  cbv zeta. unfold getPlotlyConfig.
  destruct (o_modeBarButtonsToRemove overrides) as [buttons |] eqn:Hr; simpl.
  - split.
    { intros button Hin. apply elem_of_distinct, elem_of_app. by left. }
    split; [| done].
    split; [apply distinct_NoDup |].
    intros button. by rewrite elem_of_distinct, elem_of_app.
  - rewrite Hr. done.
Qed.

End PlotlyConfigFacts.

Section FormatSizeFacts.
Import Js DealComparisonDashboard DealComparisonDashboardRest.

Local Abbreviation scale k := (inject_Z (1024 ^ Z.of_nat k)).

Lemma scale_succ (k : nat) : (scale (S k) == 1024 * scale k)%Q.
Proof.
  rewrite Nat2Z.inj_succ, Z.pow_succ_r by lia.
  by rewrite inject_Z_mult.
Qed.

Lemma formatSize_loop_spec (fuel : nat) (size : Q) (unitIndex : nat) :
  unitIndex ≤ 3 → 3 ≤ fuel + unitIndex →
  ∃ size' k,
    formatSize_loop fuel size unitIndex = (size', unitIndex + k) ∧
    unitIndex + k ≤ 3 ∧
    formatSize_done (size', unitIndex + k) = true ∧
    (size' * scale k == size)%Q ∧
    (0 < k → (1 <= size')%Q).
Proof.
  revert size unitIndex.
  induction fuel as [| fuel IH]; intros size unitIndex Hle Hfuel.
  - assert (unitIndex = 3) as -> by lia.
    exists size, 0. simpl.
    split; [done |]. split; [done |].
    split; [unfold formatSize_done; simpl; by rewrite andb_false_r |].
    split; [| lia]. change (scale 0) with 1%Q. ring.
  - simpl.
    destruct (Qle_bool 1024 size && (unitIndex <? 3)) eqn:Hgo.
    + apply andb_true_iff in Hgo as [Hsize Hlt].
      apply Qle_bool_iff in Hsize. apply Nat.ltb_lt in Hlt. simpl in Hlt.
      destruct (IH (size / 1024)%Q (unitIndex + 1))
        as (size' & k & Hrun & Hk & Hdone & Hscale & Hone); [lia | lia |].
      exists size', (S k).
      replace (unitIndex + S k) with (unitIndex + 1 + k) by lia.
      split; [done |]. split; [done |]. split; [done |].
      split.
      * rewrite scale_succ.
        transitivity (1024 * (size' * scale k))%Q; [ring |].
        rewrite Hscale. field.
      * intros _. destruct k as [| k]; [| apply Hone; lia].
        assert (Heq : (size' == size / 1024)%Q).
        { rewrite <- Hscale. change (scale 0) with 1%Q. ring. }
        rewrite Heq. apply Qle_shift_div_l; [done |]. by rewrite Qmult_1_l.
    + exists size, 0. rewrite Nat.add_0_r.
      split; [done |]. split; [done |].
      split; [unfold formatSize_done; simpl; by rewrite Hgo |].
      split; [| lia]. change (scale 0) with 1%Q. ring.
Qed.



End FormatSizeFacts.

(* ===================================================================== *)
(** * Further theorems: the comparison request *)
(* ===================================================================== *)

Section AnalyzeFacts.
Import Js DealComparisonDashboard DealComparisonDashboardRest.

Lemma str_or_else_nonempty (a b : string) : b ≠ "" → Js.str_or_else a b ≠ "".
Proof.
  intros Hb. unfold Js.str_or_else.
  by destruct (String.eqb_spec a "").
Qed.


End AnalyzeFacts.

(* ===================================================================== *)
(** * Further theorems: the tunnel runner *)
(* ===================================================================== *)

Section TunnelFacts.
Import Tunnel.

Lemma start_spec (fuel : nat) (localtunnel : nat → string → option string)
    (random : nat → string) (attempt : nat) :
  attempt ≤ 5 → 6 ≤ fuel + attempt →
  ∃ outcome n,
    start fuel localtunnel random attempt
      = Some (outcome, map (subdomain random) (seq attempt (S n))) ∧
    attempt + n ≤ 5 ∧
    (∀ k, attempt ≤ k < attempt + n →
          localtunnel k (subdomain random k) = None) ∧
    match outcome with
    | Some url =>
        localtunnel (attempt + n) (subdomain random (attempt + n)) = Some url
    | None =>
        attempt + n = 5 ∧ localtunnel 5 (subdomain random 5) = None
    end.
Proof.
  revert attempt. induction fuel as [| fuel IH]; intros attempt Hle Hfuel;
    [lia |].
  simpl.
  destruct (localtunnel attempt (subdomain random attempt)) as [url |] eqn:Hcall.
  - exists (Some url), 0. rewrite Nat.add_0_r.
    split; [done |]. split; [lia |]. split; [intros k ?; lia | done].
  - destruct (5 <? attempt + 1) eqn:Hlast.
    + apply Nat.ltb_lt in Hlast. assert (attempt = 5) as -> by lia.
      exists None, 0. split; [done |]. split; [lia |].
      split; [intros k ?; lia | done].
    + apply Nat.ltb_ge in Hlast.
      destruct (IH (attempt + 1)) as (outcome & n & -> & Hn & Hnone & Hout);
        [lia | lia |].
      exists outcome, (S n).
      replace (attempt + S n) with (attempt + 1 + n) by lia.
      split.
      { rewrite Nat.add_1_r. done. }
      split; [lia |].
      split; [| done].
      intros k Hk. destruct (decide (k = attempt)) as [-> | ?]; [done |].
      apply Hnone. lia.
Qed.

(** X28.  The runner asks for a tunnel at most six times: first for the
    subdomain [varo-rebilling], then for that name with a random suffix. It
    stops at the first call that succeeds and takes its address; it gives
    up, throwing the last error on, exactly when six calls in a row have
    failed. Six rounds are enough for the loop to end. *)
Theorem start_at_most_six (fuel : nat)
    (localtunnel : nat → string → option string) (random : nat → string) :
  6 ≤ fuel →
  ∃ outcome asked,
    start fuel localtunnel random 0 = Some (outcome, asked) ∧
    1 ≤ length asked ≤ 6 ∧
    asked = map (subdomain random) (seq 0 (length asked)) ∧
    head asked = Some base ∧
    (∀ k, k < length asked - 1 → localtunnel k (subdomain random k) = None) ∧
    match outcome with
    | Some url =>
        localtunnel (length asked - 1) (subdomain random (length asked - 1))
        = Some url
    | None =>
        length asked = 6 ∧ localtunnel 5 (subdomain random 5) = None
    end.
Proof.
  intros Hfuel.
  destruct (start_spec fuel localtunnel random 0)
    as (outcome & n & Hrun & Hn & Hnone & Hout); [lia | lia |].
  exists outcome, (map (subdomain random) (seq 0 (S n))).
  rewrite length_map, length_seq.
  split; [done |]. split; [lia |]. split; [done |]. split; [done |].
  replace (S n - 1) with n by lia.
  split; [intros k Hk; apply Hnone; lia |].
  destruct outcome as [url |]; [done |].
  destruct Hout as [Hfive Hcall]. split; [lia | done].
Qed.

Lemma start_at_most_six_witness :
  ∃ outcome asked,
    start 6 (λ attempt _, if attempt =? 2 then Some "https://t.example" else None)
      (λ _, "abcde") 0 = Some (outcome, asked) ∧
    1 ≤ length asked ≤ 6 ∧
    asked = map (subdomain (λ _, "abcde")) (seq 0 (length asked)) ∧
    head asked = Some base ∧
    (∀ k, k < length asked - 1 →
       (λ attempt (_ : string),
          if attempt =? 2 then Some "https://t.example" else None)
         k (subdomain (λ _, "abcde") k) = None) ∧
    match outcome with
    | Some url =>
        (λ attempt (_ : string),
           if attempt =? 2 then Some "https://t.example" else None)
          (length asked - 1) (subdomain (λ _, "abcde") (length asked - 1))
        = Some url
    | None =>
        length asked = 6 ∧
        (λ attempt (_ : string),
           if attempt =? 2 then Some "https://t.example" else None)
          5 (subdomain (λ _, "abcde") 5) = None
    end.
Proof.
  apply (start_at_most_six 6
           (λ attempt _, if attempt =? 2 then Some "https://t.example" else None)
           (λ _, "abcde")).
  lia.
Defined.

(** The third call succeeds: three subdomains have been asked for. *)
Example start_third_call :
  start 6 (λ attempt _, if attempt =? 2 then Some "https://t.example" else None)
    (λ _, "abcde") 0
  = Some (Some "https://t.example",
          ["varo-rebilling"; "varo-rebilling-abcde"; "varo-rebilling-abcde"]).
Proof. by vm_compute. Qed.

End TunnelFacts.
